(** * SaccharumVision: the inference orchestration of [utils/model_manager.py]

    A shallow embedding of the [ModelManager] class (preprocessing selection,
    label loading, direct prediction, test-time augmentation, top-3 and the
    threshold policy of [improved_predict]) together with the properties its
    specification states about it.

    Conventions of the embedding.
    - float32/float64 numbers are idealised as canonical rationals [Qc]:
      arithmetic is exact, there is no rounding and no NaN. (The rounding
      of one float32 product is measured apart, in [Float32].)
    - Python exceptions are the [Raise] outcome of a small state-and-error
      monad [M]; [try ... except Exception] is [try_except].
    - The state threaded through every method holds what the code touches
      outside its own objects: the log written through [logger], the
      position in TensorFlow's global random stream, and the batches handed
      to [model.predict], in call order.
    - TensorFlow, Keras, PIL, [json] and the file system are not part of the
      repository: what they compute is taken from a [Runtime] record, except
      for the tensor operations with a simple closed form (rot90, flips,
      brightness, clipping), which are written out. *)

From stdpp Require Import base numbers list sorting strings pretty.
From Stdlib Require Import QArith Qcanon Lqa Floats.SpecFloat.

Close Scope Qc_scope.
Close Scope Q_scope.

(** ** Numbers *)

(** [mkQc n d] is the float literal n/d. *)
Definition mkQc (n : Z) (d : positive) : Qc := Q2Qc (n # d).

Definition Qc_ltb (x y : Qc) : bool := bool_decide (x < y)%Qc.
Definition Qc_min (x y : Qc) : Qc := if Qc_ltb y x then y else x.
Definition Qc_max (x y : Qc) : Qc := if Qc_ltb x y then y else x.

(** [sum(xs)] over rationals. *)
Definition Qc_sum (xs : list Qc) : Qc := foldr Qcplus (Q2Qc 0) xs.

(** ** Python values, exceptions and the monad *)

Module Py.

(** An exception object: its class name and [str(e)]. *)
Record exn := Exn { exn_type : string; exn_msg : string }.

Definition str_exn (e : exn) : string := exn_msg e.

Inductive outcome (A : Type) : Type :=
| Ok (a : A)
| Raise (e : exn).
Global Arguments Ok {A} a.
Global Arguments Raise {A} e.

(** The values stored in the result dictionaries. A [dict] keeps
    insertion order, so it is an association list. The results nest two
    levels deep at most: a value is an atom, a dictionary of atoms
    ([probabilities]) or a list of dictionaries of atoms ([top_3]). *)
Inductive atom : Type :=
| ANone
| AInt (n : Z)
| AFloat (x : Qc)
| AStr (s : string).

Inductive val : Type :=
| VAtom (a : atom)
| VDict (d : list (string * atom))
| VList (l : list (list (string * atom))).

Definition dict := list (string * val).

Definition type_name (a : atom) : string :=
  match a with
  | ANone => "NoneType"
  | AInt _ => "int"
  | AFloat _ => "float"
  | AStr _ => "str"
  end.

(** [d.get(k)] *)
Fixpoint dict_get {V : Type} (k : string) (d : list (string * V)) : option V :=
  match d with
  | [] => None
  | (k', v) :: d' => if decide (k = k') then Some v else dict_get k d'
  end.

(** [d[k] = v]: an existing key keeps its position, a new key goes last. *)
Fixpoint dict_set {V : Type} (k : string) (v : V) (d : list (string * V))
  : list (string * V) :=
  match d with
  | [] => [(k, v)]
  | (k', v') :: d' =>
      if decide (k = k') then (k, v) :: d' else (k', v') :: dict_set k v d'
  end.

(** [dict(pairs)] *)
Definition dict_of_items {V : Type} (items : list (string * V))
  : list (string * V) :=
  foldl (λ d kv, dict_set kv.1 kv.2 d) [] items.

(** [d[k]], raising [KeyError] *)
Definition getitem (d : dict) (k : string) : outcome val :=
  match dict_get k d with
  | Some v => Ok v
  | None => Raise (Exn "KeyError" ("'" +:+ k +:+ "'"))
  end.

(** [d.get(k, default)] *)
Definition get_default (d : dict) (k : string) (default : val) : val :=
  match dict_get k d with
  | Some v => v
  | None => default
  end.

(** [a < b] on the values a threshold can be compared with a float. *)
Definition less_than (a b : atom) : outcome bool :=
  match a, b with
  | AFloat x, AFloat y => Ok (Qc_ltb x y)
  | AFloat x, AInt n => Ok (Qc_ltb x (Qc_of_Z n))
  | AInt m, AFloat y => Ok (Qc_ltb (Qc_of_Z m) y)
  | AInt m, AInt n => Ok (bool_decide (m < n)%Z)
  | _, _ =>
      Raise (Exn "TypeError"
               ("'<' not supported between instances of '" +:+ type_name a
                +:+ "' and '" +:+ type_name b +:+ "'"))
  end.

(** [x * 100] for a number [x]. *)
Definition mul100 (v : atom) : outcome atom :=
  match v with
  | AFloat x => Ok (AFloat (x * Qc_of_Z 100)%Qc)
  | AInt n => Ok (AInt (n * 100)%Z)
  | _ =>
      Raise (Exn "TypeError"
               ("unsupported operand type(s) for *: '" +:+ type_name v
                +:+ "' and 'int'"))
  end.

(** [sorted(items, key=lambda x: x[1], reverse=True)]: Python's sort is
    stable, also with [reverse=True], so an item is inserted in front of
    the first item whose value is not greater. *)
Fixpoint insert_desc {K : Type} (x : K * Qc) (l : list (K * Qc))
  : list (K * Qc) :=
  match l with
  | [] => [x]
  | y :: l' => if Qc_ltb x.2 y.2 then y :: insert_desc x l' else x :: y :: l'
  end.

Definition sorted_by_value_desc {K : Type} (items : list (K * Qc))
  : list (K * Qc) :=
  foldr insert_desc [] items.

(** *** Strings *)

(** [s.lower()], on the ASCII letters. *)
Definition lower_ascii (c : Ascii.ascii) : Ascii.ascii :=
  let n := Ascii.nat_of_ascii c in
  if (65 <=? n)%nat && (n <=? 90)%nat then Ascii.ascii_of_nat (n + 32) else c.

Fixpoint lower (s : string) : string :=
  match s with
  | EmptyString => EmptyString
  | String c s' => String (lower_ascii c) (lower s')
  end.

(** [needle in hay] *)
Fixpoint contains (needle hay : string) : bool :=
  if String.prefix needle hay then true
  else match hay with
       | EmptyString => false
       | String _ hay' => contains needle hay'
       end.

(** [sep.join(parts)] *)
Fixpoint join (sep : string) (parts : list string) : string :=
  match parts with
  | [] => ""
  | [x] => x
  | x :: rest => x +:+ sep +:+ join sep rest
  end.

(** The characters of a [str], each as a [str] of length one. *)
Fixpoint chars (s : string) : list string :=
  match s with
  | EmptyString => []
  | String c s' => String c EmptyString :: chars s'
  end.

(** *** State, and the monad of methods *)

Inductive level := INFO | WARNING | ERROR.

Record state (I : Type) := State {
  log : list (level * string);  (* records written through [logger] *)
  rng : nat;                    (* draws taken from the random stream *)
  fed : list I                  (* arguments of [model.predict], oldest first *)
}.
Global Arguments State {I} log rng fed.
Global Arguments log {I} s.
Global Arguments rng {I} s.
Global Arguments fed {I} s.

Definition M (I A : Type) : Type := state I → outcome A * state I.

Section monad.
Context {I : Type}.

Definition ret {A} (a : A) : M I A := λ s, (Ok a, s).

Definition bind {A B} (m : M I A) (k : A → M I B) : M I B :=
  λ s, match m s with
       | (Ok a, s') => k a s'
       | (Raise e, s') => (Raise e, s')
       end.

Definition raise {A} (e : exn) : M I A := λ s, (Raise e, s).

Definition lift {A} (o : outcome A) : M I A := λ s, (o, s).

(** [try: body  except Exception as e: handler(e)] *)
Definition try_except {A} (body : M I A) (handler : exn → M I A) : M I A :=
  λ s, match body s with
       | (Ok a, s') => (Ok a, s')
       | (Raise e, s') => handler e s'
       end.

Definition logger (lv : level) (msg : string) : M I unit :=
  λ s, (Ok (), State (log s ++ [(lv, msg)]) (rng s) (fed s)).

(** The next position of the random stream. *)
Definition next_draw : M I nat :=
  λ s, (Ok (rng s), State (log s) (S (rng s)) (fed s)).

Definition record_call (x : I) : M I unit :=
  λ s, (Ok (), State (log s) (rng s) (fed s ++ [x])).
End monad.

End Py.

Import Py.

(** The methods are written with stdpp's [x ← m; k] and [m;; k]. *)
#[global] Instance M_ret {I} : MRet (M I) := λ A, ret.
#[global] Instance M_bind {I} : MBind (M I) := λ A B k m, bind m k.

(** ** NumPy on probability vectors *)

Module Np.

(** [np.argmax(xs)]: the first position of the maximum. *)
Fixpoint argmax_from (i best : nat) (bestv : Qc) (xs : list Qc) : nat :=
  match xs with
  | [] => best
  | x :: xs' =>
      if Qc_ltb bestv x then argmax_from (S i) i x xs'
      else argmax_from (S i) best bestv xs'
  end.

Definition argmax (xs : list Qc) : outcome nat :=
  match xs with
  | [] => Raise (Exn "ValueError" "attempt to get argmax of an empty sequence")
  | x :: xs' => Ok (argmax_from 1 0 x xs')
  end.

(** [np.argsort(xs)]: the positions in ascending order of value. NumPy
    leaves the order of equal values to the sort in use; the sort is taken
    stable here (equal values keep ascending positions), which is what the
    insertion sort of NumPy's default does on vectors of at most 16 values.
    What is proved about ties is relative to this. *)
Fixpoint insert_asc (x : nat * Qc) (l : list (nat * Qc)) : list (nat * Qc) :=
  match l with
  | [] => [x]
  | y :: l' => if Qc_ltb y.2 x.2 then y :: insert_asc x l' else x :: y :: l'
  end.

(** The values with their positions, counted from [i]. *)
Fixpoint enumerate_from (i : nat) (xs : list Qc) : list (nat * Qc) :=
  match xs with
  | [] => []
  | x :: xs' => (i, x) :: enumerate_from (S i) xs'
  end.

Definition argsort (xs : list Qc) : list nat :=
  (foldr insert_asc [] (enumerate_from 0 xs)).*1.

(** [a[-3:]] and [a[::-1]] *)
Definition last3 {A} (l : list A) : list A := drop (length l - 3) l.
Definition reversed {A} (l : list A) : list A := reverse l.

(** [xs[i]], raising [IndexError] *)
Definition index {A} (xs : list A) (i : nat) : outcome A :=
  match xs !! i with
  | Some x => Ok x
  | None => Raise (Exn "IndexError" "index out of range")
  end.

Definition column (j : nat) (rows : list (list Qc)) : list Qc :=
  omap (λ r, r !! j) rows.

(** [np.mean(rows, axis=0)]: rows of one length give the mean of every
    column; rows of different lengths do not make an array. An empty list
    of rows is not reached, [predictions_list] always holds [base_pred]. *)
Definition mean_axis0 (rows : list (list Qc)) : outcome (list Qc) :=
  match rows with
  | [] => Raise (Exn "ValueError" "mean of no rows")
  | r :: _ =>
      if forallb (λ r', bool_decide (length r' = length r)) rows
      then Ok (map (λ j, (Qc_sum (column j rows) / Qc_of_Z (Z.of_nat (length rows)))%Qc)
                   (seq 0 (length r)))
      else Raise (Exn "ValueError" "inhomogeneous shape")
  end.

End Np.

(** ** Images and the TensorFlow image operations *)

Definition pixel : Type := Qc * Qc * Qc.
Definition image : Type := list (list pixel).   (* height x width x 3 *)
Definition batch : Type := list image.          (* n x height x width x 3 *)

Definition pixel_map (f : Qc → Qc) (p : pixel) : pixel :=
  let '(r, g, b) := p in (f r, f g, f b).

Definition image_map (f : Qc → Qc) (img : image) : image :=
  map (map (pixel_map f)) img.

Module Tf.

(** [tf.expand_dims(img, 0)] and [tf.squeeze(t, 0)] *)
Definition expand_dims0 (img : image) : batch := [img].

Definition squeeze0 (t : batch) : outcome image :=
  match t with
  | [img] => Ok img
  | _ => Raise (Exn "InvalidArgumentError"
                  "Can not squeeze dim[0], expected a dimension of 1")
  end.

(** [tf.transpose(img, [1, 0, 2])] *)
Fixpoint transpose (img : image) : image :=
  match img with
  | [] => []
  | row :: rest =>
      match rest with
      | [] => map (λ p, [p]) row
      | _ => zip_with cons row (transpose rest)
      end
  end.

(** [tf.image.flip_left_right] reverses the width axis,
    [tf.image.flip_up_down] the height axis. *)
Definition flip_left_right (img : image) : image := map reverse img.
Definition flip_up_down (img : image) : image := reverse img.

(** [tf.image.rot90(img, k)]: [k mod 4] counter-clockwise quarter turns. *)
Definition rot90 (img : image) (k : Z) : image :=
  match (k `mod` 4)%Z with
  | 1%Z => transpose (flip_left_right img)
  | 2%Z => flip_up_down (flip_left_right img)
  | 3%Z => flip_left_right (transpose img)
  | _ => img
  end.

(** [tf.image.adjust_brightness(img, delta)] adds [delta] to every value
    of a float image. *)
Definition adjust_brightness (img : image) (delta : Qc) : image :=
  image_map (λ x, (x + delta)%Qc) img.

(** [tf.clip_by_value(img, lo, hi)] *)
Definition clip (lo hi x : Qc) : Qc := Qc_min (Qc_max x lo) hi.
Definition clip_by_value (img : image) (lo hi : Qc) : image :=
  image_map (clip lo hi) img.

End Tf.

(** ** What the repository takes from outside *)

(** A loaded Keras model: [run x] is [model.predict(x, verbose=0)]. *)
Record Model := {
  name : string;
  input_shape : string;
  output_shape : string;
  run : batch → outcome (list (list Qc))
}.

(** A PIL image. *)
Record pil_image := { mode : string; data : image }.

(** A parsed label file, as deep as [_load_classes] looks into it. *)
Inductive jitem := JItemStr (s : string) | JItemOther (type : string).
Inductive json :=
| JNull
| JBool (b : bool)
| JNumber (x : Qc)
| JString (s : string)
| JArray (items : list jitem)
| JObject (keys : list string).

Record Runtime := {
  (* os, open, json *)
  os_path_exists : string → bool;
  open_read : string → outcome string;
  json_load : string → outcome json;
  (* keras *)
  keras_load_model : string → outcome Model;
  import_preprocess_input : string → outcome (image → image);
  (* tf.io, tf.image *)
  tf_io_read_file : string → outcome string;
  tf_io_decode_jpeg : string → outcome image;
  tf_image_resize : image → Z * Z → outcome image;
  tf_image_adjust_contrast : image → Qc → image;
  tf_image_adjust_saturation : image → Qc → image;
  (* the global random stream: a unit draw in [0,1) and 32 raw bits *)
  tf_random_unit : nat → Qc;
  tf_random_bits : nat → Z;
  (* PIL *)
  Image_open : string → outcome pil_image;
  Image_convert : pil_image → string → outcome pil_image;
  Image_resize : pil_image → Z * Z → outcome pil_image;
  (* format specifications [:.Nf] and [:.N%] *)
  format_f : nat → Qc → string;
  format_percent : nat → Qc → string
}.

(** ** config/config.py *)

Module Config.
Definition DEFAULT_CLASSES : list string :=
  ["Healthy"; "Mosaic"; "RedRot"; "Rust"; "Yellow"].
End Config.

(** ** utils/model_manager.py *)

Module ModelManager.

(** [self.classes]: what [json.load] gave when [', '.join] accepted it (a
    list of strings, or a JSON object, of which only the keys matter), or
    the default list. *)
Inductive labels :=
| LabelList (l : list string)
| LabelDict (keys : list string).

(** [len(self.classes)] and [self.classes[i]] *)
Definition labels_len (c : labels) : nat :=
  match c with
  | LabelList l => length l
  | LabelDict keys => length keys
  end.

Definition labels_getitem (c : labels) (i : nat) : outcome string :=
  match c with
  | LabelList l =>
      match l !! i with
      | Some x => Ok x
      | None => Raise (Exn "IndexError" "list index out of range")
      end
  | LabelDict _ => Raise (Exn "KeyError" (pretty i))
  end.

Record manager := Manager {
  model_path : string;
  classes_path : string;
  img_size : Z * Z;
  model_type : string;
  model : option Model;
  classes : labels;
  preprocess_fn : option (image → image)
}.

Definition set_model (self : manager) (m : Model) : manager :=
  Manager (model_path self) (classes_path self) (img_size self)
          (model_type self) (Some m) (classes self) (preprocess_fn self).
Definition set_classes (self : manager) (c : labels) : manager :=
  Manager (model_path self) (classes_path self) (img_size self)
          (model_type self) (model self) c (preprocess_fn self).
Definition set_preprocess_fn (self : manager) (f : image → image) : manager :=
  Manager (model_path self) (classes_path self) (img_size self)
          (model_type self) (model self) (classes self) (Some f).

(** The methods run in the monad whose trace records batches. *)
Abbreviation Me := (M batch).

(** [lambda x: (x / 127.5) - 1.0] *)
Definition generic_rescale (x : Qc) : Qc := (x / mkQc 255 2 - 1)%Qc.

(** The items of a loaded JSON array as strings; the first item that is
    not a string makes [join] raise. *)
Fixpoint str_items (i : nat) (items : list jitem) : outcome (list string) :=
  match items with
  | [] => Ok []
  | JItemStr s :: rest =>
      match str_items (S i) rest with
      | Ok l => Ok (s :: l)
      | Raise e => Raise e
      end
  | JItemOther ty :: _ =>
      Raise (Exn "TypeError"
               ("sequence item " +:+ pretty i
                +:+ ": expected str instance, " +:+ ty +:+ " found"))
  end.

(** The value [x] that [json.load] returned, as the collection of labels
    it is when [', '.join(x)] accepts it: a list of strings; a [str],
    which is indexed and measured character by character; a [dict], of
    which iteration and [len] see the keys. Anything else makes [join]
    raise. *)
Definition joinable (x : json) : outcome labels :=
  match x with
  | JArray items =>
      match str_items 0 items with
      | Ok l => Ok (LabelList l)
      | Raise e => Raise e
      end
  | JString s => Ok (LabelList (chars s))
  | JObject keys => Ok (LabelDict keys)
  | _ => Raise (Exn "TypeError" "can only join an iterable")
  end.

Definition labels_iter (c : labels) : list string :=
  match c with
  | LabelList l => l
  | LabelDict keys => keys
  end.

Section methods.
Context (rt : Runtime).

(** *** Initialisation *)

Definition _set_preprocess_function (self : manager) : Me manager :=
  if contains "resnet" (lower (model_type self)) then
    preprocess_input ←
      lift (import_preprocess_input rt "tensorflow.keras.applications.resnet50");
    let self := set_preprocess_fn self preprocess_input in
    logger INFO "✅ Usando preprocesamiento de ResNet50";;
    mret self
  else if contains "efficientnet" (lower (model_type self)) then
    preprocess_input ←
      lift (import_preprocess_input rt "tensorflow.keras.applications.efficientnet");
    let self := set_preprocess_fn self preprocess_input in
    logger INFO "✅ Usando preprocesamiento de EfficientNet";;
    mret self
  else if contains "mobilenet" (lower (model_type self)) then
    preprocess_input ←
      lift (import_preprocess_input rt "tensorflow.keras.applications.mobilenet_v2");
    let self := set_preprocess_fn self preprocess_input in
    logger INFO "✅ Usando preprocesamiento de MobileNetV2";;
    mret self
  else
    let self := set_preprocess_fn self (image_map generic_rescale) in
    logger WARNING
      "⚠️ Tipo de modelo desconocido, usando preprocesamiento genérico";;
    mret self.

Definition _load_model (self : manager) : Me manager :=
  try_except
    ((if negb (os_path_exists rt (model_path self))
      then raise (Exn "FileNotFoundError"
                    ("Modelo no encontrado en: " +:+ model_path self))
      else mret ());;
     logger INFO ("📦 Cargando modelo desde: " +:+ model_path self);;
     m ← lift (keras_load_model rt (model_path self));
     let self := set_model self m in
     logger INFO ("✅ Modelo cargado: " +:+ name m);;
     logger INFO ("📊 Input shape: " +:+ input_shape m);;
     logger INFO ("📊 Output shape: " +:+ output_shape m);;
     mret self)
    (λ e,
       logger ERROR ("❌ Error al cargar el modelo: " +:+ str_exn e);;
       raise e).

Definition _load_classes (self : manager) : Me manager :=
  try_except
    (if os_path_exists rt (classes_path self) then
       logger INFO ("📋 Cargando clases desde: " +:+ classes_path self);;
       f ← lift (open_read rt (classes_path self));
       loaded ← lift (json_load rt f);
       c ← lift (joinable loaded);
       let self := set_classes self c in
       logger INFO ("✅ Clases cargadas: " +:+ join ", " (labels_iter c));;
       mret self
     else
       logger WARNING
         ("⚠️ Archivo de clases no encontrado: " +:+ classes_path self);;
       logger WARNING "⚠️ Usando clases por defecto";;
       mret (set_classes self
               (LabelList ["Healthy"; "Mosaic"; "RedRot"; "Rust"; "Yellow"])))
    (λ e,
       logger ERROR ("❌ Error al cargar clases: " +:+ str_exn e);;
       mret (set_classes self
               (LabelList ["Healthy"; "Mosaic"; "RedRot"; "Rust"; "Yellow"]))).

Definition __init__ (model_path classes_path : string) (img_size : Z * Z)
    (model_type : string) : Me manager :=
  let self := Manager model_path classes_path img_size model_type
                      None (LabelList []) None in
  self ← _set_preprocess_function self;
  self ← _load_model self;
  _load_classes self.

(** *** Calls into the loaded objects *)

(** [self.preprocess_fn(img)] *)
Definition call_preprocess_fn (self : manager) (img : image) : Me image :=
  match preprocess_fn self with
  | Some f => mret (f img)
  | None => raise (Exn "AttributeError"
                     "'ModelManager' object has no attribute 'preprocess_fn'")
  end.

(** [self.model.predict(x, verbose=0)] *)
Definition model_predict (self : manager) (x : batch) : Me (list (list Qc)) :=
  match model self with
  | Some m => record_call x;; lift (run m x)
  | None => raise (Exn "AttributeError"
                     "'NoneType' object has no attribute 'predict'")
  end.

(** [tf.random.uniform([], minval, maxval)]: the unit draw scaled, and
    for [dtype=tf.int32] the raw bits reduced modulo the range. *)
Definition random_uniform (minval maxval : Qc) : Me Qc :=
  i ← next_draw;
  mret (tf_random_unit rt i * (maxval - minval) + minval)%Qc.

Definition random_uniform_int (minval maxval : Z) : Me Z :=
  i ← next_draw;
  mret (minval + tf_random_bits rt i `mod` (maxval - minval))%Z.

(** The dictionary comprehension
    [{self.classes[i]: float(predictions[i]) for i in range(len(self.classes))}] *)
Fixpoint label_items (c : labels) (predictions : list Qc) (idx : list nat)
  : outcome (list (string * Qc)) :=
  match idx with
  | [] => Ok []
  | i :: idx' =>
      match labels_getitem c i with
      | Raise e => Raise e
      | Ok k =>
          match Np.index predictions i with
          | Raise e => Raise e
          | Ok v =>
              match label_items c predictions idx' with
              | Raise e => Raise e
              | Ok items => Ok ((k, v) :: items)
              end
          end
      end
  end.

Definition label_probabilities (c : labels) (predictions : list Qc)
  : outcome (list (string * Qc)) :=
  match label_items c predictions (seq 0 (labels_len c)) with
  | Ok items => Ok (dict_of_items items)
  | Raise e => Raise e
  end.

(** [dict(sorted(probabilities.items(), key=lambda x: x[1], reverse=True))] *)
Definition sort_probabilities (probabilities : list (string * Qc))
  : list (string * Qc) :=
  dict_of_items (sorted_by_value_desc probabilities).

Definition float_dict (d : list (string * Qc)) : val :=
  VDict (prod_map id AFloat <$> d).

(** *** Image preprocessing *)

Definition preprocess_image (self : manager) (image_path : string) : Me batch :=
  try_except
    (img ← lift (Image_open rt image_path);
     img ← (if bool_decide (mode img ≠ "RGB")
            then lift (Image_convert rt img "RGB")
            else mret img);
     img ← lift (Image_resize rt img (img_size self));
     let img_array := image_map (λ x, x / Qc_of_Z 255)%Qc (data img) in
     let img_array := Tf.expand_dims0 img_array in
     mret img_array)
    (λ e,
       logger ERROR ("❌ Error al preprocesar imagen: " +:+ str_exn e);;
       raise e).

Definition load_and_preprocess_image_tf (self : manager) (image_path : string)
  : Me (option batch) :=
  try_except
    (img ← lift (tf_io_read_file rt image_path);
     img ← lift (tf_io_decode_jpeg rt img);
     img ← lift (tf_image_resize rt img (img_size self));
     img ← call_preprocess_fn self img;
     mret (Some (Tf.expand_dims0 img)))
    (λ e,
       logger ERROR ("❌ Error cargando imagen con TF: " +:+ str_exn e);;
       mret None).

(** *** Basic prediction *)

Definition predict (self : manager) (image_path : string) : Me dict :=
  try_except
    (img_array ← preprocess_image self image_path;
     predictions ← model_predict self img_array;
     predictions0 ← lift (Np.index predictions 0);
     predicted_class_idx ← lift (Np.argmax predictions0);
     predicted_class ← lift (labels_getitem (classes self) predicted_class_idx);
     confidence ← lift (Np.index predictions0 predicted_class_idx);
     probabilities ← lift (label_probabilities (classes self) predictions0);
     let probabilities := sort_probabilities probabilities in
     logger INFO ("🎯 Predicción: " +:+ predicted_class +:+ " ("
                  +:+ format_percent rt 2 confidence +:+ ")");;
     mret [("class", VAtom (AStr predicted_class));
           ("confidence", VAtom (AFloat confidence));
           ("probabilities", float_dict probabilities)])
    (λ e,
       logger ERROR ("❌ Error en predicción: " +:+ str_exn e);;
       raise e).

(** *** Advanced prediction *)

(** One entry of the top-3 list. *)
Definition top_entry (c : labels) (predictions : list Qc) (idx : nat)
  : outcome (list (string * atom)) :=
  match labels_getitem c idx with
  | Raise e => Raise e
  | Ok label =>
      match Np.index predictions idx with
      | Raise e => Raise e
      | Ok p => Ok [("class", AStr label);
                    ("confidence", AFloat (p * Qc_of_Z 100)%Qc);
                    ("probability", AFloat p)]
      end
  end.

Fixpoint top_entries (c : labels) (predictions : list Qc) (idxs : list nat)
  : outcome (list (list (string * atom))) :=
  match idxs with
  | [] => Ok []
  | idx :: idxs' =>
      match top_entry c predictions idx with
      | Raise e => Raise e
      | Ok entry =>
          match top_entries c predictions idxs' with
          | Raise e => Raise e
          | Ok entries => Ok (entry :: entries)
          end
      end
  end.

Definition get_top_3_predictions (self : manager) (image_path : string)
  : Me (option (list (list (string * atom)))) :=
  try_except
    (img ← load_and_preprocess_image_tf self image_path;
     match img with
     | None => mret None
     | Some img =>
         predictions ← model_predict self img;
         predictions ← lift (Np.index predictions 0);
         let top_3_idx := Np.reversed (Np.last3 (Np.argsort predictions)) in
         entries ← lift (top_entries (classes self) predictions top_3_idx);
         mret (Some entries)
     end)
    (λ e,
       logger ERROR ("❌ Error top-3: " +:+ str_exn e);;
       mret None).

(** From a probability vector to the result dictionary: argmax, the
    winning value, the probabilities mapping, its sorting, the dictionary.
    [predict_single_direct] has these statements for [predictions] (lines
    286-303) and [predict_with_tta] has the same statements for [avg_pred]
    (lines 356-372, where [num_augmentations] is added to the dictionary). *)
Definition prediction_result (self : manager) (predictions : list Qc)
  : outcome dict :=
  match Np.argmax predictions with
  | Raise e => Raise e
  | Ok class_idx =>
      match Np.index predictions class_idx with
      | Raise e => Raise e
      | Ok confidence =>
          match label_probabilities (classes self) predictions with
          | Raise e => Raise e
          | Ok probabilities =>
              let probabilities := sort_probabilities probabilities in
              match labels_getitem (classes self) class_idx with
              | Raise e => Raise e
              | Ok label =>
                  Ok [("class", VAtom (AStr label));
                      ("confidence", VAtom (AFloat (confidence * Qc_of_Z 100)%Qc));
                      ("probability", VAtom (AFloat confidence));
                      ("probabilities", float_dict probabilities)]
              end
          end
      end
  end.

Definition predict_single_direct (self : manager) (image_path : string)
  : Me (option dict) :=
  try_except
    (logger INFO "📸 Predicción directa sin augmentación...";;
     img ← load_and_preprocess_image_tf self image_path;
     match img with
     | None => mret None
     | Some img =>
         predictions ← model_predict self img;
         predictions ← lift (Np.index predictions 0);
         result ← lift (prediction_result self predictions);
         mret (Some result)
     end)
    (λ e,
       logger ERROR ("❌ Error en predicción directa: " +:+ str_exn e);;
       mret None).

(** The body of the augmentation loop up to the batch it feeds to the
    model: one random variant of [img_original]. *)
Definition augmented_batch (img_original : batch) : Me batch :=
  img ← lift (Tf.squeeze0 img_original);
  rotation ← random_uniform_int 0 4;
  let img := Tf.rot90 img rotation in
  u ← random_uniform (Q2Qc 0) (Q2Qc 1);
  let img := if Qc_ltb (mkQc 4 10) u then Tf.flip_left_right img else img in
  u ← random_uniform (Q2Qc 0) (Q2Qc 1);
  let img := if Qc_ltb (mkQc 7 10) u then Tf.flip_up_down img else img in
  delta ← random_uniform (mkQc (-2) 10) (mkQc 2 10);
  let img := Tf.adjust_brightness img delta in
  contrast_factor ← random_uniform (mkQc 7 10) (mkQc 14 10);
  let img := tf_image_adjust_contrast rt img contrast_factor in
  saturation_factor ← random_uniform (mkQc 5 10) (mkQc 18 10);
  let img := tf_image_adjust_saturation rt img saturation_factor in
  let img := Tf.clip_by_value img (Q2Qc 0) (Qc_of_Z 255) in
  let img_batch := Tf.expand_dims0 img in
  mret img_batch.

(** [for i in range(n)]: augment, predict, append. *)
Fixpoint augmentation_loop (self : manager) (img_original : batch) (n : nat)
    (predictions_list : list (list Qc)) : Me (list (list Qc)) :=
  match n with
  | O => mret predictions_list
  | S n' =>
      img_batch ← augmented_batch img_original;
      pred ← model_predict self img_batch;
      pred ← lift (Np.index pred 0);
      augmentation_loop self img_original n' (predictions_list ++ [pred])
  end.

Definition predict_with_tta (self : manager) (image_path : string)
    (num_augmentations : Z) : Me (option dict) :=
  try_except
    (logger INFO ("🔄 Ejecutando TTA con " +:+ pretty num_augmentations
                  +:+ " augmentaciones...");;
     img_original ← load_and_preprocess_image_tf self image_path;
     match img_original with
     | None => mret None
     | Some img_original =>
         let predictions_list := [] in
         base_pred ← model_predict self img_original;
         base_pred ← lift (Np.index base_pred 0);
         let predictions_list := predictions_list ++ [base_pred] in
         predictions_list ←
           augmentation_loop self img_original (Z.to_nat num_augmentations)
                             predictions_list;
         avg_pred ← lift (Np.mean_axis0 predictions_list);
         result ← lift (prediction_result self avg_pred);
         mret (Some (result ++
                     [("num_augmentations", VAtom (AInt num_augmentations))]))
     end)
    (λ e,
       logger ERROR ("❌ Error en TTA: " +:+ str_exn e);;
       mret None).

(** *** Improved prediction: optional TTA, threshold, top-3 *)

(** [f"{v:.Nf}"] *)
Definition format_atom_f (digits : nat) (a : atom) : outcome string :=
  match a with
  | AFloat x => Ok (format_f rt digits x)
  | AInt n => Ok (format_f rt digits (Qc_of_Z n))
  | ANone =>
      Raise (Exn "TypeError"
               "unsupported format string passed to NoneType.__format__")
  | AStr _ => Raise (Exn "ValueError" "Unknown format code 'f' for object of type 'str'")
  end.

Definition format_val_f (digits : nat) (v : val) : outcome string :=
  match v with
  | VAtom a => format_atom_f digits a
  | VDict _ =>
      Raise (Exn "TypeError" "unsupported format string passed to dict.__format__")
  | VList _ =>
      Raise (Exn "TypeError" "unsupported format string passed to list.__format__")
  end.

(** [f"{v}"] for a label *)
Definition format_val_str (v : val) : string :=
  match v with
  | VAtom (AStr s) => s
  | _ => ""
  end.

(** [v < threshold] *)
Definition val_lt (v : val) (threshold : atom) : outcome bool :=
  match v with
  | VAtom a => less_than a threshold
  | VDict _ =>
      Raise (Exn "TypeError"
               ("'<' not supported between instances of 'dict' and '"
                +:+ type_name threshold +:+ "'"))
  | VList _ =>
      Raise (Exn "TypeError"
               ("'<' not supported between instances of 'list' and '"
                +:+ type_name threshold +:+ "'"))
  end.

(** The value of [top_3] in a result: the list, or [None]. *)
Definition top_3_val (top_3 : option (list (list (string * atom)))) : val :=
  match top_3 with
  | Some entries => VList entries
  | None => VAtom ANone
  end.

(** The defaults of the source are [use_tta=True], [threshold=0.70] and
    [num_augmentations=5]; the callers pass all three. *)
Definition improved_predict (self : manager) (image_path : string)
    (use_tta : bool) (threshold : atom) (num_augmentations : Z) : Me dict :=
  try_except
    (let method :=
       if use_tta
       then "TTA (" +:+ pretty num_augmentations +:+ " augmentaciones)"
       else "Predicción directa (sin TTA)" in
     result ← (if use_tta
               then predict_with_tta self image_path num_augmentations
               else predict_single_direct self image_path);
     match result with
     | None =>
         mret [("status", VAtom (AStr "error"));
               ("message", VAtom (AStr "Error en la predicción"));
               ("confidence", VAtom (AInt 0));
               ("probability", VAtom (AInt 0))]
     | Some result =>
         probability ← lift (getitem result "probability");
         top_3 ← get_top_3_predictions self image_path;
         low ← lift (val_lt probability threshold);
         if low : bool then
           class ← lift (getitem result "class");
           confidence ← lift (getitem result "confidence");
           let probabilities := get_default result "probabilities" (VDict []) in
           shown ← lift (format_val_f 1 confidence);
           required ← lift (mul100 threshold);
           required ← lift (format_atom_f 0 required);
           mret [("status", VAtom (AStr "warning"));
                 ("class", class);
                 ("confidence", confidence);
                 ("probability", probability);
                 ("probabilities", probabilities);
                 ("method", VAtom (AStr method));
                 ("message",
                  VAtom (AStr ("⚠️ Confianza baja (" +:+ shown +:+ "%). "
                               +:+ "Se requiere mínimo " +:+ required +:+ "%.")));
                 ("top_3", top_3_val top_3)]
         else
           class ← lift (getitem result "class");
           confidence ← lift (getitem result "confidence");
           let probabilities := get_default result "probabilities" (VDict []) in
           shown ← lift (format_val_f 1 confidence);
           mret [("status", VAtom (AStr "success"));
                 ("class", class);
                 ("confidence", confidence);
                 ("probability", probability);
                 ("probabilities", probabilities);
                 ("method", VAtom (AStr method));
                 ("message",
                  VAtom (AStr ("✅ Detectado: " +:+ format_val_str class +:+ " ("
                               +:+ shown +:+ "%)")));
                 ("top_3", top_3_val top_3)]
     end)
    (λ e,
       logger ERROR ("❌ Error en predicción mejorada: " +:+ str_exn e);;
       mret [("status", VAtom (AStr "error"));
             ("message",
              VAtom (AStr ("Error al procesar la imagen: " +:+ str_exn e)));
             ("confidence", VAtom (AInt 0));
             ("probability", VAtom (AInt 0))]).
(** *** Batch prediction and the getters *)

(** [for image_path in image_paths]: predict, tag the result with its
    path, append it; a failure is logged and recorded in place of the
    result. *)
Fixpoint predict_batch_loop (self : manager) (image_paths : list string)
    (results : list dict) : Me (list dict) :=
  match image_paths with
  | [] => mret results
  | image_path :: image_paths' =>
      results ←
        try_except
          (r ← predict self image_path;
           let r := dict_set "image_path" (VAtom (AStr image_path)) r in
           mret (results ++ [r]))
          (λ e,
             logger ERROR ("❌ Error en " +:+ image_path +:+ ": " +:+ str_exn e);;
             mret (results ++ [[("image_path", VAtom (AStr image_path));
                                ("error", VAtom (AStr (str_exn e)))]]));
      predict_batch_loop self image_paths' results
  end.

Definition predict_batch (self : manager) (image_paths : list string)
  : Me (list dict) :=
  predict_batch_loop self image_paths [].

Definition get_classes (self : manager) : labels := classes self.

(** The dictionary of [get_model_info], one field per key. *)
Record model_info := ModelInfo {
  info_name : option string;
  info_input_shape : option string;
  info_output_shape : option string;
  info_classes : labels;
  info_num_classes : nat
}.

Definition get_model_info (self : manager) : model_info :=
  {| info_name := name <$> model self;
     info_input_shape := input_shape <$> model self;
     info_output_shape := output_shape <$> model self;
     info_classes := classes self;
     info_num_classes := labels_len (classes self) |}.
End methods.
End ModelManager.

(** ** app.py

    The Flask application: the table of models, the cache of loaded
    managers, the extension check and the prediction endpoint.

    [loaded_models] is a module-level dictionary, changed in place and
    alive across requests and across exceptions: it is a component of the
    state of the handlers, next to the state of the methods they call. *)

Module App.
Import ModelManager.

(** An uploaded file (Werkzeug's [FileStorage]): its name, and what
    [file.save(path)] does. *)
Record FileStorage := {
  filename : string;
  save : string → outcome unit
}.

(** A request: [request.files] and [request.form], each of which raises
    when the body cannot be parsed. *)
Record Request := {
  files : outcome (list (string * FileStorage));
  form : outcome (list (string * string))
}.

(** What [app.py] takes from outside besides the runtime of the manager:
    whether [from utils.model_manager import ModelManager] worked,
    Werkzeug's [secure_filename], and the clock read through
    [datetime.now().strftime(fmt)]. *)
Record Web := {
  MODEL_AVAILABLE : bool;
  secure_filename : string → string;
  now_strftime : string → string
}.

(** A value of a JSON response: a boolean, a value of a result
    dictionary, or a dictionary of such values. *)
Inductive rval :=
| RBool (b : bool)
| RVal (v : val)
| RObj (d : dict).

(** [jsonify(body), status]; the status is 200 when none is given. *)
Definition response : Type := list (string * rval) * nat.

Definition rstr (s : string) : rval := RVal (VAtom (AStr s)).

(** [ALLOWED_EXTENSIONS] of [app.py] (the set of [config.py] is not the
    one the application checks). *)
Definition ALLOWED_EXTENSIONS : list string :=
  ["png"; "jpg"; "jpeg"; "gif"; "bmp"; "webp"].

(** An entry of [MODELS_CONFIG]: the keys ["path"], ["classes"], ["size"]
    and ["description"]. *)
Record model_config := ModelConfig {
  cfg_path : string;
  cfg_classes : string;
  cfg_size : Z * Z;
  cfg_description : string
}.

Definition MODELS_CONFIG : list (string * model_config) :=
  [("ResNet50",
    ModelConfig "models/ResNet50/ResNet50_latest.keras"
                "models/ResNet50/classes_latest.json"
                (224, 224)%Z "Equilibrado y confiable");
   ("EfficientNetB0",
    ModelConfig "models/EfficientNetB0/EfficientNetB0_latest.keras"
                "models/EfficientNetB0/classes_latest.json"
                (256, 256)%Z "Eficiente y preciso");
   ("MobileNetV2",
    ModelConfig "models/MobileNetV2/MobileNetV2_latest.keras"
                "models/MobileNetV2/classes_classes.json"
                (256, 256)%Z "Rápido y ligero")].

(** *** The state and the monad of the handlers *)

Record app_state := AppState {
  loaded_models : list (string * manager);
  world : state batch
}.

Definition Mapp (X : Type) : Type := app_state → outcome X * app_state.

Definition app_ret {X} (x : X) : Mapp X := λ a, (Ok x, a).

Definition app_bind {X Y} (m : Mapp X) (k : X → Mapp Y) : Mapp Y :=
  λ a, match m a with
       | (Ok x, a') => k x a'
       | (Raise e, a') => (Raise e, a')
       end.

#[global] Instance Mapp_ret : MRet Mapp := λ X, app_ret.
#[global] Instance Mapp_bind : MBind Mapp := λ X Y k m, app_bind m k.

(** [try: body  except Exception as e: handler(e)] *)
Definition app_try {X} (body : Mapp X) (handler : exn → Mapp X) : Mapp X :=
  λ a, match body a with
       | (Ok x, a') => (Ok x, a')
       | (Raise e, a') => handler e a'
       end.

(** A method of the manager, run from a handler. *)
Definition in_world {X} (m : Me X) : Mapp X :=
  λ a, match m (world a) with
       | (o, s) => (o, AppState (loaded_models a) s)
       end.

Definition of_outcome {X} (o : outcome X) : Mapp X := λ a, (o, a).

Definition app_logger (lv : level) (msg : string) : Mapp unit :=
  in_world (logger lv msg).

(** [loaded_models] read, and [loaded_models[k] = m]. *)
Definition get_loaded_models : Mapp (list (string * manager)) :=
  λ a, (Ok (loaded_models a), a).

Definition set_loaded_model (k : string) (m : manager) : Mapp unit :=
  λ a, (Ok (), AppState (dict_set k m (loaded_models a)) (world a)).

(** *** Strings and paths *)

(** [s.rsplit(sep, 1)] for a separator of one character: the text before
    and after the last separator, or the whole text when there is none. *)
Fixpoint rsplit1 (sep : string) (s : string) : option (string * string) :=
  match s with
  | EmptyString => None
  | String c s' =>
      match rsplit1 sep s' with
      | Some (a, b) => Some (String c a, b)
      | None =>
          if decide (String c EmptyString = sep) then Some (EmptyString, s')
          else None
      end
  end.

Definition rsplit (sep : string) (s : string) : list string :=
  match rsplit1 sep s with
  | Some (a, b) => [a; b]
  | None => [s]
  end.

(** [s.endswith("/")] *)
Fixpoint ends_with_slash (s : string) : bool :=
  match s with
  | EmptyString => false
  | String c EmptyString => bool_decide (String c EmptyString = "/")
  | String _ s' => ends_with_slash s'
  end.

(** [os.path.join(a, b)] of [posixpath]. *)
Definition os_path_join (a b : string) : string :=
  if String.prefix "/" b then b
  else if bool_decide (a = "") || ends_with_slash a then a +:+ b
  else a +:+ "/" +:+ b.

(** [str(b)] for a boolean *)
Definition str_bool (b : bool) : string := if b then "True" else "False".

(** [v in ['success', 'warning']] for the value of [result.get('status')] *)
Definition in_success_warning (v : option val) : bool :=
  match v with
  | Some (VAtom (AStr s)) =>
      bool_decide (s = "success") || bool_decide (s = "warning")
  | _ => false
  end.

(** [v / 100] *)
Definition div100 (v : val) : outcome val :=
  match v with
  | VAtom (AFloat x) => Ok (VAtom (AFloat (x / Qc_of_Z 100)%Qc))
  | VAtom (AInt n) => Ok (VAtom (AFloat (Qc_of_Z n / Qc_of_Z 100)%Qc))
  | VAtom a =>
      Raise (Exn "TypeError"
               ("unsupported operand type(s) for /: '" +:+ type_name a
                +:+ "' and 'int'"))
  | VDict _ =>
      Raise (Exn "TypeError" "unsupported operand type(s) for /: 'dict' and 'int'")
  | VList _ =>
      Raise (Exn "TypeError" "unsupported operand type(s) for /: 'list' and 'int'")
  end.

(** [bool(file)] for the value of [request.files.get(key)]: an upload is
    true when its file name is not empty. *)
Definition truthy (file : option FileStorage) : bool :=
  match file with
  | Some f => bool_decide (filename f ≠ "")
  | None => false
  end.

(** *** The extension check *)

Definition allowed_file (filename : string) : outcome bool :=
  if contains "." filename then
    match Np.index (rsplit "." filename) 1 with
    | Ok ext => Ok (bool_decide (lower ext ∈ ALLOWED_EXTENSIONS))
    | Raise e => Raise e
    end
  else Ok false.

Section handlers.
Context (rt : Runtime) (web : Web).

(** [ModelManager(...)]: a [NameError] when the import failed. *)
Definition new_ModelManager (model_path classes_path : string)
    (img_size : Z * Z) (model_type : string) : Mapp manager :=
  if MODEL_AVAILABLE web
  then in_world (__init__ rt model_path classes_path img_size model_type)
  else of_outcome (Raise (Exn "NameError" "name 'ModelManager' is not defined")).

(** *** The cache of managers *)

Definition get_model_manager (model_name : string) : Mapp (option manager) :=
  model_name ←
    match dict_get model_name MODELS_CONFIG with
    | None =>
        app_logger WARNING
          ("Modelo " +:+ model_name +:+ " no existe. Usando ResNet50 por defecto.");;
        mret "ResNet50"
    | Some _ => mret model_name
    end;
  loaded ← get_loaded_models;
  match dict_get model_name loaded with
  | Some cached =>
      app_logger INFO ("♻️ Usando modelo " +:+ model_name +:+ " desde caché");;
      mret (Some cached)
  | None =>
      app_try
        (config ←
           match dict_get model_name MODELS_CONFIG with
           | Some config => mret config
           | None => of_outcome (Raise (Exn "KeyError" ("'" +:+ model_name +:+ "'")))
           end;
         app_logger INFO ("📦 Cargando modelo " +:+ model_name +:+ "...");;
         model_manager ←
           new_ModelManager (cfg_path config) (cfg_classes config)
                            (cfg_size config) model_name;
         set_loaded_model model_name model_manager;;
         app_logger INFO ("✅ Modelo " +:+ model_name +:+ " cargado correctamente");;
         mret (Some model_manager))
        (λ e,
           app_logger ERROR
             ("❌ Error al cargar modelo " +:+ model_name +:+ ": " +:+ str_exn e);;
           mret None)
  end.

(** *** The endpoint [/api/predict] *)

Definition bad_request (message : string) : response :=
  ([("success", RBool false); ("error", rstr message)], 400).

Definition server_error (message : rval) : response :=
  ([("success", RBool false); ("error", message)], 500).

(** The first entry of [mock_predictions]. *)
Definition mock_prediction : dict :=
  [("class", VAtom (AStr "Healthy"));
   ("confidence", VAtom (AFloat (mkQc 855 10)));
   ("probability", VAtom (AFloat (mkQc 855 1000)))].

Definition predict (request : Request) : Mapp response :=
  app_try
    (uploads ← of_outcome (files request);
     let file := if truthy (dict_get "image" uploads)
                 then dict_get "image" uploads
                 else dict_get "file" uploads in
     match file with
     | None => mret (bad_request "No se envió una imagen válida")
     | Some file =>
         if negb (bool_decide (filename file ≠ ""))
            || bool_decide (filename file = "")
         then mret (bad_request "No se envió una imagen válida")
         else
           allowed ← of_outcome (allowed_file (filename file));
           if negb allowed then mret (bad_request "Formato no permitido")
           else
             let filename := secure_filename web (filename file) in
             let timestamp := now_strftime web "%Y%m%d_%H%M%S" in
             let filename := timestamp +:+ "_" +:+ filename in
             let filepath := os_path_join "uploads" filename in
             of_outcome (save file filepath);;
             app_logger INFO ("📸 Imagen guardada: " +:+ filename);;
             fields ← of_outcome (form request);
             let use_tta :=
               bool_decide (lower (default "false" (dict_get "use_tta" fields))
                            = "true") in
             let selected_model := default "ResNet50" (dict_get "model" fields) in
             current_model ← get_model_manager selected_model;
             match current_model with
             | Some current_model =>
                 app_try
                   (app_logger INFO
                      ("🔍 Ejecutando predicción con " +:+ selected_model
                       +:+ " (TTA=" +:+ str_bool use_tta +:+ ")");;
                    result ←
                      in_world
                        (improved_predict rt current_model filepath use_tta
                           (AFloat (mkQc 50 100)) (if use_tta then 8 else 0)%Z);
                    if match result with [] => false | _ => true end
                       && in_success_warning (dict_get "status" result)
                    then
                      class ← of_outcome (getitem result "class");
                      confidence ← of_outcome (getitem result "confidence");
                      fallback ← of_outcome (div100 confidence);
                      status ← of_outcome (getitem result "status");
                      mret ([("success", RBool true);
                             ("filename", rstr filename);
                             ("timestamp", rstr timestamp);
                             ("prediction",
                              RObj [("class", class);
                                    ("confidence", confidence);
                                    ("probability",
                                     get_default result "probability" fallback);
                                    ("method",
                                     get_default result "method"
                                       (VAtom (AStr "Predicción estándar")));
                                    ("top_3", get_default result "top_3" (VList []));
                                    ("all_probabilities",
                                     get_default result "probabilities" (VDict []))]);
                             ("status", RVal status);
                             ("tta_used", RBool use_tta);
                             ("model_used", rstr selected_model)], 200)
                    else
                      mret (server_error
                              (RVal (get_default result "message" (VAtom ANone)))))
                   (λ e,
                      app_logger ERROR ("❌ Error en la predicción: " +:+ str_exn e);;
                      mret (server_error (rstr "Error analizando imagen")))
             | None =>
                 mret ([("success", RBool true);
                        ("filename", rstr filename);
                        ("prediction", RObj mock_prediction);
                        ("status", rstr "success");
                        ("message", rstr "Simulación realizada (modelo no cargado)")],
                       200)
             end
     end)
    (λ e,
       app_logger ERROR ("❌ Error interno: " +:+ str_exn e);;
       mret (server_error (rstr "Error interno del servidor"))).

(** *** The endpoint [/api/models] *)

(** One entry of [models_info], and the body of the response. *)
Record model_entry := ModelEntry {
  entry_name : string;
  entry_description : string;
  entry_loaded : bool;
  entry_available : bool
}.

Record models_body := ModelsBody {
  models_success : bool;
  models : list (string * model_entry);
  models_default : string
}.

Definition available_models : Mapp models_body :=
  loaded ← get_loaded_models;
  let models_info :=
    (λ '(name, cfg),
       (name,
        ModelEntry name (cfg_description cfg)
                   (bool_decide (is_Some (dict_get name loaded)))
                   (os_path_exists rt (cfg_path cfg))))
    <$> MODELS_CONFIG in
  mret (ModelsBody true models_info "ResNet50").
End handlers.
End App.

(** ** A sample runtime

    A small concrete world on which the methods are run: one readable image
    file, a choice of label file, a model given by a function of the image
    it is shown, and a fixed random stream. *)

Module Sample.
Import ModelManager.

(** [f"{x:.Nf}"]: [x] rounded to [digits] decimals, half to even. *)
Definition round_half_even (x : Qc) : Z :=
  let n := Qnum (this x) in
  let d := Zpos (Qden (this x)) in
  let q := (n `div` d)%Z in
  let r2 := (2 * (n `mod` d))%Z in
  if bool_decide (r2 < d)%Z then q
  else if bool_decide (d < r2)%Z then (q + 1)%Z
  else if Z.even q then q else (q + 1)%Z.

(** [s] padded with zeros on the left to [width] characters, at most
    [n] of them. *)
Fixpoint pad_zeros (n width : nat) (s : string) : string :=
  match n with
  | O => s
  | S n' => if bool_decide (String.length s < width)%nat
            then pad_zeros n' width ("0" +:+ s) else s
  end.

Definition format_fixed (digits : nat) (x : Qc) : string :=
  let scale := (10 ^ Z.of_nat digits)%Z in
  let n := round_half_even (x * Qc_of_Z scale)%Qc in
  let sign := if bool_decide (n < 0)%Z then "-" else "" in
  let a := Z.abs n in
  let whole := pretty (a `div` scale)%Z in
  match digits with
  | O => sign +:+ whole
  | _ => sign +:+ whole +:+ "."
         +:+ pad_zeros digits digits (pretty (a `mod` scale)%Z)
  end.

(** Contrast about the mean of each channel. *)
Definition channel_mean (sel : pixel → Qc) (img : image) : Qc :=
  (Qc_sum (sel <$> concat img) / Qc_of_Z (Z.of_nat (length (concat img))))%Qc.

Definition adjust_contrast (img : image) (factor : Qc) : image :=
  let mr := channel_mean (λ p, p.1.1) img in
  let mg := channel_mean (λ p, p.1.2) img in
  let mb := channel_mean (λ p, p.2) img in
  map (map (λ '(r, g, b),
    ((r - mr) * factor + mr, (g - mg) * factor + mg, (b - mb) * factor + mb)%Qc))
    img.

(** Saturation scaled in HSV with hue and value kept: every channel keeps
    its distance to the largest one, scaled by the ratio of the new and
    old saturation. A grey pixel has saturation 0 and is left as it is. *)
Definition adjust_saturation_pixel (factor : Qc) (p : pixel) : pixel :=
  let '(r, g, b) := p in
  let v := Qc_max r (Qc_max g b) in
  let lo := Qc_min r (Qc_min g b) in
  if bool_decide (v = lo) then p
  else if Qc_ltb (Q2Qc 0) v then
    let s := ((v - lo) / v)%Qc in
    let s' := Tf.clip (Q2Qc 0) (Q2Qc 1) (s * factor)%Qc in
    pixel_map (λ x, v - (v - x) * (s' / s))%Qc p
  else p.

Definition adjust_saturation (img : image) (factor : Qc) : image :=
  map (map (adjust_saturation_pixel factor)) img.

(** A model that answers every image of a batch with [f image]. *)
Definition model_of (f : image → list Qc) : Model :=
  {| name := "sample"; input_shape := "(None, 1, 1, 3)";
     output_shape := "(None, 5)"; run := λ x, Ok (f <$> x) |}.

(** The image file ["leaf.jpg"] decodes to [img]; the label file exists
    with contents [labels_file] when that is given; the unit draws are
    [units] and then 1/2, the raw bits of draw [i] are [i]. Every Keras
    family is given the rescale to [-1, 1] (that of MobileNetV2) as its
    [preprocess_input]. *)
Definition runtime (img : image) (labels_file : option (outcome json))
    (m : Model) (units : list Qc) : Runtime :=
  {| os_path_exists := λ p,
       bool_decide (p = "model.keras")
       || (bool_decide (p = "classes.json") && bool_decide (labels_file ≠ None));
     open_read := λ p,
       if bool_decide (p = "classes.json") then Ok "<labels>"
       else Raise (Exn "FileNotFoundError" ("No such file or directory: " +:+ p));
     json_load := λ _,
       match labels_file with
       | Some j => j
       | None => Raise (Exn "JSONDecodeError" "Expecting value")
       end;
     keras_load_model := λ _, Ok m;
     import_preprocess_input := λ _, Ok (image_map generic_rescale);
     tf_io_read_file := λ p,
       if bool_decide (p = "leaf.jpg") then Ok "<jpeg>"
       else Raise (Exn "NotFoundError" (p +:+ "; No such file or directory"));
     tf_io_decode_jpeg := λ _, Ok img;
     tf_image_resize := λ x _, Ok x;
     tf_image_adjust_contrast := adjust_contrast;
     tf_image_adjust_saturation := adjust_saturation;
     tf_random_unit := λ i, default (mkQc 1 2) (units !! i);
     tf_random_bits := λ i, Z.of_nat i;
     Image_open := λ p,
       if bool_decide (p = "leaf.jpg") then Ok {| mode := "RGB"; data := img |}
       else Raise (Exn "FileNotFoundError" ("No such file or directory: " +:+ p));
     Image_convert := λ x _, Ok x;
     Image_resize := λ x _, Ok x;
     format_f := format_fixed;
     format_percent := λ d x, format_fixed d (x * Qc_of_Z 100)%Qc +:+ "%" |}.

Definition s0 : state batch := State [] 0 [].

(** A 1x1 grey image of pixel value [v]. *)
Definition grey (v : Z) : image := [[(Qc_of_Z v, Qc_of_Z v, Qc_of_Z v)]].

(** The manager as [__init__] first builds it, before anything is loaded. *)
Definition unloaded (model_type : string) : manager :=
  Manager "model.keras" "classes.json" (224, 224)%Z model_type
          None (LabelList []) None.

(** A constructed manager: the result of [__init__], or the unloaded
    manager if construction raised. *)
Definition constructed (rt : Runtime) (model_type : string) : manager :=
  match __init__ rt "model.keras" "classes.json" (224, 224)%Z model_type s0 with
  | (Ok self, _) => self
  | (Raise _, _) => unloaded model_type
  end.

(** A model that answers every image with the same vector. *)
Definition constant_model (v : list Qc) : Model := model_of (λ _, v).

(** A world without a label file. *)
Definition rt_no_labels : Runtime :=
  runtime (grey 100) None (constant_model [mkQc 9 10; mkQc 1 10]) [].


(** A model whose answer depends on what it is shown: one vector when
    the first pixel has a negative red value, another otherwise. *)
Definition sign_model : Model :=
  model_of (λ img,
    match img with
    | ((r, _, _) :: _) :: _ =>
        if Qc_ltb r (Q2Qc 0)
        then [mkQc 3 4; mkQc 1 4; Q2Qc 0; Q2Qc 0; Q2Qc 0]
        else [mkQc 1 4; mkQc 1 2; mkQc 1 4; Q2Qc 0; Q2Qc 0]
    | _ => []
    end).

(** A world with [sign_model], no label file, and the manager of a model
    family without a preprocessing of its own. *)
Definition rt_custom : Runtime := runtime (grey 100) None sign_model [].
Definition custom : manager := constructed rt_custom "custom".

(** TTA with two augmentations in that world. *)
Definition tta_run : outcome (option dict) * state batch :=
  predict_with_tta rt_custom custom "leaf.jpg" 2 s0.
Definition tta_dict : dict :=
  match tta_run.1 with
  | Ok (Some r) => r
  | _ => []
  end.

(** The basic [predict] in the world of [sign_model]. *)
Definition predict_run : outcome dict * state batch :=
  predict rt_custom custom "leaf.jpg" s0.
Definition predict_dict : dict :=
  match predict_run.1 with
  | Ok r => r
  | Raise _ => []
  end.

(** The improved prediction on a file that is not there. *)
Definition missing_run : outcome dict * state batch :=
  improved_predict rt_custom custom "missing.jpg" false (AFloat (mkQc 1 2)) 0 s0.

(** A world whose label file lists three labels while the model answers
    with five values, the second and third largest at positions 3 and 4;
    and its manager. *)
Definition rt_three_labels : Runtime :=
  runtime (grey 100)
    (Some (Ok (JArray [JItemStr "Healthy"; JItemStr "Mosaic"; JItemStr "RedRot"])))
    (constant_model [mkQc 3 5; Q2Qc 0; Q2Qc 0; mkQc 3 10; mkQc 1 10]) [].
Definition three_labels : manager := constructed rt_three_labels "custom".
Definition three_labels_run : outcome dict * state batch :=
  improved_predict rt_three_labels three_labels "leaf.jpg" false
    (AFloat (mkQc 1 2)) 0 s0.
Definition three_labels_dict : dict :=
  match three_labels_run.1 with
  | Ok r => r
  | Raise _ => []
  end.

(** A world whose model answers with two equal largest values, and the
    top-3 list computed there. *)
Definition rt_ties : Runtime :=
  runtime (grey 100) None
    (constant_model [mkQc 1 2; mkQc 1 2; Q2Qc 0; Q2Qc 0; Q2Qc 0]) [].
Definition ties : manager := constructed rt_ties "custom".

(** The improved prediction with two augmentations in the world of
    [sign_model]. *)
Definition tta_improved_run : outcome dict * state batch :=
  improved_predict rt_custom custom "leaf.jpg" true (AFloat (mkQc 1 2)) 2 s0.
Definition tta_improved_dict : dict :=
  match tta_improved_run.1 with
  | Ok r => r
  | Raise _ => []
  end.

(** The direct prediction and the top-3 list in the world of [sign_model]. *)
Definition direct_run : outcome (option dict) * state batch :=
  predict_single_direct rt_custom custom "leaf.jpg" s0.
End Sample.

(** ** float32, for the one place where rounding is looked at

    The embedding computes in exact rationals. What [confidence * 100] does
    in the arithmetic NumPy uses for it (IEEE binary32, round to nearest
    even) is written down here with the Standard Library's specification
    of floating point, to measure the rounding on a concrete value. *)

Module Float32.

Definition prec : Z := 24.
Definition emax : Z := 128.

(** The float32 product, and the float32 of an integer. *)
Definition mul (x y : spec_float) : spec_float := SFmul prec emax x y.
Definition of_Z (n : Z) : spec_float := binary_normalize prec emax n 0 false.

(** The rational a finite float denotes. *)
Definition to_Qc (x : spec_float) : option Qc :=
  match x with
  | S754_zero _ => Some (Q2Qc 0)
  | S754_finite s m e =>
      let v := match e with
               | Zneg k => Q2Qc (Zpos m # 2 ^ k)
               | _ => Qc_of_Z (Zpos m * 2 ^ e)
               end in
      Some (if s then (- v)%Qc else v)
  | _ => None
  end.

(** The float32 nearest to 0.9: 15099494 * 2^-24. *)
Definition nine_tenths : spec_float := S754_finite false 15099494 (-24).

End Float32.

(** ** What the specification says, as predicates over the embedding *)

Module Spec.
Import ModelManager.


(** The image as [load_and_preprocess_image_tf] builds it before adding
    the batch axis: read, decoded, resized, then normalised by
    [preprocess_fn]; or the exception that stops it. *)
Definition resized_image (rt : Runtime) (self : manager) (path : string)
  : outcome image :=
  match tf_io_read_file rt path with
  | Raise e => Raise e
  | Ok raw =>
      match tf_io_decode_jpeg rt raw with
      | Raise e => Raise e
      | Ok img => tf_image_resize rt img (img_size self)
      end
  end.

Definition normalised_image (rt : Runtime) (self : manager) (path : string)
  : outcome image :=
  match resized_image rt self path with
  | Raise e => Raise e
  | Ok img =>
      match preprocess_fn self with
      | Some f => Ok (f img)
      | None => Raise (Exn "AttributeError"
                         "'ModelManager' object has no attribute 'preprocess_fn'")
      end
  end.

(** [self.model.predict(x, verbose=0)[0]] as a value. *)
Definition model_row (self : manager) (x : batch) : outcome (list Qc) :=
  match model self with
  | None => Raise (Exn "AttributeError"
                     "'NoneType' object has no attribute 'predict'")
  | Some m =>
      match run m x with
      | Raise e => Raise e
      | Ok rows => Np.index rows 0
      end
  end.

(** The six random quantities of one augmentation pass, in the order they
    are drawn. *)
Record draws := Draws {
  quarter_turns : Z;
  horizontal_draw : Qc;
  vertical_draw : Qc;
  brightness_delta : Qc;
  contrast_scale : Qc;
  saturation_scale : Qc
}.

(** A value uniform in [lo, hi), from a unit draw [u]. *)
Definition uniform_in (lo hi u : Qc) : Qc := (u * (hi - lo) + lo)%Qc.

(** The draws of the pass that starts at position [pos] of the stream. *)
Definition draws_at (rt : Runtime) (pos : nat) : draws :=
  {| quarter_turns := (tf_random_bits rt pos `mod` 4)%Z;
     horizontal_draw := uniform_in (Q2Qc 0) (Q2Qc 1) (tf_random_unit rt (1 + pos));
     vertical_draw := uniform_in (Q2Qc 0) (Q2Qc 1) (tf_random_unit rt (2 + pos));
     brightness_delta :=
       uniform_in (mkQc (-2) 10) (mkQc 2 10) (tf_random_unit rt (3 + pos));
     contrast_scale :=
       uniform_in (mkQc 7 10) (mkQc 14 10) (tf_random_unit rt (4 + pos));
     saturation_scale :=
       uniform_in (mkQc 5 10) (mkQc 18 10) (tf_random_unit rt (5 + pos)) |}.

(** The augmentation pass in the words of the specification: seven steps,
    each on the output of the one before. *)
Definition step1_rotate (d : draws) (img : image) : image :=
  Tf.rot90 img (quarter_turns d).
Definition step2_horizontal_flip (d : draws) (img : image) : image :=
  if Qc_ltb (mkQc 4 10) (horizontal_draw d) then Tf.flip_left_right img else img.
Definition step3_vertical_flip (d : draws) (img : image) : image :=
  if Qc_ltb (mkQc 7 10) (vertical_draw d) then Tf.flip_up_down img else img.
Definition step4_brightness (d : draws) (img : image) : image :=
  Tf.adjust_brightness img (brightness_delta d).
Definition step5_contrast (rt : Runtime) (d : draws) (img : image) : image :=
  tf_image_adjust_contrast rt img (contrast_scale d).
Definition step6_saturation (rt : Runtime) (d : draws) (img : image) : image :=
  tf_image_adjust_saturation rt img (saturation_scale d).
Definition step7_clip (img : image) : image :=
  Tf.clip_by_value img (Q2Qc 0) (Qc_of_Z 255).

Definition augmentation_pass (rt : Runtime) (d : draws) (img : image) : image :=
  step7_clip
    (step6_saturation rt d
       (step5_contrast rt d
          (step4_brightness d
             (step3_vertical_flip d
                (step2_horizontal_flip d
                   (step1_rotate d img)))))).

(** Every value of every pixel satisfies [P]. *)
Definition all_values (P : Qc → Prop) (img : image) : Prop :=
  Forall (Forall (λ p : pixel, P p.1.1 ∧ P p.1.2 ∧ P p.2)) img.

(** The unit draws of the stream lie in [0, 1). *)
Definition unit_draws (rt : Runtime) : Prop :=
  ∀ i, (Q2Qc 0 ≤ tf_random_unit rt i)%Qc ∧ (tf_random_unit rt i < Q2Qc 1)%Qc.

(** The rows the model answers to a list of batches, first row of each
    answer; the first failure stops the list. *)
Fixpoint rows_of (self : manager) (inputs : list batch)
  : outcome (list (list Qc)) :=
  match inputs with
  | [] => Ok []
  | x :: inputs' =>
      match model_row self x with
      | Raise e => Raise e
      | Ok row =>
          match rows_of self inputs' with
          | Raise e => Raise e
          | Ok rows => Ok (row :: rows)
          end
      end
  end.

(** The batches of [n] augmentation passes over [img], the first pass
    starting at position [pos] of the random stream. *)
Fixpoint variants (rt : Runtime) (img : image) (pos n : nat) : list batch :=
  match n with
  | O => []
  | S n' =>
      Tf.expand_dims0 (augmentation_pass rt (draws_at rt pos) img)
      :: variants rt img (6 + pos) n'
  end.

(** What [predict_single_direct] returns. *)
Definition direct_result (rt : Runtime) (self : manager) (path : string)
  : option dict :=
  match normalised_image rt self path with
  | Raise _ => None
  | Ok img =>
      match model_row self (Tf.expand_dims0 img) with
      | Raise _ => None
      | Ok row =>
          match prediction_result self row with
          | Raise _ => None
          | Ok r => Some r
          end
      end
  end.

(** The batches [predict_with_tta] feeds to the model when it runs to the
    end, and what it returns, with the random stream at position [pos]. *)
Definition tta_inputs (rt : Runtime) (self : manager) (path : string)
    (num_augmentations : Z) (pos : nat) : list batch :=
  match normalised_image rt self path with
  | Raise _ => []
  | Ok img =>
      Tf.expand_dims0 img :: variants rt img pos (Z.to_nat num_augmentations)
  end.

Definition tta_result (rt : Runtime) (self : manager) (path : string)
    (num_augmentations : Z) (pos : nat) : option dict :=
  match normalised_image rt self path with
  | Raise _ => None
  | Ok _ =>
      match rows_of self (tta_inputs rt self path num_augmentations pos) with
      | Raise _ => None
      | Ok rows =>
          match Np.mean_axis0 rows with
          | Raise _ => None
          | Ok avg =>
              match prediction_result self avg with
              | Raise _ => None
              | Ok r =>
                  Some (r ++ [("num_augmentations",
                               VAtom (AInt num_augmentations))])
              end
          end
      end
  end.

(** What [get_top_3_predictions] returns. *)
Definition top_3_result (rt : Runtime) (self : manager) (path : string)
  : option (list (list (string * atom))) :=
  match normalised_image rt self path with
  | Raise _ => None
  | Ok img =>
      match model_row self (Tf.expand_dims0 img) with
      | Raise _ => None
      | Ok row =>
          match top_entries (classes self) row
                  (Np.reversed (Np.last3 (Np.argsort row))) with
          | Raise _ => None
          | Ok entries => Some entries
          end
      end
  end.

(** The two error results of [improved_predict]. *)
Definition error_result (message : string) : dict :=
  [("status", VAtom (AStr "error"));
   ("message", VAtom (AStr message));
   ("confidence", VAtom (AInt 0));
   ("probability", VAtom (AInt 0))].

(** A field of a result as a string, and as a number. *)
Definition str_field (k : string) (d : dict) : option string :=
  match dict_get k d with
  | Some (VAtom (AStr s)) => Some s
  | _ => None
  end.

Definition num_field (k : string) (d : dict) : option Qc :=
  match dict_get k d with
  | Some (VAtom (AFloat x)) => Some x
  | Some (VAtom (AInt n)) => Some (Qc_of_Z n)
  | _ => None
  end.


(** The message of a result carries the text [text]. *)
Definition message_carries (text : string) (d : dict) : Prop :=
  ∃ msg, str_field "message" d = Some msg ∧ contains text msg = true.

(** The batch the specification asks to be fed for an augmented
    prediction: the pass applied to the resized image, still in the pixel
    domain, and the family normalisation applied to its output. *)
Definition specified_variant (rt : Runtime) (self : manager) (path : string)
    (pos : nat) : outcome batch :=
  match resized_image rt self path with
  | Raise e => Raise e
  | Ok pixels =>
      match preprocess_fn self with
      | Some f =>
          Ok (Tf.expand_dims0 (f (augmentation_pass rt (draws_at rt pos) pixels)))
      | None => Raise (Exn "AttributeError"
                         "'ModelManager' object has no attribute 'preprocess_fn'")
      end
  end.

(** Position [i] of the answer [row] ranks before position [j] in the
    top-3 order: its value is larger, or equal with [i] the later position. *)
Definition ranks_before (row : list Qc) (i j : nat) : Prop :=
  ∃ p q, row !! i = Some p ∧ row !! j = Some q
         ∧ ((q < p)%Qc ∨ (q = p ∧ j < i)).






(** The order of [np.argsort]: by value, and by position among equals. *)
Definition sorts_before (x y : nat * Qc) : Prop :=
  (x.2 < y.2)%Qc ∨ (x.2 = y.2 ∧ x.1 < y.1).

(** The pairs that [np.argsort] orders. *)
Definition sorted_pairs (row : list Qc) : list (nat * Qc) :=
  foldr Np.insert_asc [] (Np.enumerate_from 0 row).

End Spec.

(** ** More sample runs *)

Module Scenario.
Import ModelManager.

(** TTA with two augmentations in the world whose model answers every
    image with (1/2, 1/2, 0, 0, 0). *)
Definition ties_tta_run : outcome (option dict) * state batch :=
  predict_with_tta Sample.rt_ties Sample.ties "leaf.jpg" 2 Sample.s0.
Definition ties_tta_dict : dict :=
  match ties_tta_run.1 with
  | Ok (Some r) => r
  | _ => []
  end.

(** A world for the application: of the three model files only that of
    ResNet50 is there, with [sign_model] in it; there is no label file;
    every file under [uploads/] reads back as a JPEG of one grey pixel;
    the clock stands still. *)
Definition rt_app : Runtime :=
  {| os_path_exists := λ p,
       bool_decide (p = "models/ResNet50/ResNet50_latest.keras");
     open_read := open_read Sample.rt_custom;
     json_load := json_load Sample.rt_custom;
     keras_load_model := keras_load_model Sample.rt_custom;
     import_preprocess_input := import_preprocess_input Sample.rt_custom;
     tf_io_read_file := λ p,
       if String.prefix "uploads/" p then Ok "<jpeg>"
       else Raise (Exn "NotFoundError" (p +:+ "; No such file or directory"));
     tf_io_decode_jpeg := tf_io_decode_jpeg Sample.rt_custom;
     tf_image_resize := tf_image_resize Sample.rt_custom;
     tf_image_adjust_contrast := tf_image_adjust_contrast Sample.rt_custom;
     tf_image_adjust_saturation := tf_image_adjust_saturation Sample.rt_custom;
     tf_random_unit := tf_random_unit Sample.rt_custom;
     tf_random_bits := tf_random_bits Sample.rt_custom;
     Image_open := Image_open Sample.rt_custom;
     Image_convert := Image_convert Sample.rt_custom;
     Image_resize := Image_resize Sample.rt_custom;
     format_f := format_f Sample.rt_custom;
     format_percent := format_percent Sample.rt_custom |}.

Definition web : App.Web :=
  {| App.MODEL_AVAILABLE := true;
     App.secure_filename := λ s, s;
     App.now_strftime := λ _, "20240101_120000" |}.

(** An upload that saves without error, and a request that carries it
    under ['image']. *)
Definition upload (name : string) : App.FileStorage :=
  {| App.filename := name; App.save := λ _, Ok () |}.

Definition request (name : string) (fields : list (string * string))
  : App.Request :=
  {| App.files := Ok [("image", upload name)]; App.form := Ok fields |}.

(** The application before any model is loaded, the first load of
    ResNet50, and the state it leaves. *)
Definition a0 : App.app_state := App.AppState [] Sample.s0.

Definition first_load : outcome (option manager) * App.app_state :=
  App.get_model_manager rt_app web "ResNet50" a0.

Definition loaded_manager : manager :=
  match first_load.1 with
  | Ok (Some m) => m
  | _ => Sample.unloaded "ResNet50"
  end.

(** A request served with the default model and TTA, after that load;
    and a request for MobileNetV2, whose file is not there. *)
Definition served : outcome App.response * App.app_state :=
  App.predict rt_app web (request "leaf.JPG" [("use_tta", "True")]) first_load.2.

Definition served_without_model : outcome App.response * App.app_state :=
  App.predict rt_app web (request "leaf.jpg" [("model", "MobileNetV2")]) a0.
End Scenario.

(** ** Vocabulary for the properties of the results *)

Module Laws.
Import ModelManager Spec.

(** A mapping in descending order of value. *)
Definition descending (d : list (string * Qc)) : Prop :=
  StronglySorted (λ a b, (b.2 ≤ a.2)%Qc) d.

(** The image as [preprocess_image] builds it before adding the batch
    axis: opened with PIL, converted to RGB when it is in another mode,
    resized, and divided by 255; or the exception that stops it. *)
Definition pil_pixels (rt : Runtime) (self : manager) (path : string)
  : outcome image :=
  match Image_open rt path with
  | Raise e => Raise e
  | Ok img =>
      match (if bool_decide (mode img ≠ "RGB")
             then Image_convert rt img "RGB" else Ok img) with
      | Raise e => Raise e
      | Ok img =>
          match Image_resize rt img (img_size self) with
          | Raise e => Raise e
          | Ok img => Ok (image_map (λ x, x / Qc_of_Z 255)%Qc (data img))
          end
      end
  end.

(** What the basic [predict] returns or raises. *)
Definition basic_result (rt : Runtime) (self : manager) (path : string)
  : outcome dict :=
  match pil_pixels rt self path with
  | Raise e => Raise e
  | Ok img =>
      match model_row self (Tf.expand_dims0 img) with
      | Raise e => Raise e
      | Ok row =>
          match Np.argmax row with
          | Raise e => Raise e
          | Ok idx =>
              match labels_getitem (classes self) idx with
              | Raise e => Raise e
              | Ok label =>
                  match Np.index row idx with
                  | Raise e => Raise e
                  | Ok confidence =>
                      match label_probabilities (classes self) row with
                      | Raise e => Raise e
                      | Ok probabilities =>
                          Ok [("class", VAtom (AStr label));
                              ("confidence", VAtom (AFloat confidence));
                              ("probabilities",
                               float_dict (sort_probabilities probabilities))]
                      end
                  end
              end
          end
      end
  end.

(** [r] is a result of one of the three prediction methods on [path]. *)
Definition prediction_of (rt : Runtime) (self : manager) (path : string)
    (r : dict) : Prop :=
  (∃ s s', predict rt self path s = (Ok r, s'))
  ∨ (∃ s s', predict_single_direct rt self path s = (Ok (Some r), s'))
  ∨ (∃ K s s', predict_with_tta rt self path K s = (Ok (Some r), s')).

(** The entry [predict_batch] records for a path, from what [predict]
    returned or raised on it. *)
Definition batch_entry (image_path : string) (o : outcome dict) : dict :=
  match o with
  | Ok r => dict_set "image_path" (VAtom (AStr image_path)) r
  | Raise e => [("image_path", VAtom (AStr image_path));
                ("error", VAtom (AStr (str_exn e)))]
  end.

(** Every value lies between 0 and 1. *)
Definition unit_values (row : list Qc) : Prop :=
  Forall (λ v, (Q2Qc 0 ≤ v)%Qc ∧ (v ≤ Q2Qc 1)%Qc) row.
End Laws.

(** ** Vocabulary for the properties of the application *)

Module AppLaws.
Import ModelManager App.

(** The name [get_model_manager] works with: the one asked for when it is
    a key of [MODELS_CONFIG], ["ResNet50"] otherwise. *)
Definition resolved (model_name : string) : string :=
  match dict_get model_name MODELS_CONFIG with
  | Some _ => model_name
  | None => "ResNet50"
  end.

(** Every manager of the cache sits under a configured name, was built
    from the entry of that name, and is loaded. *)
Definition cache_ok (loaded : list (string * manager)) : Prop :=
  ∀ k m, dict_get k loaded = Some m →
    ∃ cfg, dict_get k MODELS_CONFIG = Some cfg
           ∧ model_type m = k
           ∧ model_path m = cfg_path cfg
           ∧ classes_path m = cfg_classes cfg
           ∧ img_size m = cfg_size cfg
           ∧ is_Some (model m)
           ∧ is_Some (preprocess_fn m).

(** The upload the endpoint looks at: the one under ['image'] when it has
    a file name, else the one under ['file']. *)
Definition chosen_file (uploads : list (string * FileStorage))
  : option FileStorage :=
  if truthy (dict_get "image" uploads) then dict_get "image" uploads
  else dict_get "file" uploads.

(** The two form parameters as the endpoint reads them. *)
Definition use_tta_of (fields : list (string * string)) : bool :=
  bool_decide (lower (default "false" (dict_get "use_tta" fields)) = "true").

Definition selected_model_of (fields : list (string * string)) : string :=
  default "ResNet50" (dict_get "model" fields).

(** The name and the path under which the endpoint saves an upload. *)
Definition saved_name (web : Web) (file : FileStorage) : string :=
  now_strftime web "%Y%m%d_%H%M%S" +:+ "_" +:+ secure_filename web (filename file).

Definition saved_path (web : Web) (file : FileStorage) : string :=
  os_path_join "uploads" (saved_name web file).

(** A field of the body of a response, and a field of its ["prediction"]
    object. *)
Definition body_field (k : string) (r : response) : option rval :=
  dict_get k r.1.

Definition prediction_field (k : string) (r : response) : option val :=
  match dict_get "prediction" r.1 with
  | Some (RObj d) => dict_get k d
  | _ => None
  end.
End AppLaws.

(** * Properties *)


Import ModelManager Spec Laws AppLaws.

(** Unfolding the monad. *)
Ltac munfold :=
  unfold mbind, mret, M_bind, M_ret, bind, ret, lift, raise, try_except,
    logger, next_draw, record_call in *.

(** Inequalities over [Qc] as inequalities over [Q], for [lra]. *)
Ltac qc2q :=
  unfold generic_rescale, mkQc, Qc_of_Z, Qcdiv, Qcminus, Qcle, Qclt in *;
  cbn [this Q2Qc Qcplus Qcmult Qcopp Qcinv] in *;
  rewrite ?Qred_correct in *;
  unfold inject_Z in *;
  repeat match goal with
  | |- context [Qinv (?n # ?d)] =>
      let v := eval vm_compute in (Qinv (n # d)) in
      change (Qinv (n # d)) with v
  | H : context [Qinv (?n # ?d)] |- _ =>
      let v := eval vm_compute in (Qinv (n # d)) in
      change (Qinv (n # d)) with v in H
  end.

(** ** Preprocessing selection *)

Lemma generic_rescale_range (x : Qc) :
  (Q2Qc 0 ≤ x ≤ Qc_of_Z 255)%Qc → (- Q2Qc 1 ≤ generic_rescale x ≤ Q2Qc 1)%Qc.
Proof. intros [H1 H2]. qc2q. split; lra. Qed.

Lemma generic_rescale_onto (y : Qc) :
  (- Q2Qc 1 ≤ y ≤ Q2Qc 1)%Qc →
  ∃ x, (Q2Qc 0 ≤ x ≤ Qc_of_Z 255)%Qc ∧ generic_rescale x = y.
Proof.
  intros H. exists ((y + Q2Qc 1) * mkQc 255 2)%Qc. split.
  - qc2q. split; lra.
  - unfold generic_rescale, mkQc. field. done.
Qed.

Lemma generic_rescale_ends :
  generic_rescale (Q2Qc 0) = (- Q2Qc 1)%Qc ∧ generic_rescale (Qc_of_Z 255) = Q2Qc 1.
Proof. split; apply Qc_is_canon; reflexivity. Qed.

(** C9. For a model-family name whose lowercase form contains none of
    "resnet", "efficientnet", "mobilenet", [_set_preprocess_function] does
    not raise and installs the generic rescale [x / 127.5 - 1.0], which maps
    the pixel range [0, 255] onto [-1, 1]: the ends go to the ends, values
    in range stay in range, and every value of [-1, 1] is reached. *)
Theorem unknown_family_uses_generic_rescale
    (rt : Runtime) (self : manager) (s : state batch) :
  contains "resnet" (lower (model_type self)) = false →
  contains "efficientnet" (lower (model_type self)) = false →
  contains "mobilenet" (lower (model_type self)) = false →
  (∃ s', _set_preprocess_function rt self s
         = (Ok (set_preprocess_fn self (image_map generic_rescale)), s')
         ∧ rng s' = rng s ∧ fed s' = fed s)
  ∧ (∀ x, (Q2Qc 0 ≤ x ≤ Qc_of_Z 255)%Qc →
          (- Q2Qc 1 ≤ generic_rescale x ≤ Q2Qc 1)%Qc)
  ∧ generic_rescale (Q2Qc 0) = (- Q2Qc 1)%Qc
  ∧ generic_rescale (Qc_of_Z 255) = Q2Qc 1
  ∧ (∀ y, (- Q2Qc 1 ≤ y ≤ Q2Qc 1)%Qc →
          ∃ x, (Q2Qc 0 ≤ x ≤ Qc_of_Z 255)%Qc ∧ generic_rescale x = y).
Proof.
  intros Hr He Hm. split; [|split; [|split; [|split]]].
  - unfold _set_preprocess_function. rewrite Hr, He, Hm.
    munfold. eexists. split; [reflexivity|]. done.
  - apply generic_rescale_range.
  - apply generic_rescale_ends.
  - apply generic_rescale_ends.
  - apply generic_rescale_onto.
Qed.

Lemma unknown_family_uses_generic_rescale_witness :
  contains "resnet" (lower "VGG16") = false
  ∧ contains "efficientnet" (lower "VGG16") = false
  ∧ contains "mobilenet" (lower "VGG16") = false
  ∧ (∃ s', _set_preprocess_function Sample.rt_no_labels (Sample.unloaded "VGG16")
             Sample.s0
           = (Ok (set_preprocess_fn (Sample.unloaded "VGG16")
                    (image_map generic_rescale)), s')
           ∧ rng s' = rng Sample.s0 ∧ fed s' = fed Sample.s0).
Proof.
  split; [reflexivity|]. split; [reflexivity|]. split; [reflexivity|].
  apply (unknown_family_uses_generic_rescale
           Sample.rt_no_labels (Sample.unloaded "VGG16") Sample.s0);
    reflexivity.
Defined.

(** ** Label loading *)

Lemma load_classes_total (rt : Runtime) (self : manager) (s : state batch) :
  ∃ c s', _load_classes rt self s = (Ok (set_classes self c), s')
          ∧ rng s' = rng s ∧ fed s' = fed s.
Proof.
  unfold _load_classes. munfold.
  destruct (os_path_exists rt (classes_path self)); cbn.
  - destruct (open_read rt (classes_path self)) as [f|e]; cbn; [|by eauto].
    destruct (json_load rt f) as [x|e]; cbn; [|by eauto].
    destruct (joinable x) as [c|e]; cbn; by eauto.
  - by eauto.
Qed.



(** ** Loading an image, calling the model *)

Lemma load_and_preprocess_image_tf_spec
    (rt : Runtime) (self : manager) (path : string) (s : state batch) :
  load_and_preprocess_image_tf rt self path s
  = match normalised_image rt self path with
    | Ok img => (Ok (Some (Tf.expand_dims0 img)), s)
    | Raise e =>
        (Ok None,
         State (log s ++ [(ERROR, "❌ Error cargando imagen con TF: " +:+ str_exn e)])
               (rng s) (fed s))
    end.
Proof.
  unfold load_and_preprocess_image_tf, normalised_image, resized_image,
    call_preprocess_fn.
  munfold.
  destruct (tf_io_read_file rt path) as [raw|e]; cbn; [|done].
  destruct (tf_io_decode_jpeg rt raw) as [img|e]; cbn; [|done].
  destruct (tf_image_resize rt img (img_size self)) as [img'|e]; cbn; [|done].
  destruct (preprocess_fn self) as [f|]; cbn; done.
Qed.

(** ** The augmentation pass *)

Lemma augmented_batch_spec (rt : Runtime) (img : image) (s : state batch) :
  augmented_batch rt (Tf.expand_dims0 img) s
  = (Ok (Tf.expand_dims0 (augmentation_pass rt (draws_at rt (rng s)) img)),
     State (log s) (6 + rng s) (fed s)).
Proof. reflexivity. Qed.

Lemma uniform_in_range (lo hi u : Qc) :
  (lo < hi)%Qc → (Q2Qc 0 ≤ u)%Qc → (u < Q2Qc 1)%Qc →
  (lo ≤ uniform_in lo hi u)%Qc ∧ (uniform_in lo hi u < hi)%Qc.
Proof.
  intros Hlh H0 H1. unfold uniform_in. qc2q. split; nra.
Qed.

Lemma uniform_in_unit (u : Qc) : uniform_in (Q2Qc 0) (Q2Qc 1) u = u.
Proof. unfold uniform_in. ring. Qed.

Lemma clip_range (lo hi x : Qc) :
  (lo ≤ hi)%Qc → (lo ≤ Tf.clip lo hi x)%Qc ∧ (Tf.clip lo hi x ≤ hi)%Qc.
Proof.
  intros Hlh. unfold Tf.clip, Qc_min, Qc_max, Qc_ltb.
  repeat case_bool_decide;
    repeat match goal with
           | H : ¬ (_ < _)%Qc |- _ => apply Qcnot_lt_le in H
           end;
    qc2q; split; lra.
Qed.

Lemma clip_by_value_range (lo hi : Qc) (img : image) :
  (lo ≤ hi)%Qc →
  all_values (λ x, (lo ≤ x)%Qc ∧ (x ≤ hi)%Qc) (Tf.clip_by_value img lo hi).
Proof.
  intros Hlh. unfold all_values, Tf.clip_by_value, image_map.
  apply Forall_fmap, Forall_true. intros row.
  apply Forall_fmap, Forall_true. intros [[r g] b]. cbn.
  auto using clip_range.
Qed.

(** C7. One augmentation pass of the TTA loop is the seven steps in this
    order, each on the output of the one before: rotation by a multiple of
    90 degrees among 0/90/180/270 (the raw draw modulo 4), horizontal flip
    iff a unit draw exceeds 0.4, vertical flip iff a unit draw exceeds 0.7,
    additive brightness shift in [-0.2, 0.2), contrast scale in [0.7, 1.4),
    saturation scale in [0.5, 1.8), and clipping into [0, 255], after which
    every pixel value lies in [0, 255]. The pass takes six draws from the
    random stream and touches nothing else. *)
Theorem augmentation_pass_steps_in_order
    (rt : Runtime) (img : image) (s : state batch) :
  unit_draws rt →
  let d := draws_at rt (rng s) in
  augmented_batch rt (Tf.expand_dims0 img) s
  = (Ok (Tf.expand_dims0
           (step7_clip
              (step6_saturation rt d
                 (step5_contrast rt d
                    (step4_brightness d
                       (step3_vertical_flip d
                          (step2_horizontal_flip d
                             (step1_rotate d img)))))))),
     State (log s) (6 + rng s) (fed s))
  ∧ (0 ≤ quarter_turns d < 4)%Z
  ∧ (∀ x, step1_rotate d x = Tf.rot90 x (quarter_turns d))
  ∧ horizontal_draw d = tf_random_unit rt (1 + rng s)
  ∧ (∀ x, step2_horizontal_flip d x
          = if decide (mkQc 4 10 < horizontal_draw d)%Qc
            then Tf.flip_left_right x else x)
  ∧ vertical_draw d = tf_random_unit rt (2 + rng s)
  ∧ (∀ x, step3_vertical_flip d x
          = if decide (mkQc 7 10 < vertical_draw d)%Qc
            then Tf.flip_up_down x else x)
  ∧ (∀ x, step4_brightness d x = image_map (λ v, v + brightness_delta d)%Qc x)
  ∧ (mkQc (-2) 10 ≤ brightness_delta d)%Qc ∧ (brightness_delta d < mkQc 2 10)%Qc
  ∧ (mkQc 7 10 ≤ contrast_scale d)%Qc ∧ (contrast_scale d < mkQc 14 10)%Qc
  ∧ (mkQc 5 10 ≤ saturation_scale d)%Qc ∧ (saturation_scale d < mkQc 18 10)%Qc
  ∧ (∀ x, all_values (λ v, (Q2Qc 0 ≤ v)%Qc ∧ (v ≤ Qc_of_Z 255)%Qc) (step7_clip x)).
Proof.
  intros Hu d.
  split; [apply augmented_batch_spec|].
  split; [apply Z.mod_pos_bound; lia|].
  split; [done|].
  split; [apply uniform_in_unit|].
  split.
  { intros x. unfold step2_horizontal_flip, Qc_ltb.
    case_bool_decide; case_decide; done. }
  split; [apply uniform_in_unit|].
  split.
  { intros x. unfold step3_vertical_flip, Qc_ltb.
    case_bool_decide; case_decide; done. }
  split; [done|].
  pose proof (λ lo hi H i,
    uniform_in_range lo hi (tf_random_unit rt i) H
      (proj1 (Hu i)) (proj2 (Hu i))) as Hr.
  split; [by apply Hr|]. split; [by apply Hr|].
  split; [by apply Hr|]. split; [by apply Hr|].
  split; [by apply Hr|]. split; [by apply Hr|].
  intros x. by apply clip_by_value_range.
Qed.

Lemma augmentation_pass_steps_in_order_witness :
  unit_draws Sample.rt_no_labels
  ∧ augmented_batch Sample.rt_no_labels (Tf.expand_dims0 (Sample.grey 100)) Sample.s0
    = (Ok (Tf.expand_dims0
             (augmentation_pass Sample.rt_no_labels
                (draws_at Sample.rt_no_labels 0) (Sample.grey 100))),
       State [] 6 []).
Proof.
  assert (unit_draws Sample.rt_no_labels) as H.
  { intros i. cbn. rewrite lookup_nil. done. }
  split; [exact H|].
  exact (proj1 (augmentation_pass_steps_in_order
                  Sample.rt_no_labels (Sample.grey 100) Sample.s0 H)).
Defined.

(** ** Argmax, mean, and the result dictionary *)

Lemma argmax_from_spec (pre xs : list Qc) (best : nat) (bestv : Qc) :
  pre !! best = Some bestv →
  (∀ j q, pre !! j = Some q → (q ≤ bestv)%Qc ∧ ((j < best)%nat → (q < bestv)%Qc)) →
  ∃ p, (pre ++ xs) !! Np.argmax_from (length pre) best bestv xs = Some p
       ∧ ∀ j q, (pre ++ xs) !! j = Some q →
           (q ≤ p)%Qc
           ∧ ((j < Np.argmax_from (length pre) best bestv xs)%nat → (q < p)%Qc).
Proof.
  revert pre best bestv. induction xs as [|x xs IH]; intros pre best bestv Hb Hmax.
  - cbn. rewrite app_nil_r. eauto.
  - cbn [Np.argmax_from]. unfold Qc_ltb. case_bool_decide as Hlt.
    + specialize (IH (pre ++ [x]) (length pre) x).
      rewrite length_app, Nat.add_1_r, <- app_assoc in IH. cbn in IH.
      apply IH.
      * rewrite lookup_app_r by lia. by rewrite Nat.sub_diag.
      * intros j q Hj. destruct (decide (j < length pre)) as [Hjl|Hjl].
        -- rewrite lookup_app_l in Hj by done.
           destruct (Hmax j q Hj) as [Hle _]. split.
           ++ apply Qclt_le_weak. by eapply Qcle_lt_trans.
           ++ intros _. by eapply Qcle_lt_trans.
        -- rewrite lookup_app_r in Hj by lia.
           destruct (j - length pre) as [|k] eqn:Ek; [|by destruct k].
           injection Hj as <-. split; [apply Qcle_refl|lia].
    + apply Qcnot_lt_le in Hlt.
      specialize (IH (pre ++ [x]) best bestv).
      rewrite length_app, Nat.add_1_r, <- app_assoc in IH. cbn in IH.
      apply IH.
      * apply lookup_lt_Some in Hb as Hlen. by rewrite lookup_app_l.
      * intros j q Hj. destruct (decide (j < length pre)) as [Hjl|Hjl].
        -- rewrite lookup_app_l in Hj by done. by apply Hmax.
        -- rewrite lookup_app_r in Hj by lia.
           destruct (j - length pre) as [|k] eqn:Ek; [|by destruct k].
           injection Hj as <-. split; [done|].
           apply lookup_lt_Some in Hb. lia.
Qed.

(** [np.argmax] returns the first position of the largest value. *)
Lemma argmax_spec (xs : list Qc) (i : nat) :
  Np.argmax xs = Ok i →
  ∃ p, xs !! i = Some p
       ∧ ∀ j q, xs !! j = Some q → (q ≤ p)%Qc ∧ ((j < i)%nat → (q < p)%Qc).
Proof.
  destruct xs as [|x xs]; [done|]. cbn. intros [= <-].
  apply (argmax_from_spec [x] xs 0 x); [done|].
  intros [|j] q Hj; [|done]. injection Hj as <-.
  split; [apply Qcle_refl|lia].
Qed.

Lemma argmax_nonempty (xs : list Qc) :
  xs ≠ [] → ∃ i, Np.argmax xs = Ok i.
Proof. destruct xs; [done|]. cbn. eauto. Qed.

(** The mean of a single row is the row. *)
Lemma mean_axis0_singleton (v : list Qc) : Np.mean_axis0 [v] = Ok v.
Proof.
  unfold Np.mean_axis0. cbn. rewrite bool_decide_eq_true_2 by done. cbn.
  f_equal. apply list_eq. intros j.
  rewrite list_lookup_fmap.
  destruct (decide (j < length v)) as [Hj|Hj].
  - rewrite lookup_seq_lt by done. cbn.
    destruct (lookup_lt_is_Some_2 v j Hj) as [x ->]. cbn. f_equal.
    replace (Qc_of_Z (Z.of_nat 1)) with (Q2Qc 1)
      by (apply Qc_is_canon; reflexivity).
    field. done.
  - rewrite lookup_seq_ge by lia. cbn. symmetry. apply lookup_ge_None. lia.
Qed.

(** [np.mean(rows, axis=0)], when it succeeds: the rows have one length,
    and every entry is the sum of its column over the number of rows. *)
Lemma mean_axis0_spec (rows : list (list Qc)) (avg : list Qc) :
  Np.mean_axis0 rows = Ok avg →
  Forall (λ r, length r = length avg) rows
  ∧ ∀ j, j < length avg →
      length (Np.column j rows) = length rows
      ∧ avg !! j
        = Some (Qc_sum (Np.column j rows) / Qc_of_Z (Z.of_nat (length rows)))%Qc.
Proof.
  unfold Np.mean_axis0. destruct rows as [|r rows']; [done|].
  set (rows := r :: rows').
  destruct (forallb _ rows) eqn:Hall; [|done]. intros [= <-].
  rewrite length_fmap, length_seq.
  assert (Forall (λ r' : list Qc, length r' = length r) rows) as Hlen.
  { apply Forall_forall. intros r' Hr'.
    rewrite forallb_forall in Hall.
    apply list_elem_of_In, Hall in Hr'. by apply bool_decide_eq_true_1 in Hr'. }
  split; [done|]. intros j Hj. split.
  - unfold Np.column. clear Hall. induction Hlen as [|r' rows'' Hr' _ IH]; [done|].
    cbn. destruct (lookup_lt_is_Some_2 r' j) as [x ->]; [lia|]. cbn. by rewrite IH.
  - rewrite list_lookup_fmap, lookup_seq_lt by done. done.
Qed.

(** The result dictionary built from a probability vector. *)
Lemma prediction_result_inv (self : manager) (v : list Qc) (r : dict) :
  prediction_result self v = Ok r →
  ∃ idx p label probs,
    Np.argmax v = Ok idx ∧ v !! idx = Some p
    ∧ labels_getitem (classes self) idx = Ok label
    ∧ label_probabilities (classes self) v = Ok probs
    ∧ r = [("class", VAtom (AStr label));
           ("confidence", VAtom (AFloat (p * Qc_of_Z 100)%Qc));
           ("probability", VAtom (AFloat p));
           ("probabilities", float_dict (sort_probabilities probs))].
Proof.
  unfold prediction_result.
  destruct (Np.argmax v) as [idx|] eqn:Hi; [|done].
  unfold Np.index. destruct (v !! idx) as [p|] eqn:Hp; [|done].
  destruct (label_probabilities (classes self) v) as [probs|] eqn:Hd; [|done].
  destruct (labels_getitem (classes self) idx) as [label|] eqn:Hl; [|done].
  intros [= <-]. by exists idx, p, label, probs.
Qed.

(** ** Direct prediction and TTA, as functions of the world *)

Lemma predict_single_direct_spec
    (rt : Runtime) (self : manager) (path : string) (s : state batch) :
  ∃ s', predict_single_direct rt self path s
        = (Ok (direct_result rt self path), s')
        ∧ rng s' = rng s
        ∧ (is_Some (direct_result rt self path) →
           ∃ img, normalised_image rt self path = Ok img
                  ∧ fed s' = fed s ++ [Tf.expand_dims0 img]).
Proof.
  unfold predict_single_direct, direct_result.
  unfold try_except at 1. unfold mbind at 1, M_bind, bind at 1.
  unfold logger at 1.
  unfold mbind at 1, M_bind, bind at 1.
  rewrite load_and_preprocess_image_tf_spec.
  destruct (normalised_image rt self path) as [img|e]; cbn.
  2:{ eexists. split; [reflexivity|]. split; [done|]. by intros [? ?]. }
  unfold model_predict, model_row. munfold.
  destruct (model self) as [m|]; cbn.
  2:{ eexists. split; [reflexivity|]. split; [done|]. by intros [? ?]. }
  destruct (run m (Tf.expand_dims0 img)) as [rows|e]; cbn.
  2:{ eexists. split; [reflexivity|]. split; [done|]. by intros [? ?]. }
  destruct (Np.index rows 0) as [row|e]; cbn.
  2:{ eexists. split; [reflexivity|]. split; [done|]. by intros [? ?]. }
  destruct (prediction_result self row) as [r|e]; cbn.
  2:{ eexists. split; [reflexivity|]. split; [done|]. by intros [? ?]. }
  eexists. split; [reflexivity|]. split; [done|]. intros _. by eauto.
Qed.

Lemma augmentation_loop_step
    (rt : Runtime) (self : manager) (img : image) (n : nat)
    (acc : list (list Qc)) (s : state batch) :
  augmentation_loop rt self (Tf.expand_dims0 img) (S n) acc s
  = let x := Tf.expand_dims0 (augmentation_pass rt (draws_at rt (rng s)) img) in
    match model self with
    | None =>
        (Raise (Exn "AttributeError" "'NoneType' object has no attribute 'predict'"),
         State (log s) (6 + rng s) (fed s))
    | Some _ =>
        match model_row self x with
        | Ok row =>
            augmentation_loop rt self (Tf.expand_dims0 img) n (acc ++ [row])
              (State (log s) (6 + rng s) (fed s ++ [x]))
        | Raise e => (Raise e, State (log s) (6 + rng s) (fed s ++ [x]))
        end
    end.
Proof.
  cbn [augmentation_loop].
  unfold mbind at 1, M_bind, bind at 1.
  rewrite augmented_batch_spec.
  unfold model_predict, model_row. munfold. cbn.
  destruct (model self) as [m|]; cbn; [|done].
  destruct (run m _) as [rows|e]; cbn; [|done].
  by destruct (Np.index rows 0) as [row|e].
Qed.

(** The augmentation loop appends the model's answers to the variants, in
    order, or stops at the first exception. *)
Lemma augmentation_loop_spec
    (rt : Runtime) (self : manager) (img : image) (n : nat) :
  ∀ (acc : list (list Qc)) (s : state batch),
    match rows_of self (variants rt img (rng s) n) with
    | Ok rows =>
        ∃ s', augmentation_loop rt self (Tf.expand_dims0 img) n acc s
              = (Ok (acc ++ rows), s')
              ∧ rng s' = 6 * n + rng s
              ∧ fed s' = fed s ++ variants rt img (rng s) n
    | Raise e =>
        ∃ s', augmentation_loop rt self (Tf.expand_dims0 img) n acc s
              = (Raise e, s')
    end.
Proof.
  induction n as [|n IH]; intros acc s.
  - cbn. exists s. by rewrite !app_nil_r.
  - rewrite augmentation_loop_step. cbn [variants rows_of]. cbv zeta.
    set (x := Tf.expand_dims0 (augmentation_pass rt (draws_at rt (rng s)) img)).
    destruct (model self) as [m|] eqn:Hm.
    2:{ unfold model_row. rewrite Hm. by eauto. }
    destruct (model_row self x) as [row|e]; [|by eauto].
    specialize (IH (acc ++ [row]) (State (log s) (6 + rng s) (fed s ++ [x]))).
    cbn [rng fed] in IH.
    destruct (rows_of self (variants rt img (6 + rng s) n)) as [rows'|e].
    + destruct IH as (s' & -> & Hr & Hf). exists s'.
      split; [by rewrite <- app_assoc|]. split; [lia|].
      rewrite Hf. by rewrite <- app_assoc.
    + done.
Qed.

Lemma predict_with_tta_spec
    (rt : Runtime) (self : manager) (path : string) (num_augmentations : Z)
    (s : state batch) :
  ∃ s', predict_with_tta rt self path num_augmentations s
        = (Ok (tta_result rt self path num_augmentations (rng s)), s')
        ∧ (is_Some (tta_result rt self path num_augmentations (rng s)) →
           rng s' = 6 * Z.to_nat num_augmentations + rng s
           ∧ fed s' = fed s ++ tta_inputs rt self path num_augmentations (rng s)).
Proof.
  unfold predict_with_tta, tta_result, tta_inputs.
  unfold try_except at 1. unfold mbind at 1, M_bind, bind at 1.
  unfold logger at 1.
  unfold mbind at 1, M_bind, bind at 1.
  rewrite load_and_preprocess_image_tf_spec.
  destruct (normalised_image rt self path) as [img|e]; cbn [rows_of].
  2:{ cbn. eexists. split; [reflexivity|]. by intros [? ?]. }
  unfold mbind at 1, M_bind, bind at 1.
  unfold model_predict at 1. unfold model_row.
  destruct (model self) as [m|] eqn:Hm.
  2:{ cbn. eexists. split; [reflexivity|]. by intros [? ?]. }
  unfold mbind at 1, M_bind, bind at 1, record_call at 1, lift at 1.
  destruct (run m (Tf.expand_dims0 img)) as [rows0|e].
  2:{ cbn. eexists. split; [reflexivity|]. by intros [? ?]. }
  unfold mbind at 1, M_bind, bind at 1, lift at 1.
  destruct (Np.index rows0 0) as [base_pred|e].
  2:{ cbn. eexists. split; [reflexivity|]. by intros [? ?]. }
  unfold mbind at 1, M_bind, bind at 1.
  match goal with
  | |- context [augmentation_loop rt self _ ?n ?acc ?s1] =>
      pose proof (augmentation_loop_spec rt self img n acc s1) as Hloop
  end.
  cbn [rng log fed app] in Hloop |- *.
  destruct (rows_of self (variants rt img (rng s) (Z.to_nat num_augmentations)))
    as [rows|e].
  2:{ destruct Hloop as [s' ->]. cbn. eexists. split; [reflexivity|].
      by intros [? ?]. }
  destruct Hloop as (s' & -> & Hr & Hf).
  munfold.
  destruct (Np.mean_axis0 (base_pred :: rows)) as [avg|e].
  2:{ cbn. eexists. split; [reflexivity|]. by intros [? ?]. }
  destruct (prediction_result self avg) as [r|e].
  2:{ cbn. eexists. split; [reflexivity|]. by intros [? ?]. }
  exists s'. split; [reflexivity|]. intros _. split; [done|].
  rewrite Hf. by rewrite <- app_assoc.
Qed.

(** ** TTA without augmentations *)

Lemma tta_result_zero (rt : Runtime) (self : manager) (path : string) (pos : nat) :
  tta_result rt self path 0 pos
  = (λ r, r ++ [("num_augmentations", VAtom (AInt 0))])
      <$> direct_result rt self path.
Proof.
  unfold tta_result, tta_inputs, direct_result.
  destruct (normalised_image rt self path) as [img|e]; [|done].
  change (Z.to_nat 0) with 0%nat. cbn [variants rows_of].
  destruct (model_row self (Tf.expand_dims0 img)) as [row|e]; [|done].
  rewrite mean_axis0_singleton.
  by destruct (prediction_result self row).
Qed.

(** The four fields of a prediction result are there, and stay what they
    are when [num_augmentations] is added at the end. *)
Lemma prediction_result_fields (self : manager) (v : list Qc) (r : dict)
    (extra : val) :
  prediction_result self v = Ok r →
  Forall (λ k, is_Some (dict_get k r)
               ∧ dict_get k (r ++ [("num_augmentations", extra)]) = dict_get k r)
         ["class"; "confidence"; "probability"; "probabilities"].
Proof.
  intros Hr. apply prediction_result_inv in Hr
    as (idx & p & label & probs & _ & _ & _ & _ & ->).
  repeat constructor; by eexists.
Qed.

(** C5. With [num_augmentations = 0], [predict_with_tta] returns what
    [predict_single_direct] returns on the same image from the same state:
    both fail together, and when they succeed the TTA result is the direct
    result with the one extra entry [num_augmentations: 0], so class,
    confidence, probability and probabilities are equal (exactly, in the
    exact arithmetic of the embedding). Both feed the model the same single
    batch and take nothing from the random stream. *)
Theorem tta_with_zero_augmentations_equals_direct
    (rt : Runtime) (self : manager) (path : string) (s : state batch) :
  ∃ (direct : option dict) (s1 s2 : state batch),
    predict_single_direct rt self path s = (Ok direct, s1)
    ∧ predict_with_tta rt self path 0 s
      = (Ok ((λ r, r ++ [("num_augmentations", VAtom (AInt 0))]) <$> direct), s2)
    ∧ (∀ r, direct = Some r →
         Forall (λ k, is_Some (dict_get k r)
                      ∧ dict_get k (r ++ [("num_augmentations", VAtom (AInt 0))])
                        = dict_get k r)
                ["class"; "confidence"; "probability"; "probabilities"])
    ∧ rng s1 = rng s ∧ (is_Some direct → rng s2 = rng s ∧ fed s2 = fed s1).
Proof.
  destruct (predict_single_direct_spec rt self path s) as (s1 & Hd & Hr1 & Hf1).
  destruct (predict_with_tta_spec rt self path 0 s) as (s2 & Ht & Hf2).
  rewrite tta_result_zero in Ht, Hf2.
  exists (direct_result rt self path), s1, s2.
  split; [done|]. split; [done|]. split; [|split; [done|]].
  - intros r Hr. unfold direct_result in Hr.
    destruct (normalised_image rt self path) as [img|]; [|done].
    destruct (model_row self _) as [row|]; [|done].
    destruct (prediction_result self row) as [r'|] eqn:Hp; [|done].
    injection Hr as ->. by eapply prediction_result_fields.
  - intros Hsome. destruct Hf1 as (img & Himg & ->); [done|].
    destruct Hf2 as [-> ->]; [by apply fmap_is_Some|].
    split; [done|]. unfold tta_inputs. by rewrite Himg.
Qed.

(** ** TTA averaging *)

Lemma rows_of_Forall2 (self : manager) (inputs : list batch)
    (rows : list (list Qc)) :
  rows_of self inputs = Ok rows →
  Forall2 (λ x row, model_row self x = Ok row) inputs rows.
Proof.
  revert rows. induction inputs as [|x inputs IH]; intros rows; cbn.
  - intros [= <-]. constructor.
  - destruct (model_row self x) as [row|] eqn:Hx; [|done].
    destruct (rows_of self inputs) as [rows'|]; [|done].
    intros [= <-]. constructor; [done|]. by apply IH.
Qed.

Lemma length_variants (rt : Runtime) (img : image) (pos n : nat) :
  length (variants rt img pos n) = n.
Proof. revert pos. induction n as [|n IH]; intros pos; cbn; [done|]. by rewrite IH. Qed.

(** The [i]-th variant is the pass whose draws start [6 * i] positions on. *)
Lemma lookup_variants (rt : Runtime) (img : image) (pos n i : nat) :
  i < n →
  variants rt img pos n !! i
  = Some (Tf.expand_dims0 (augmentation_pass rt (draws_at rt (6 * i + pos)) img)).
Proof.
  revert pos i. induction n as [|n IH]; intros pos i Hi; [lia|].
  destruct i as [|i]; cbn [variants lookup list_lookup].
  - done.
  - rewrite IH by lia. do 4 f_equal. lia.
Qed.

(** C6. When TTA with K >= 0 augmentations returns a result, the model was
    fed exactly K+1 batches (the normalised image, then K variants), the
    final vector is the element-wise arithmetic mean of the K+1 answers,
    the label is the one at the argmax of that mean (its first largest
    entry), the confidence is that entry times 100, the probability is
    that entry, and the probabilities mapping is built from that mean. *)
Theorem tta_result_is_mean_of_all_predictions
    (rt : Runtime) (self : manager) (path : string) (K : Z)
    (s s' : state batch) (r : dict) :
  (0 ≤ K)%Z →
  predict_with_tta rt self path K s = (Ok (Some r), s') →
  ∃ (img : image) (rows : list (list Qc)) (avg : list Qc) (idx : nat)
    (p : Qc) (label : string),
    normalised_image rt self path = Ok img
    ∧ fed s' = fed s ++ Tf.expand_dims0 img :: variants rt img (rng s) (Z.to_nat K)
    ∧ length (variants rt img (rng s) (Z.to_nat K)) = Z.to_nat K
    ∧ Z.of_nat (length rows) = (K + 1)%Z
    ∧ Forall2 (λ x row, model_row self x = Ok row)
        (Tf.expand_dims0 img :: variants rt img (rng s) (Z.to_nat K)) rows
    ∧ Forall (λ row, length row = length avg) rows
    ∧ (∀ j, j < length avg →
         Z.of_nat (length (Np.column j rows)) = (K + 1)%Z
         ∧ avg !! j = Some (Qc_sum (Np.column j rows) / Qc_of_Z (K + 1))%Qc)
    ∧ Np.argmax avg = Ok idx
    ∧ avg !! idx = Some p
    ∧ (∀ j q, avg !! j = Some q → (q ≤ p)%Qc ∧ (j < idx → (q < p)%Qc))
    ∧ labels_getitem (classes self) idx = Ok label
    ∧ dict_get "class" r = Some (VAtom (AStr label))
    ∧ dict_get "confidence" r = Some (VAtom (AFloat (p * Qc_of_Z 100)%Qc))
    ∧ dict_get "probability" r = Some (VAtom (AFloat p))
    ∧ ∃ probs, label_probabilities (classes self) avg = Ok probs
               ∧ dict_get "probabilities" r
                 = Some (float_dict (sort_probabilities probs)).
Proof.
  intros HK Hrun.
  destruct (predict_with_tta_spec rt self path K s) as (s2 & Hspec & Hfed).
  rewrite Hrun in Hspec. injection Hspec as Hres <-.
  destruct Hfed as [_ Hfed]; [by rewrite <- Hres|].
  unfold tta_result, tta_inputs in *.
  destruct (normalised_image rt self path) as [img|]; [|done].
  destruct (rows_of self _) as [rows|] eqn:Hrows; [|done].
  destruct (Np.mean_axis0 rows) as [avg|] eqn:Havg; [|done].
  destruct (prediction_result self avg) as [r0|] eqn:Hr0; [|done].
  injection Hres as ->.
  apply prediction_result_inv in Hr0
    as (idx & p & label & probs & Hidx & Hp & Hlabel & Hprobs & ->).
  apply rows_of_Forall2 in Hrows as Hall.
  apply mean_axis0_spec in Havg as [Hlen Hmean].
  apply argmax_spec in Hidx as Hmax. destruct Hmax as (p' & Hp' & Hmax).
  rewrite Hp in Hp'. injection Hp' as <-.
  assert (Z.of_nat (length rows) = (K + 1)%Z) as Hn.
  { apply Forall2_length in Hall. rewrite <- Hall. cbn.
    rewrite length_variants. lia. }
  exists img, rows, avg, idx, p, label.
  split; [done|]. split; [done|]. split; [apply length_variants|].
  split; [done|]. split; [done|]. split; [done|].
  split.
  { intros j Hj. destruct (Hmean j Hj) as [Hc ->]. rewrite Hc, Hn. done. }
  split; [done|]. split; [done|]. split; [done|]. split; [done|].
  split; [reflexivity|]. split; [reflexivity|]. split; [reflexivity|].
  exists probs. split; [done|reflexivity].
Qed.

Lemma tta_result_is_mean_of_all_predictions_witness :
  (0 ≤ 2)%Z
  ∧ Sample.tta_run = (Ok (Some Sample.tta_dict), Sample.tta_run.2)
  ∧ ∃ (rows : list (list Qc)) (avg : list Qc) (idx : nat) (p : Qc),
      Z.of_nat (length rows) = 3%Z
      ∧ (∀ j, j < length avg →
           avg !! j = Some (Qc_sum (Np.column j rows) / Qc_of_Z 3)%Qc)
      ∧ Np.argmax avg = Ok idx
      ∧ dict_get "probability" Sample.tta_dict = Some (VAtom (AFloat p)).
Proof.
  assert (Sample.tta_run = (Ok (Some Sample.tta_dict), Sample.tta_run.2)) as H
    by (vm_compute; reflexivity).
  split; [lia|]. split; [exact H|].
  destruct (tta_result_is_mean_of_all_predictions
              Sample.rt_custom Sample.custom "leaf.jpg" 2 Sample.s0
              Sample.tta_run.2 Sample.tta_dict ltac:(lia) H)
    as (img & rows & avg & idx & p & label & _ & _ & _ & Hn & _ & _ & Hmean
        & Hidx & _ & _ & _ & _ & _ & Hp & _).
  exists rows, avg, idx, p.
  split; [exact Hn|]. split; [|split; [exact Hidx|exact Hp]].
  intros j Hj. exact (proj2 (Hmean j Hj)).
Defined.

(** ** When TTA returns a result *)

Lemma rows_of_total (self : manager) (n : nat) (inputs : list batch) :
  (∀ x, ∃ row, model_row self x = Ok row ∧ length row = n) →
  ∃ rows, rows_of self inputs = Ok rows
          ∧ Forall (λ row, length row = n) rows
          ∧ length rows = length inputs.
Proof.
  intros Hm. induction inputs as [|x inputs (rows & IH & Hall & Hlen)]; cbn.
  - exists []. by repeat constructor.
  - destruct (Hm x) as (row & -> & Hrow). rewrite IH.
    exists (row :: rows). split; [done|]. split; [by constructor|]. cbn. by rewrite Hlen.
Qed.

Lemma mean_axis0_total (n : nat) (rows : list (list Qc)) :
  rows ≠ [] → Forall (λ row, length row = n) rows →
  ∃ avg, Np.mean_axis0 rows = Ok avg ∧ length avg = n.
Proof.
  intros Hne Hall. unfold Np.mean_axis0.
  destruct rows as [|r rows']; [done|].
  assert (length r = n) as Hr by (by apply Forall_cons in Hall as [? _]).
  assert (forallb (λ r', bool_decide (length r' = length r)) (r :: rows') = true)
    as ->.
  { apply forallb_forall. intros r' Hr'. apply list_elem_of_In in Hr'.
    rewrite Forall_forall in Hall. apply bool_decide_eq_true_2.
    rewrite Hr. by apply Hall. }
  eexists. split; [reflexivity|]. by rewrite length_fmap, length_seq.
Qed.

Lemma label_items_total (l : list string) (row : list Qc) (idx : list nat) :
  Forall (λ i, i < length l ∧ i < length row) idx →
  ∃ items, label_items (LabelList l) row idx = Ok items.
Proof.
  induction 1 as [|i idx [Hl Hr] _ [items IH]]; cbn; [by eauto|].
  destruct (lookup_lt_is_Some_2 l i Hl) as [k ->].
  unfold Np.index. destruct (lookup_lt_is_Some_2 row i Hr) as [v ->].
  rewrite IH. by eauto.
Qed.

Lemma prediction_result_total (self : manager) (l : list string) (v : list Qc) :
  classes self = LabelList l → length l = length v → v ≠ [] →
  ∃ r, prediction_result self v = Ok r.
Proof.
  intros Hc Hlen Hne. unfold prediction_result.
  destruct (argmax_nonempty v Hne) as [idx Hidx]. rewrite Hidx.
  destruct (argmax_spec v idx Hidx) as (p & Hp & _).
  unfold Np.index. rewrite Hp.
  destruct (label_items_total l v (seq 0 (length l))) as [items Hitems].
  { apply Forall_forall. intros i Hi. apply elem_of_seq in Hi. lia. }
  unfold label_probabilities. rewrite Hc. cbn. rewrite Hitems.
  apply lookup_lt_Some in Hp. rewrite <- Hlen in Hp.
  destruct (lookup_lt_is_Some_2 l idx Hp) as [label ->]. by eauto.
Qed.

(** With an image that loads, a model that answers every batch with [n]
    values, and [n > 0] labels, [predict_with_tta] returns a result. *)
Lemma predict_with_tta_returns_a_result
    (rt : Runtime) (self : manager) (path : string) (K : Z) (s : state batch)
    (img : image) (l : list string) :
  normalised_image rt self path = Ok img →
  (∀ x, ∃ row, model_row self x = Ok row ∧ length row = length l) →
  classes self = LabelList l → l ≠ [] →
  ∃ r s', predict_with_tta rt self path K s = (Ok (Some r), s').
Proof.
  intros Himg Hm Hc Hne.
  destruct (predict_with_tta_spec rt self path K s) as (s' & Hspec & _).
  rewrite Hspec. unfold tta_result, tta_inputs. rewrite Himg.
  destruct (rows_of_total self (length l)
              (Tf.expand_dims0 img :: variants rt img (rng s) (Z.to_nat K)) Hm)
    as (rows & -> & Hall & Hlen).
  destruct (mean_axis0_total (length l) rows) as (avg & -> & Havg); [|done|].
  { intros ->. done. }
  destruct (prediction_result_total self l avg Hc) as [r ->]; [done| |by eauto].
  intros ->. by destruct l.
Qed.

(** ** Where TTA normalises *)

(** In every run of [predict_with_tta] that returns a result, the model is
    fed the normalised image and then the augmentation passes over that
    normalised image: [preprocess_fn] is applied once, before the passes,
    and the output of a pass goes to the model as it is, clipped into
    [0, 255]. *)
Lemma tta_augments_the_normalised_image
    (rt : Runtime) (self : manager) (path : string) (K : Z)
    (s s' : state batch) (r : dict) :
  predict_with_tta rt self path K s = (Ok (Some r), s') →
  ∃ pixels f,
    resized_image rt self path = Ok pixels
    ∧ preprocess_fn self = Some f
    ∧ fed s' = fed s ++ Tf.expand_dims0 (f pixels)
                        :: variants rt (f pixels) (rng s) (Z.to_nat K)
    ∧ ∀ i, i < Z.to_nat K →
        variants rt (f pixels) (rng s) (Z.to_nat K) !! i
        = Some (Tf.expand_dims0
                  (step7_clip
                     (step6_saturation rt (draws_at rt (6 * i + rng s))
                        (step5_contrast rt (draws_at rt (6 * i + rng s))
                           (step4_brightness (draws_at rt (6 * i + rng s))
                              (step3_vertical_flip (draws_at rt (6 * i + rng s))
                                 (step2_horizontal_flip (draws_at rt (6 * i + rng s))
                                    (step1_rotate (draws_at rt (6 * i + rng s))
                                       (f pixels))))))))).
Proof.
  intros Hrun.
  destruct (predict_with_tta_spec rt self path K s) as (s2 & Hspec & Hfed).
  rewrite Hrun in Hspec. injection Hspec as Hres <-.
  destruct Hfed as [_ Hfed]; [by rewrite <- Hres|].
  unfold tta_result, tta_inputs, normalised_image in *.
  destruct (resized_image rt self path) as [pixels|]; [|done].
  destruct (preprocess_fn self) as [f|]; [|done].
  exists pixels, f. split; [done|]. split; [done|]. split; [done|].
  intros i Hi. by apply lookup_variants.
Qed.

(** C1 at a concrete input: a 1x1 grey image of pixel value 100, a model
    family without a preprocessing of its own (generic rescale), two
    augmentations. The model is shown the normalised image (-11/51 in every
    channel) and then, twice, an all-zero image: the pass ran on the
    normalised values and clipped them into [0, 255]. The batch the
    specification asks for (the pass on the pixel values, normalised
    afterwards) holds -11/51. *)
Lemma tta_feeds_clipped_normalised_values :
  Sample.tta_run = (Ok (Some Sample.tta_dict), Sample.tta_run.2)
  ∧ resized_image Sample.rt_custom Sample.custom "leaf.jpg" = Ok (Sample.grey 100)
  ∧ normalised_image Sample.rt_custom Sample.custom "leaf.jpg"
    = Ok (image_map generic_rescale (Sample.grey 100))
  ∧ fed Sample.tta_run.2
    = [Tf.expand_dims0 [[(mkQc (-11) 51, mkQc (-11) 51, mkQc (-11) 51)]];
       Tf.expand_dims0 (Sample.grey 0);
       Tf.expand_dims0 (Sample.grey 0)]
  ∧ specified_variant Sample.rt_custom Sample.custom "leaf.jpg" 0
    = Ok (Tf.expand_dims0 [[(mkQc (-11) 51, mkQc (-11) 51, mkQc (-11) 51)]])
  ∧ specified_variant Sample.rt_custom Sample.custom "leaf.jpg" 0
    ≠ Ok (Tf.expand_dims0 (Sample.grey 0)).
Proof.
  split; [by vm_compute|]. split; [by vm_compute|]. split; [by vm_compute|].
  split; [apply (bool_decide_unpack _); by vm_compute|].
  assert (specified_variant Sample.rt_custom Sample.custom "leaf.jpg" 0
          = Ok (Tf.expand_dims0 [[(mkQc (-11) 51, mkQc (-11) 51, mkQc (-11) 51)]]))
    as Hspec.
  { unfold specified_variant.
    change (resized_image Sample.rt_custom Sample.custom "leaf.jpg")
      with (Ok (A:=image) (Sample.grey 100)).
    change (preprocess_fn Sample.custom) with (Some (image_map generic_rescale)).
    f_equal. }
  split; [exact Hspec|]. rewrite Hspec. by intros [= H].
Qed.

(** ** Top-3 and the threshold policy *)

Lemma get_top_3_predictions_spec
    (rt : Runtime) (self : manager) (path : string) (s : state batch) :
  ∃ s', get_top_3_predictions rt self path s
        = (Ok (top_3_result rt self path), s')
        ∧ rng s' = rng s.
Proof.
  unfold get_top_3_predictions, top_3_result.
  unfold try_except at 1. unfold mbind at 1, M_bind, bind at 1.
  rewrite load_and_preprocess_image_tf_spec.
  destruct (normalised_image rt self path) as [img|e]; cbn.
  2:{ by eexists. }
  unfold model_predict, model_row. munfold.
  destruct (model self) as [m|]; cbn; [|by eexists].
  destruct (run m (Tf.expand_dims0 img)) as [rows|e]; cbn; [|by eexists].
  destruct (Np.index rows 0) as [row|e]; cbn; [|by eexists].
  destruct (top_entries (classes self) row _) as [entries|e]; cbn; by eexists.
Qed.

(** The result of either underlying prediction starts with the four fields
    of [prediction_result]. *)
Lemma underlying_result_shape
    (rt : Runtime) (self : manager) (path : string) (K : Z) (pos : nat)
    (use_tta : bool) (r : dict) :
  (if use_tta then tta_result rt self path K pos else direct_result rt self path)
  = Some r →
  ∃ v idx p label probs extra,
    Np.argmax v = Ok idx ∧ v !! idx = Some p
    ∧ labels_getitem (classes self) idx = Ok label
    ∧ r = [("class", VAtom (AStr label));
           ("confidence", VAtom (AFloat (p * Qc_of_Z 100)%Qc));
           ("probability", VAtom (AFloat p));
           ("probabilities", float_dict (sort_probabilities probs))] ++ extra.
Proof.
  destruct use_tta; unfold tta_result, direct_result.
  - destruct (normalised_image rt self path); [|done].
    destruct (rows_of self _); [|done].
    destruct (Np.mean_axis0 _) as [avg|]; [|done].
    destruct (prediction_result self avg) as [r0|] eqn:Hr0; [|done].
    intros [= <-]. apply prediction_result_inv in Hr0
      as (idx & p & label & probs & ? & ? & ? & _ & ->).
    by eexists avg, idx, p, label, probs, _.
  - destruct (normalised_image rt self path); [|done].
    destruct (model_row self _) as [row|]; [|done].
    destruct (prediction_result self row) as [r0|] eqn:Hr0; [|done].
    intros [= <-]. apply prediction_result_inv in Hr0
      as (idx & p & label & probs & ? & ? & ? & _ & ->).
    exists row, idx, p, label, probs, []. by rewrite app_nil_r.
Qed.

(** Every way through [improved_predict]. *)
Lemma improved_predict_cases
    (rt : Runtime) (self : manager) (path : string) (use_tta : bool)
    (threshold : atom) (K : Z) (s : state batch) :
  ∃ (out : dict) (s' s1 : state batch),
    improved_predict rt self path use_tta threshold K s = (Ok out, s')
    ∧ (if use_tta then predict_with_tta rt self path K s
       else predict_single_direct rt self path s)
      = (Ok (if use_tta then tta_result rt self path K (rng s)
             else direct_result rt self path), s1)
    ∧ match (if use_tta then tta_result rt self path K (rng s)
             else direct_result rt self path) with
      | None => out = error_result "Error en la predicción"
      | Some r =>
          ∃ p s2,
            dict_get "probability" r = Some (VAtom (AFloat p))
            ∧ dict_get "confidence" r = Some (VAtom (AFloat (p * Qc_of_Z 100)%Qc))
            ∧ get_top_3_predictions rt self path s1
              = (Ok (top_3_result rt self path), s2)
            ∧ match less_than (AFloat p) threshold with
              | Raise e =>
                  out = error_result ("Error al procesar la imagen: " +:+ str_exn e)
              | Ok low =>
                  str_field "status" out
                  = Some (if low then "warning" else "success")
                  ∧ Forall (λ k, is_Some (dict_get k r)
                                 ∧ dict_get k out = dict_get k r)
                      ["class"; "confidence"; "probability"; "probabilities"]
                  ∧ dict_get "top_3" out
                    = Some (top_3_val (top_3_result rt self path))
                  ∧ is_Some (str_field "method" out)
                  ∧ is_Some (str_field "message" out)
              end
      end.
Proof.
  assert (∃ s1, (if use_tta then predict_with_tta rt self path K s
                 else predict_single_direct rt self path s)
                = (Ok (if use_tta then tta_result rt self path K (rng s)
                       else direct_result rt self path), s1)) as [s1 Hs1].
  { destruct use_tta.
    - destruct (predict_with_tta_spec rt self path K s) as (s1 & ? & _). by eauto.
    - destruct (predict_single_direct_spec rt self path s) as (s1 & ? & _).
      by eauto. }
  unfold improved_predict.
  unfold try_except at 1. unfold mbind at 1, M_bind, bind at 1.
  replace ((if use_tta then predict_with_tta rt self path K
            else predict_single_direct rt self path) s)
    with (if use_tta then predict_with_tta rt self path K s
          else predict_single_direct rt self path s)
    by (by destruct use_tta).
  rewrite Hs1.
  destruct (if use_tta then tta_result rt self path K (rng s)
            else direct_result rt self path) as [r|] eqn:Hres.
  2:{ eexists _, _, s1. split; [reflexivity|]. by split. }
  apply underlying_result_shape in Hres
    as (v & idx & p & label & probs & extra & _ & _ & _ & Hr).
  assert (getitem r "probability" = Ok (VAtom (AFloat p))) as Gp
    by (rewrite Hr; reflexivity).
  assert (getitem r "confidence" = Ok (VAtom (AFloat (p * Qc_of_Z 100)%Qc))) as Gc
    by (rewrite Hr; reflexivity).
  assert (getitem r "class" = Ok (VAtom (AStr label))) as Gl
    by (rewrite Hr; reflexivity).
  assert (Forall (λ k, is_Some (dict_get k r))
            ["class"; "confidence"; "probability"; "probabilities"]) as Gall
    by (rewrite Hr; repeat constructor; by eexists).
  assert (dict_get "probability" r = Some (VAtom (AFloat p))
          ∧ dict_get "confidence" r = Some (VAtom (AFloat (p * Qc_of_Z 100)%Qc))
          ∧ dict_get "class" r = Some (VAtom (AStr label))) as (Dp & Dc & Dl)
    by (rewrite Hr; by repeat split).
  assert (∀ d, Some (get_default r "probabilities" d)
               = dict_get "probabilities" r) as Gd
    by (intros d; rewrite Hr; reflexivity).
  clear Hr.
  destruct (get_top_3_predictions_spec rt self path s1) as (s2 & Htop & _).
  munfold. rewrite Gp, Htop.
  assert (∀ out, dict_get "class" out = Some (VAtom (AStr label)) →
            dict_get "confidence" out = Some (VAtom (AFloat (p * Qc_of_Z 100)%Qc)) →
            dict_get "probability" out = Some (VAtom (AFloat p)) →
            dict_get "probabilities" out = dict_get "probabilities" r →
            Forall (λ k, is_Some (dict_get k r) ∧ dict_get k out = dict_get k r)
              ["class"; "confidence"; "probability"; "probabilities"]) as Hall.
  { intros out H1 H2 H3 H4.
    apply Forall_cons in Gall as [? Gall]. apply Forall_cons in Gall as [? Gall].
    apply Forall_cons in Gall as [? Gall]. apply Forall_cons in Gall as [? _].
    repeat constructor; try done; congruence. }
  destruct threshold as [|n|x|t]; cbn.
  - eexists _, _, s1. split; [reflexivity|]. split; [done|].
    exists p, s2. split; [done|]. split; [done|]. split; [done|]. reflexivity.
  - destruct (Qc_ltb p (Qc_of_Z n)) eqn:Hlow; rewrite Gl, Gc; cbn;
      (eexists _, _, s1; split; [reflexivity|]; split; [done|];
       exists p, s2; split; [done|]; split; [done|]; split; [done|];
       cbn [less_than]; rewrite Hlow; split; [done|];
       split; [apply Hall; [reflexivity..|exact (Gd _)]|];
       by repeat split).
  - destruct (Qc_ltb p x) eqn:Hlow; rewrite Gl, Gc; cbn;
      (eexists _, _, s1; split; [reflexivity|]; split; [done|];
       exists p, s2; split; [done|]; split; [done|]; split; [done|];
       cbn [less_than]; rewrite Hlow; split; [done|];
       split; [apply Hall; [reflexivity..|exact (Gd _)]|];
       by repeat split).
  - eexists _, _, s1. split; [reflexivity|]. split; [done|].
    exists p, s2. split; [done|]. split; [done|]. split; [done|]. reflexivity.
Qed.

Lemma prefix_refl (t : string) : String.prefix t t = true.
Proof.
  induction t as [|c t IH]; cbn; [done|].
  by destruct (Ascii.ascii_dec c c).
Qed.

Lemma contains_append (t a : string) : contains t (a +:+ t) = true.
Proof.
  induction a as [|c a IH].
  - change ("" +:+ t) with t. destruct t; [done|].
    cbn [contains]. by rewrite prefix_refl.
  - change (String c a +:+ t) with (String c (a +:+ t)).
    cbn [contains]. rewrite IH. by destruct (String.prefix t _).
Qed.

(** C2, as the code has it. For every image path, threshold and TTA
    setting, [improved_predict] does not raise and returns a mapping whose
    status is one of "success", "warning", "error". When the underlying
    prediction returns a result with probability [p] and the threshold is a
    number, the status is "warning" if [p] is below the threshold and
    "success" otherwise, and in both cases class, confidence, probability
    and probabilities are those of the prediction and [top_3] is present.
    When the underlying prediction returns null, the status is "error",
    confidence and probability are 0, and the message is the fixed text
    "Error en la predicción". When the comparison with the threshold raises,
    the status is "error", confidence and probability are 0, and the
    message is "Error al procesar la imagen: " followed by the exception
    text. *)
Theorem improved_predict_never_raises_and_tags_status
    (rt : Runtime) (self : manager) (path : string) (use_tta : bool)
    (threshold : atom) (K : Z) (s : state batch) :
  ∃ (out : dict) (s' : state batch) (res : option dict) (s1 : state batch),
    improved_predict rt self path use_tta threshold K s = (Ok out, s')
    ∧ (if use_tta then predict_with_tta rt self path K s
       else predict_single_direct rt self path s) = (Ok res, s1)
    ∧ (str_field "status" out = Some "success"
       ∨ str_field "status" out = Some "warning"
       ∨ str_field "status" out = Some "error")
    ∧ match res with
      | None =>
          out = error_result "Error en la predicción"
          ∧ str_field "status" out = Some "error"
          ∧ num_field "confidence" out = Some (Qc_of_Z 0)
          ∧ num_field "probability" out = Some (Qc_of_Z 0)
      | Some r =>
          ∃ p, dict_get "probability" r = Some (VAtom (AFloat p))
               ∧ match less_than (AFloat p) threshold with
                 | Ok low =>
                     str_field "status" out
                     = Some (if low then "warning" else "success")
                     ∧ Forall (λ k, is_Some (dict_get k r)
                                    ∧ dict_get k out = dict_get k r)
                         ["class"; "confidence"; "probability"; "probabilities"]
                     ∧ is_Some (dict_get "top_3" out)
                     ∧ is_Some (str_field "message" out)
                     ∧ (∀ τ, threshold = AFloat τ →
                          low = bool_decide (p < τ)%Qc)
                 | Raise e =>
                     out = error_result
                             ("Error al procesar la imagen: " +:+ str_exn e)
                     ∧ str_field "status" out = Some "error"
                     ∧ num_field "confidence" out = Some (Qc_of_Z 0)
                     ∧ num_field "probability" out = Some (Qc_of_Z 0)
                     ∧ message_carries (str_exn e) out
                 end
      end.
Proof.
  destruct (improved_predict_cases rt self path use_tta threshold K s)
    as (out & s' & s1 & Hout & Hres & Hcases).
  exists out, s'. eexists. exists s1. split; [done|]. split; [done|].
  destruct (if use_tta then tta_result rt self path K (rng s)
            else direct_result rt self path) as [r|].
  - destruct Hcases as (p & s2 & Hp & _ & _ & Hlt).
    destruct (less_than (AFloat p) threshold) as [low|e] eqn:Hlow.
    + destruct Hlt as (Hst & Hall & Htop & _ & Hmsg).
      split; [destruct low; by eauto|].
      exists p. split; [done|]. rewrite Hlow.
      split; [done|]. split; [done|]. split; [by rewrite Htop|].
      split; [done|]. intros τ ->. cbn in Hlow. by injection Hlow as <-.
    + subst out. split; [by eauto|].
      exists p. split; [done|]. rewrite Hlow.
      split; [done|]. split; [done|].
      split; [done|]. split; [done|].
      eexists. split; [reflexivity|]. apply contains_append.
  - subst out. split; [by eauto|]. split; [done|]. split; [done|].
    by split.
Qed.

(** C2 as stated fails where the underlying prediction returns null: the
    image file is missing, TensorFlow's error text is logged inside
    [load_and_preprocess_image_tf], and the result of [improved_predict]
    carries the fixed message instead of that text. *)
Lemma improved_predict_null_result_drops_error_text :
  normalised_image Sample.rt_custom Sample.custom "missing.jpg"
  = Raise (Exn "NotFoundError" "missing.jpg; No such file or directory")
  ∧ Sample.missing_run.1 = Ok (error_result "Error en la predicción")
  ∧ ¬ message_carries "missing.jpg; No such file or directory"
        (error_result "Error en la predicción")
  ∧ (ERROR, "❌ Error cargando imagen con TF: missing.jpg; No such file or directory")
    ∈ log Sample.missing_run.2.
Proof.
  split; [reflexivity|]. split; [by vm_compute|]. split.
  - intros (msg & Hmsg & Hin). vm_compute in Hmsg. injection Hmsg as <-.
    vm_compute in Hin. discriminate.
  - vm_compute. apply list_elem_of_In. cbn. tauto.
Qed.

(** ** The top-3 list of a successful result *)

(** C10. [get_top_3_predictions] never raises: its failures become the
    return value [None]. In a result of [improved_predict] whose status is
    "success" or "warning", [top_3] is whatever [get_top_3_predictions]
    returned, attached unchanged; and it can be [None]: with three labels
    for a model of five outputs, the direct prediction succeeds with status
    "success" while the top-3 computation fails on a label index out of
    range. *)
Theorem top_3_can_be_none_in_a_success_result :
  (∀ rt self path (s : state batch),
     ∃ top_3 s', get_top_3_predictions rt self path s = (Ok top_3, s'))
  ∧ (∀ rt self path use_tta threshold K (s s' : state batch) out,
       improved_predict rt self path use_tta threshold K s = (Ok out, s') →
       str_field "status" out = Some "success"
       ∨ str_field "status" out = Some "warning" →
       ∃ top_3 s1 s2,
         get_top_3_predictions rt self path s1 = (Ok top_3, s2)
         ∧ dict_get "top_3" out = Some (top_3_val top_3)
         ∧ (top_3 = None → dict_get "top_3" out = Some (VAtom ANone)))
  ∧ (Sample.three_labels_run.1 = Ok Sample.three_labels_dict
     ∧ str_field "status" Sample.three_labels_dict = Some "success"
     ∧ dict_get "top_3" Sample.three_labels_dict = Some (VAtom ANone)
     ∧ top_3_result Sample.rt_three_labels Sample.three_labels "leaf.jpg" = None).
Proof.
  split; [|split].
  - intros rt self path s.
    destruct (get_top_3_predictions_spec rt self path s) as (s' & H & _).
    by eauto.
  - intros rt self path use_tta threshold K s s' out Hout Hstatus.
    destruct (improved_predict_cases rt self path use_tta threshold K s)
      as (out' & s'' & s1 & Hout' & _ & Hcases).
    rewrite Hout in Hout'. injection Hout' as <- <-.
    destruct (if use_tta then tta_result rt self path K (rng s)
              else direct_result rt self path) as [r|].
    + destruct Hcases as (p & s2 & _ & _ & Htop & Hlt).
      destruct (less_than (AFloat p) threshold) as [low|e].
      * destruct Hlt as (_ & _ & Hattached & _).
        exists (top_3_result rt self path), s1, s2.
        split; [done|]. split; [done|]. intros Hnone.
        by rewrite Hattached, Hnone.
      * subst out. by destruct Hstatus.
    + subst out. by destruct Hstatus.
  - split; [by vm_compute|]. split; [by vm_compute|]. split; by vm_compute.
Qed.

Lemma top_3_can_be_none_in_a_success_result_witness :
  Sample.three_labels_run
  = (Ok Sample.three_labels_dict, Sample.three_labels_run.2)
  ∧ (str_field "status" Sample.three_labels_dict = Some "success"
     ∨ str_field "status" Sample.three_labels_dict = Some "warning")
  ∧ ∃ top_3 s1 s2,
      get_top_3_predictions Sample.rt_three_labels Sample.three_labels
        "leaf.jpg" s1 = (Ok top_3, s2)
      ∧ dict_get "top_3" Sample.three_labels_dict = Some (top_3_val top_3).
Proof.
  assert (Sample.three_labels_run
          = (Ok Sample.three_labels_dict, Sample.three_labels_run.2)) as H
    by (vm_compute; reflexivity).
  assert (str_field "status" Sample.three_labels_dict = Some "success"
          ∨ str_field "status" Sample.three_labels_dict = Some "warning") as H'
    by (left; vm_compute; reflexivity).
  split; [exact H|]. split; [exact H'|].
  destruct (proj1 (proj2 top_3_can_be_none_in_a_success_result)
              Sample.rt_three_labels Sample.three_labels "leaf.jpg" false
              (AFloat (mkQc 1 2)) 0%Z Sample.s0 Sample.three_labels_run.2
              Sample.three_labels_dict H H')
    as (top_3 & s1 & s2 & Htop & Hattached & _).
  exists top_3, s1, s2. split; [exact Htop|exact Hattached].
Defined.

(** ** Confidence and probability *)






(** ** Argsort and the top-3 order *)


Lemma insert_asc_perm (x : nat * Qc) (l : list (nat * Qc)) :
  Np.insert_asc x l ≡ₚ x :: l.
Proof.
  induction l as [|y l IH]; cbn; [done|].
  destruct (Qc_ltb y.2 x.2); [|done].
  rewrite IH. apply Permutation_swap.
Qed.

Lemma insertion_sort_perm (l : list (nat * Qc)) :
  foldr Np.insert_asc [] l ≡ₚ l.
Proof.
  induction l as [|x l IH]; cbn; [done|].
  by rewrite insert_asc_perm, IH.
Qed.

Lemma insert_asc_sorted (x : nat * Qc) (l : list (nat * Qc)) :
  StronglySorted sorts_before l →
  Forall (λ y, x.1 < y.1) l →
  StronglySorted sorts_before (Np.insert_asc x l).
Proof.
  induction 1 as [|y l Hl IH Hy]; intros Hx; cbn.
  - repeat constructor.
  - apply Forall_cons in Hx as [Hxy Hx].
    unfold Qc_ltb. case_bool_decide as Hlt.
    + constructor; [by apply IH|].
      rewrite insert_asc_perm. constructor; [by left|done].
    + apply Qcnot_lt_le in Hlt.
      assert (sorts_before x y) as Hfirst.
      { destruct (Qcle_lt_or_eq _ _ Hlt) as [?|?]; [by left|by right]. }
      constructor; [by constructor|].
      constructor; [done|].
      rewrite Forall_forall in Hy, Hx |- *. intros z Hz.
      specialize (Hy z Hz). specialize (Hx z Hz).
      unfold sorts_before. destruct Hy as [Hyz|[Hyz _]].
      * left. by eapply Qcle_lt_trans.
      * rewrite <- Hyz.
        destruct (Qcle_lt_or_eq _ _ Hlt) as [?|?]; [by left|by right].
Qed.

Lemma elem_of_enumerate_from (k : nat) (xs : list Qc) (i : nat) (p : Qc) :
  (i, p) ∈ Np.enumerate_from k xs ↔ k ≤ i ∧ xs !! (i - k) = Some p.
Proof.
  revert k. induction xs as [|x xs IH]; intros k; cbn.
  - rewrite elem_of_nil. split; [done|]. by intros [_ ?].
  - rewrite elem_of_cons, IH. split.
    + intros [[= -> ->]|[Hk Hp]].
      * split; [lia|]. by rewrite Nat.sub_diag.
      * split; [lia|]. by replace (i - k) with (S (i - S k)) by lia.
    + intros [Hk Hp]. destruct (decide (i = k)) as [->|Hne].
      * left. rewrite Nat.sub_diag in Hp. by injection Hp as ->.
      * right. split; [lia|].
        by replace (i - k) with (S (i - S k)) in Hp by lia.
Qed.

Lemma fst_enumerate_from (k : nat) (xs : list Qc) :
  (Np.enumerate_from k xs).*1 = seq k (length xs).
Proof.
  revert k. induction xs as [|x xs IH]; intros k; cbn; [done|]. by rewrite IH.
Qed.

Lemma insertion_sort_sorted (k : nat) (xs : list Qc) :
  StronglySorted sorts_before (foldr Np.insert_asc [] (Np.enumerate_from k xs)).
Proof.
  revert k. induction xs as [|x xs IH]; intros k; cbn; [constructor|].
  apply insert_asc_sorted; [apply IH|].
  rewrite insertion_sort_perm. apply Forall_forall. intros [i p] Hi.
  apply elem_of_enumerate_from in Hi. cbn. lia.
Qed.


Lemma elem_of_sorted_pairs (row : list Qc) (i : nat) (p : Qc) :
  (i, p) ∈ sorted_pairs row ↔ row !! i = Some p.
Proof.
  unfold sorted_pairs. rewrite insertion_sort_perm, elem_of_enumerate_from.
  rewrite Nat.sub_0_r. split; [by intros [_ ?]|]. intros ?; split; [lia|done].
Qed.

Lemma fst_sorted_pairs_perm (row : list Qc) :
  (sorted_pairs row).*1 ≡ₚ seq 0 (length row).
Proof.
  unfold sorted_pairs. rewrite insertion_sort_perm. by rewrite fst_enumerate_from.
Qed.

Lemma length_sorted_pairs (row : list Qc) :
  length (sorted_pairs row) = length row.
Proof.
  rewrite <- (length_fmap fst), fst_sorted_pairs_perm. apply length_seq.
Qed.

Lemma StronglySorted_lookup {A} (R : relation A) (l : list A) (a b : nat) (x y : A) :
  StronglySorted R l → a < b → l !! a = Some x → l !! b = Some y → R x y.
Proof.
  intros Hl. revert a b. induction Hl as [|z l Hl IH Hz]; intros a b Hab Ha Hb.
  - done.
  - destruct b as [|b]; [lia|]. destruct a as [|a]; cbn in *.
    + injection Ha as ->. rewrite Forall_forall in Hz.
      apply Hz. by eapply list_elem_of_lookup_2.
    + apply (IH a b); [lia|done..].
Qed.

(** The positions [np.argsort(row)[-3:][::-1]]: as many as there are
    values, up to three; each position once; in the top-3 order; and ranking
    before every position that is left out. *)
Lemma top_3_idx_spec (row : list Qc) :
  let idxs := Np.reversed (Np.last3 (Np.argsort row)) in
  length idxs = Nat.min 3 (length row)
  ∧ NoDup idxs
  ∧ (∀ a b i j, a < b → idxs !! a = Some i → idxs !! b = Some j →
       ranks_before row i j)
  ∧ (∀ i j, i ∈ idxs → j < length row → j ∉ idxs → ranks_before row i j).
Proof.
  intros idxs.
  set (L := sorted_pairs row).
  set (n := length row).
  set (T := drop (n - 3) L).
  assert (idxs = reverse (T.*1)) as Hidxs.
  { unfold idxs, Np.reversed, Np.last3, Np.argsort. fold (sorted_pairs row). fold L.
    rewrite length_fmap. unfold L at 1. rewrite length_sorted_pairs. fold n.
    unfold T. by rewrite fmap_drop. }
  assert (L = take (n - 3) L ++ T) as HL by (unfold T; by rewrite take_drop).
  assert (StronglySorted sorts_before L) as Hsorted
    by apply insertion_sort_sorted.
  assert (NoDup (L.*1)) as Hnodup.
  { unfold L. rewrite fst_sorted_pairs_perm. apply NoDup_seq. }
  assert (∀ i, i ∈ idxs ↔ ∃ p, (i, p) ∈ T) as Hin.
  { intros i. rewrite Hidxs, elem_of_reverse, list_elem_of_fmap. split.
    - intros ([i' p] & -> & ?). by eauto.
    - intros [p ?]. by exists (i, p). }
  assert (∀ i p, (i, p) ∈ T → row !! i = Some p) as HT.
  { intros i p Hi. apply elem_of_sorted_pairs. fold L. rewrite HL.
    apply elem_of_app. by right. }
  split; [|split; [|split]].
  - rewrite Hidxs, length_reverse, length_fmap. unfold T.
    rewrite length_drop. unfold L. rewrite length_sorted_pairs. fold n. lia.
  - rewrite Hidxs, reverse_Permutation.
    rewrite HL, fmap_app in Hnodup. by apply NoDup_app in Hnodup as (_ & _ & ?).
  - intros a b i j Hab Ha Hb. rewrite Hidxs in Ha, Hb.
    apply reverse_lookup_Some in Ha as [Ha Hla], Hb as [Hb Hlb].
    rewrite list_lookup_fmap in Ha, Hb.
    destruct (T !! _) as [[i' p]|] eqn:Hi in Ha; [|done]. injection Ha as ->.
    destruct (T !! _) as [[j' q]|] eqn:Hj in Hb; [|done]. injection Hb as ->.
    assert (sorts_before (j, q) (i, p)) as Hord.
    { rewrite HL in Hsorted. apply StronglySorted_app_1_r in Hsorted.
      eapply (StronglySorted_lookup _ T); [done| |exact Hj|exact Hi]. lia. }
    exists p, q. split; [by eapply HT, list_elem_of_lookup_2|].
    split; [by eapply HT, list_elem_of_lookup_2|]. exact Hord.
  - intros i j Hi Hj Hnot. apply Hin in Hi as [p Hi].
    destruct (lookup_lt_is_Some_2 row j Hj) as [q Hq].
    assert ((j, q) ∈ take (n - 3) L) as Hhead.
    { apply elem_of_sorted_pairs in Hq. fold L in Hq. rewrite HL in Hq.
      apply elem_of_app in Hq as [?|Hq]; [done|].
      destruct Hnot. apply Hin. by eauto. }
    rewrite HL in Hsorted.
    pose proof (StronglySorted_app_1_elem_of _ _ _ _ _ Hsorted Hhead Hi) as Hord.
    exists p, q. split; [by apply HT|]. split; [done|]. exact Hord.
Qed.


(** ** Dictionaries with distinct keys *)

Lemma dict_set_fresh {V} (k : string) (v : V) (d : list (string * V)) :
  k ∉ d.*1 → dict_set k v d = d ++ [(k, v)].
Proof.
  induction d as [|[k' v'] d IH]; cbn; [done|].
  rewrite not_elem_of_cons. intros [Hne Hnot].
  destruct (decide (k = k')); [done|]. by rewrite IH.
Qed.

Lemma foldl_dict_set_nodup {V} (acc l : list (string * V)) :
  NoDup ((acc ++ l).*1) →
  foldl (λ d kv, dict_set kv.1 kv.2 d) acc l = acc ++ l.
Proof.
  revert acc. induction l as [|[k v] l IH]; intros acc Hnd; cbn.
  - by rewrite app_nil_r.
  - rewrite dict_set_fresh.
    + rewrite IH; rewrite <- app_assoc; done.
    + rewrite fmap_app in Hnd. apply NoDup_app in Hnd as (_ & Hnd & _).
      intros Hin. apply (Hnd k Hin). cbn. by left.
Qed.

(** [dict(items)] of items with distinct keys is the items. *)
Lemma dict_of_items_nodup {V} (l : list (string * V)) :
  NoDup (l.*1) → dict_of_items l = l.
Proof. intros Hnd. unfold dict_of_items. by rewrite foldl_dict_set_nodup. Qed.



Lemma insert_desc_perm {K} (x : K * Qc) (l : list (K * Qc)) :
  insert_desc x l ≡ₚ x :: l.
Proof.
  induction l as [|y l IH]; cbn; [done|].
  destruct (Qc_ltb x.2 y.2); [|done].
  rewrite IH. apply Permutation_swap.
Qed.

Lemma sorted_by_value_desc_perm {K} (l : list (K * Qc)) :
  sorted_by_value_desc l ≡ₚ l.
Proof.
  unfold sorted_by_value_desc. induction l as [|x l IH]; cbn; [done|].
  by rewrite insert_desc_perm, IH.
Qed.

(** The items of the probabilities comprehension over a list of labels. *)
Lemma label_items_spec (l : list string) (row : list Qc) (idx : list nat)
    (items : list (string * Qc)) :
  label_items (LabelList l) row idx = Ok items →
  Forall2 (λ i kv, l !! i = Some kv.1 ∧ row !! i = Some kv.2) idx items.
Proof.
  revert items. induction idx as [|i idx IH]; intros items; cbn.
  - intros [= <-]. constructor.
  - unfold Np.index.
    destruct (l !! i) as [k|] eqn:Hk; [|done].
    destruct (row !! i) as [v|] eqn:Hv; [|done].
    destruct (label_items (LabelList l) row idx) as [items'|]; [|done].
    intros [= <-]. constructor; [done|]. by apply IH.
Qed.





(** ** Rounding in float32 *)

(** In float32 the product [confidence * 100] is rounded: for the
    probability 0.9 (as a float32) it is exactly 90, which is more than
    2e-6 away from 100 times the probability. The equality of confidence
    and 100 times probability proved above is that of exact arithmetic. *)
Remark float32_product_is_rounded :
  valid_binary Float32.prec Float32.emax Float32.nine_tenths = true
  ∧ Float32.to_Qc (Float32.mul Float32.nine_tenths (Float32.of_Z 100))
    = Some (Qc_of_Z 90)
  ∧ ∃ p, Float32.to_Qc Float32.nine_tenths = Some p
         ∧ (mkQc 2 1000000 < Qc_of_Z 90 - p * Qc_of_Z 100)%Qc.
Proof.
  split; [by vm_compute|].
  split; [apply (bool_decide_unpack _); by vm_compute|].
  eexists. split; [reflexivity|]. by vm_compute.
Qed.

(** ** Label files that are JSON but not a list of strings *)

(** A label file holding a list with a number in it falls back to the
    default labels; one holding a JSON object does not: [', '.join] accepts
    the object (it joins the keys) and the object stays as [self.classes]. *)
Remark label_file_with_other_json :
  joinable (JArray [JItemStr "Healthy"; JItemOther "int"])
  = Raise (Exn "TypeError" "sequence item 1: expected str instance, int found")
  ∧ joinable JNull = Raise (Exn "TypeError" "can only join an iterable")
  ∧ joinable (JObject ["Healthy"; "Mosaic"]) = Ok (LabelDict ["Healthy"; "Mosaic"])
  ∧ labels_getitem (LabelDict ["Healthy"; "Mosaic"]) 0
    = Raise (Exn "KeyError" "0").
Proof. repeat split. Qed.

(** ** Quarter turns *)

(** [Tf.rot90] on a 2x2 image: one turn brings the right column to the top
    (counter-clockwise), two turns reverse both axes, three turns bring the
    left column to the top, four turns and no turn leave the image. *)
Remark rot90_two_by_two (a b c d : pixel) :
  Tf.rot90 [[a; b]; [c; d]] 0 = [[a; b]; [c; d]]
  ∧ Tf.rot90 [[a; b]; [c; d]] 1 = [[b; d]; [a; c]]
  ∧ Tf.rot90 [[a; b]; [c; d]] 2 = [[d; c]; [b; a]]
  ∧ Tf.rot90 [[a; b]; [c; d]] 3 = [[c; a]; [d; b]]
  ∧ Tf.rot90 [[a; b]; [c; d]] 4 = [[a; b]; [c; d]]
  ∧ Tf.rot90 (Tf.rot90 [[a; b]; [c; d]] 1) 1 = Tf.rot90 [[a; b]; [c; d]] 2
  ∧ Tf.rot90 (Tf.rot90 [[a; b]; [c; d]] 2) 1 = Tf.rot90 [[a; b]; [c; d]] 3.
Proof. repeat split. Qed.

(** ** Construction *)

Lemma set_preprocess_function_inv
    (rt : Runtime) (self self1 : manager) (s s1 : state batch) :
  _set_preprocess_function rt self s = (Ok self1, s1) →
  (∃ f, self1 = set_preprocess_fn self f) ∧ rng s1 = rng s ∧ fed s1 = fed s.
Proof.
  unfold _set_preprocess_function. munfold.
  repeat match goal with
  | |- context [if contains ?a ?b then _ else _] => destruct (contains a b)
  | |- context [import_preprocess_input rt ?m] =>
      destruct (import_preprocess_input rt m); cbn
  end; intros [= <- <-]; (split; [by eexists|done]) || done.
Qed.

Lemma set_preprocess_function_raise
    (rt : Runtime) (self : manager) (s s1 : state batch) (e : exn) :
  _set_preprocess_function rt self s = (Raise e, s1) →
  ∃ module, import_preprocess_input rt module = Raise e.
Proof.
  unfold _set_preprocess_function. munfold.
  repeat match goal with
  | |- context [if contains ?a ?b then _ else _] => destruct (contains a b)
  | |- context [import_preprocess_input rt ?m] =>
      destruct (import_preprocess_input rt m) eqn:?; cbn
  end; intros [= <- <-] || intros [=]; by eexists.
Qed.

Lemma load_model_cases (rt : Runtime) (self : manager) (s : state batch) :
  ∃ s', rng s' = rng s ∧ fed s' = fed s
    ∧ _load_model rt self s
      = (if os_path_exists rt (model_path self)
         then match keras_load_model rt (model_path self) with
              | Ok m => Ok (set_model self m)
              | Raise e => Raise e
              end
         else Raise (Exn "FileNotFoundError"
                       ("Modelo no encontrado en: " +:+ model_path self)), s')
    ∧ ((∀ self1, _load_model rt self s ≠ (Ok self1, s')) →
       ∃ msg, last (log s') = Some (ERROR, "❌ Error al cargar el modelo: " +:+ msg)).
Proof.
  unfold _load_model. munfold.
  destruct (os_path_exists rt (model_path self)); cbn.
  - destruct (keras_load_model rt (model_path self)) as [m|e]; cbn.
    + eexists. split; [|split; [|split; [reflexivity|]]]; [done..|].
      intros H. by destruct (H (set_model self m)).
    + eexists. split; [|split; [|split; [reflexivity|]]]; [done..|].
      intros _. exists (str_exn e). cbn. by rewrite last_snoc.
  - eexists. split; [|split; [|split; [reflexivity|]]]; [done..|].
    intros _. eexists. cbn. by rewrite last_snoc.
Qed.

Lemma load_classes_inv
    (rt : Runtime) (self self1 : manager) (s s1 : state batch) :
  _load_classes rt self s = (Ok self1, s1) →
  ∃ c, self1 = set_classes self c
       ∧ (c = LabelList Config.DEFAULT_CLASSES
          ∨ ∃ f x, open_read rt (classes_path self) = Ok f
                   ∧ json_load rt f = Ok x ∧ joinable x = Ok c).
Proof.
  unfold _load_classes. munfold.
  destruct (os_path_exists rt (classes_path self)); cbn.
  - destruct (open_read rt (classes_path self)) as [f|e] eqn:Hf; cbn.
    2:{ intros [= <- <-]. eexists. split; [done|by left]. }
    destruct (json_load rt f) as [x|e] eqn:Hx; cbn.
    2:{ intros [= <- <-]. eexists. split; [done|by left]. }
    destruct (joinable x) as [c|e] eqn:Hc; cbn.
    2:{ intros [= <- <-]. eexists. split; [done|by left]. }
    intros [= <- <-]. eexists. split; [done|]. right. by eauto.
  - intros [= <- <-]. eexists. split; [done|by left].
Qed.

(** X1. A manager that [__init__] returns is fully initialised: it keeps
    the four arguments, the model file existed and its Keras model is
    loaded, a preprocessing function is installed, and the classes are
    either the default list or what the label file held. Construction
    draws no random number and runs no inference. [get_model_info] of such
    a manager therefore reports the model's name and shapes (never
    [None]) and as many classes as [get_classes] returns. *)
Theorem constructed_manager_is_loaded
    (rt : Runtime) (mp cp : string) (sz : Z * Z) (mt : string)
    (s s' : state batch) (self : manager) :
  __init__ rt mp cp sz mt s = (Ok self, s') →
  model_path self = mp ∧ classes_path self = cp
  ∧ img_size self = sz ∧ model_type self = mt
  ∧ os_path_exists rt mp = true
  ∧ (∃ m, keras_load_model rt mp = Ok m ∧ model self = Some m
          ∧ info_name (get_model_info self) = Some (name m)
          ∧ info_input_shape (get_model_info self) = Some (input_shape m)
          ∧ info_output_shape (get_model_info self) = Some (output_shape m))
  ∧ is_Some (preprocess_fn self)
  ∧ (get_classes self = LabelList Config.DEFAULT_CLASSES
     ∨ ∃ f x, open_read rt cp = Ok f ∧ json_load rt f = Ok x
              ∧ joinable x = Ok (get_classes self))
  ∧ info_classes (get_model_info self) = get_classes self
  ∧ info_num_classes (get_model_info self) = labels_len (get_classes self)
  ∧ rng s' = rng s ∧ fed s' = fed s.
Proof.
  unfold __init__.
  unfold mbind at 1, M_bind, bind at 1.
  destruct (_set_preprocess_function rt _ s) as [[self1|e] s1] eqn:H1; [|done].
  apply set_preprocess_function_inv in H1 as ([f ->] & Hr1 & Hf1).
  unfold mbind at 1, bind at 1.
  destruct (load_model_cases rt
              (set_preprocess_fn (Manager mp cp sz mt None (LabelList []) None) f) s1)
    as (s2 & Hr2 & Hf2 & H2 & _).
  rewrite H2. cbn [model_path set_preprocess_fn].
  destruct (os_path_exists rt mp) eqn:Hex; [|done].
  destruct (keras_load_model rt mp) as [m|e] eqn:Hm; [|done].
  intros H3.
  destruct (load_classes_total rt
              (set_model (set_preprocess_fn
                            (Manager mp cp sz mt None (LabelList []) None) f) m) s2)
    as (c' & s3 & H3' & Hr3 & Hf3).
  apply load_classes_inv in H3 as Hc. destruct Hc as (c & -> & Hc).
  rewrite H3' in H3. injection H3 as _ <-.
  repeat (split; [done|]).
  split; [by exists m|]. split; [by eexists|].
  split; [exact Hc|].
  split; [done|]. split; [done|]. split; congruence.
Qed.

Lemma constructed_manager_is_loaded_witness :
  ∃ m, model (Sample.constructed Sample.rt_no_labels "ResNet50") = Some m
       ∧ info_name (get_model_info (Sample.constructed Sample.rt_no_labels "ResNet50"))
         = Some (name m).
Proof.
  assert (__init__ Sample.rt_no_labels "model.keras" "classes.json" (224, 224)%Z
            "ResNet50" Sample.s0
          = (Ok (Sample.constructed Sample.rt_no_labels "ResNet50"),
             (__init__ Sample.rt_no_labels "model.keras" "classes.json"
                (224, 224)%Z "ResNet50" Sample.s0).2)) as H
    by (vm_compute; reflexivity).
  destruct (constructed_manager_is_loaded _ _ _ _ _ _ _ _ H)
    as (_ & _ & _ & _ & _ & (m & _ & Hm & Hn & _) & _).
  exists m. split; [exact Hm|exact Hn].
Defined.

(** X2. Without the model file construction fails: [__init__] raises, and
    the exception is the [FileNotFoundError] of [_load_model] with the
    path in its message, unless importing the family's preprocessing had
    already failed. When the file exists and Keras cannot load it, the
    exception of Keras comes out unchanged. In both cases the failure of
    [_load_model] is the last record of the log, an error. *)
Theorem construction_fails_when_the_model_does_not_load
    (rt : Runtime) (mp cp : string) (sz : Z * Z) (mt : string) (s : state batch) :
  (os_path_exists rt mp = false ∨ ∃ e, keras_load_model rt mp = Raise e) →
  ∃ e s',
    __init__ rt mp cp sz mt s = (Raise e, s')
    ∧ ((∃ module, import_preprocess_input rt module = Raise e)
       ∨ ((os_path_exists rt mp = false →
           e = Exn "FileNotFoundError" ("Modelo no encontrado en: " +:+ mp))
          ∧ (os_path_exists rt mp = true → keras_load_model rt mp = Raise e)
          ∧ last (log s')
            = Some (ERROR, "❌ Error al cargar el modelo: " +:+ str_exn e))).
Proof.
  intros Hfail. unfold __init__.
  unfold mbind at 1, M_bind, bind at 1.
  destruct (_set_preprocess_function rt _ s) as [[self1|e] s1] eqn:H1.
  2:{ exists e, s1. split; [done|]. left.
      by eapply set_preprocess_function_raise. }
  apply set_preprocess_function_inv in H1 as ([f ->] & _ & _).
  unfold mbind at 1, bind at 1.
  unfold _load_model. munfold. cbn [model_path set_preprocess_fn].
  destruct (os_path_exists rt mp) eqn:Hex; cbn.
  - destruct Hfail as [|[e He]]; [done|]. rewrite He. cbn.
    exists e. eexists. split; [reflexivity|]. right.
    split; [done|]. split; [done|]. cbn. by rewrite last_snoc.
  - eexists _, _. split; [reflexivity|]. right.
    split; [done|]. split; [done|]. cbn. by rewrite last_snoc.
Qed.

Lemma construction_fails_when_the_model_does_not_load_witness :
  ∃ e s', __init__ Sample.rt_no_labels "other.keras" "classes.json" (224, 224)%Z
            "custom" Sample.s0 = (Raise e, s').
Proof.
  destruct (construction_fails_when_the_model_does_not_load
              Sample.rt_no_labels "other.keras" "classes.json" (224, 224)%Z
              "custom" Sample.s0 (or_introl eq_refl))
    as (e & s' & H & _).
  exists e, s'. exact H.
Defined.

(** ** The probabilities mapping *)

Lemma dict_set_keys {V} (k : string) (v : V) (d : list (string * V)) :
  (dict_set k v d).*1 = if decide (k ∈ d.*1) then d.*1 else d.*1 ++ [k].
Proof.
  induction d as [|[k' v'] d IH]; cbn.
  - by rewrite decide_False by apply not_elem_of_nil.
  - destruct (decide (k = k')) as [->|Hne]; cbn.
    + by rewrite decide_True by (apply elem_of_cons; by left).
    + rewrite IH. destruct (decide (k ∈ d.*1)) as [Hin|Hnin].
      * by rewrite decide_True by (apply elem_of_cons; by right).
      * rewrite decide_False; [done|].
        intros [?|?]%elem_of_cons; done.
Qed.

Lemma foldl_dict_set_keys {V} (l acc : list (string * V)) :
  NoDup acc.*1 →
  NoDup (foldl (λ d kv, dict_set kv.1 kv.2 d) acc l).*1
  ∧ ∀ k, k ∈ (foldl (λ d kv, dict_set kv.1 kv.2 d) acc l).*1
         ↔ k ∈ acc.*1 ∨ k ∈ l.*1.
Proof.
  revert acc. induction l as [|[k v] l IH]; intros acc Hnd; cbn.
  - split; [done|]. intros k'. rewrite elem_of_nil. tauto.
  - destruct (IH (dict_set k v acc)) as [Hnd' Hin].
    { rewrite dict_set_keys. case_decide; [done|].
      apply NoDup_app. split; [done|]. split.
      - intros x Hx ->%list_elem_of_singleton. done.
      - apply NoDup_singleton. }
    split; [done|]. intros k'. rewrite Hin, dict_set_keys, elem_of_cons.
    case_decide as Hk.
    + split; [tauto|]. intros [?|[->|?]]; tauto.
    + rewrite elem_of_app, list_elem_of_singleton. tauto.
Qed.

Lemma dict_of_items_keys {V} (l : list (string * V)) :
  NoDup (dict_of_items l).*1 ∧ ∀ k, k ∈ (dict_of_items l).*1 ↔ k ∈ l.*1.
Proof.
  destruct (foldl_dict_set_keys l []) as [Hnd Hin]; [apply NoDup_nil_2|].
  split; [done|]. intros k. unfold dict_of_items. rewrite Hin. cbn.
  rewrite elem_of_nil. tauto.
Qed.

Lemma insert_desc_sorted (x : string * Qc) (l : list (string * Qc)) :
  descending l → descending (insert_desc x l).
Proof.
  unfold descending. induction 1 as [|y l Hl IH Hy]; cbn.
  - repeat constructor.
  - unfold Qc_ltb. case_bool_decide as Hlt.
    + constructor; [done|].
      rewrite (insert_desc_perm x l). constructor; [|done].
      by apply Qclt_le_weak.
    + apply Qcnot_lt_le in Hlt. constructor; [by constructor|].
      constructor; [done|].
      eapply Forall_impl; [exact Hy|]. intros z Hz. cbn in Hz |- *.
      by eapply Qcle_trans.
Qed.

Lemma sorted_by_value_desc_sorted (l : list (string * Qc)) :
  descending (sorted_by_value_desc l).
Proof.
  induction l as [|x l IH]; cbn; [constructor|]. by apply insert_desc_sorted.
Qed.

Lemma sort_probabilities_nodup (probs : list (string * Qc)) :
  NoDup probs.*1 → sort_probabilities probs = sorted_by_value_desc probs.
Proof.
  intros Hnd. unfold sort_probabilities. apply dict_of_items_nodup.
  by rewrite (sorted_by_value_desc_perm probs).
Qed.

(** The keys of the dictionary comprehension are the labels. *)
Lemma label_items_keys (c : labels) (row : list Qc) (items : list (string * Qc)) :
  label_items c row (seq 0 (labels_len c)) = Ok items →
  items.*1 = labels_iter c.
Proof.
  destruct c as [l|keys]; cbn [labels_len labels_iter].
  - intros H%label_items_spec.
    apply list_eq. intros i. rewrite list_lookup_fmap.
    destruct (items !! i) as [kv|] eqn:Hi; cbn.
    + destruct (Forall2_lookup_r _ _ _ _ _ H Hi) as (j & Hj & Hl & _).
      apply lookup_seq in Hj as [Heq _]. cbn in Heq. subst j. by rewrite Hl.
    + apply lookup_ge_None in Hi. symmetry. apply lookup_ge_None.
      apply Forall2_length in H. rewrite length_seq in H. lia.
  - destruct keys as [|k keys]; cbn; [by intros [= <-]|done].
Qed.

Lemma label_probabilities_sorted (c : labels) (row : list Qc)
    (probs : list (string * Qc)) :
  label_probabilities c row = Ok probs →
  NoDup (sort_probabilities probs).*1
  ∧ descending (sort_probabilities probs)
  ∧ ∀ k, k ∈ (sort_probabilities probs).*1 ↔ k ∈ labels_iter c.
Proof.
  unfold label_probabilities.
  destruct (label_items c row _) as [items|] eqn:Hitems; [|done].
  intros [= <-]. apply label_items_keys in Hitems.
  destruct (dict_of_items_keys items) as [Hnd Hin].
  rewrite sort_probabilities_nodup by done.
  split; [by rewrite (sorted_by_value_desc_perm (dict_of_items items))|].
  split; [apply sorted_by_value_desc_sorted|].
  intros k. rewrite (sorted_by_value_desc_perm (dict_of_items items)), Hin.
  by rewrite Hitems.
Qed.

(** What [predict] does, as a function of the world. *)
Lemma predict_spec (rt : Runtime) (self : manager) (path : string)
    (s : state batch) :
  ∃ s', predict rt self path s = (basic_result rt self path, s')
        ∧ rng s' = rng s
        ∧ (∀ img, pil_pixels rt self path = Ok img → is_Some (model self) →
             fed s' = fed s ++ [Tf.expand_dims0 img])
        ∧ (∀ r, basic_result rt self path = Ok r → log s' ≠ log s)
        ∧ (∀ e, basic_result rt self path = Raise e →
             last (log s') = Some (ERROR, "❌ Error en predicción: " +:+ str_exn e)).
Proof.
  unfold predict, preprocess_image, basic_result, pil_pixels, model_predict,
    model_row.
  munfold.
  destruct (Image_open rt path) as [img|e]; cbn.
  2:{ eexists. split; [reflexivity|]. split; [done|]. split; [done|].
      split; [done|]. intros ? [= <-]. cbn. by rewrite last_snoc. }
  destruct (if bool_decide (mode img ≠ "RGB") then Image_convert rt img "RGB"
            else Ok img) as [img1|e] eqn:Hconv.
  2:{ replace ((if bool_decide (mode img ≠ "RGB")
                then λ s0 : state batch, (Image_convert rt img "RGB", s0)
                else λ s0 : state batch, (Ok img, s0)) s)
        with (Raise (A:=pil_image) e, s)
        by (destruct (bool_decide (mode img ≠ "RGB")); by rewrite <- Hconv).
      cbn. eexists. split; [reflexivity|]. split; [done|]. split; [done|].
      split; [done|]. intros ? [= <-]. cbn. by rewrite last_snoc. }
  replace ((if bool_decide (mode img ≠ "RGB")
            then λ s0 : state batch, (Image_convert rt img "RGB", s0)
            else λ s0 : state batch, (Ok img, s0)) s)
    with (Ok img1, s)
    by (destruct (bool_decide (mode img ≠ "RGB")); by rewrite <- Hconv).
  cbn.
  destruct (Image_resize rt img1 (img_size self)) as [img2|e]; cbn.
  2:{ eexists. split; [reflexivity|]. split; [done|]. split; [done|].
      split; [done|]. intros ? [= <-]. cbn. by rewrite last_snoc. }
  destruct (model self) as [m|]; cbn.
  2:{ eexists. split; [reflexivity|]. split; [done|].
      split; [by intros ? _ [? ?]|].
      split; [done|]. intros ? [= <-]. cbn. by rewrite last_snoc. }
  destruct (run m _) as [rows|e]; cbn.
  2:{ eexists. split; [reflexivity|]. split; [done|].
      split; [by intros ? [= <-] _|].
      split; [done|]. intros ? [= <-]. cbn. by rewrite last_snoc. }
  destruct (Np.index rows 0) as [row|e]; cbn.
  2:{ eexists. split; [reflexivity|]. split; [done|].
      split; [by intros ? [= <-] _|].
      split; [done|]. intros ? [= <-]. cbn. by rewrite last_snoc. }
  destruct (Np.argmax row) as [idx|e]; cbn.
  2:{ eexists. split; [reflexivity|]. split; [done|].
      split; [by intros ? [= <-] _|].
      split; [done|]. intros ? [= <-]. cbn. by rewrite last_snoc. }
  destruct (labels_getitem (classes self) idx) as [label|e]; cbn.
  2:{ eexists. split; [reflexivity|]. split; [done|].
      split; [by intros ? [= <-] _|].
      split; [done|]. intros ? [= <-]. cbn. by rewrite last_snoc. }
  destruct (Np.index row idx) as [p|e]; cbn.
  2:{ eexists. split; [reflexivity|]. split; [done|].
      split; [by intros ? [= <-] _|].
      split; [done|]. intros ? [= <-]. cbn. by rewrite last_snoc. }
  destruct (label_probabilities (classes self) row) as [probs|e]; cbn.
  2:{ eexists. split; [reflexivity|]. split; [done|].
      split; [by intros ? [= <-] _|].
      split; [done|]. intros ? [= <-]. cbn. by rewrite last_snoc. }
  eexists. split; [reflexivity|]. split; [done|].
  split; [by intros ? [= <-] _|].
  split; [|done]. intros _ _. cbn. intros H.
  apply (f_equal length) in H. rewrite length_app in H. cbn in H. lia.
Qed.

(** X3. In every result of [predict], [predict_single_direct] and
    [predict_with_tta] the probabilities mapping has one entry per
    distinct label, its keys are exactly the labels of the manager, and
    its entries come in descending order of probability. *)
Theorem probabilities_mapping_is_sorted_over_the_labels
    (rt : Runtime) (self : manager) (path : string) (r : dict) :
  prediction_of rt self path r →
  ∃ d, dict_get "probabilities" r = Some (float_dict d)
       ∧ NoDup d.*1
       ∧ descending d
       ∧ (∀ k, k ∈ d.*1 ↔ k ∈ labels_iter (get_classes self))
       ∧ (NoDup (labels_iter (get_classes self)) →
          length d = labels_len (get_classes self)).
Proof.
  assert (∀ row probs,
            label_probabilities (classes self) row = Ok probs →
            NoDup (sort_probabilities probs).*1
            ∧ descending (sort_probabilities probs)
            ∧ (∀ k, k ∈ (sort_probabilities probs).*1
                    ↔ k ∈ labels_iter (get_classes self))
            ∧ (NoDup (labels_iter (get_classes self)) →
               length (sort_probabilities probs) = labels_len (get_classes self)))
    as Hkey.
  { intros row probs H.
    destruct (label_probabilities_sorted _ _ _ H) as (Hnd & Hd & Hin).
    repeat (split; [done|]). intros Hl.
    rewrite <- (length_fmap fst).
    assert ((sort_probabilities probs).*1 ≡ₚ labels_iter (get_classes self)) as ->
      by (by apply NoDup_Permutation).
    unfold get_classes. by destruct (classes self). }
  intros [(s & s' & H)|[(s & s' & H)|(K & s & s' & H)]].
  - destruct (predict_spec rt self path s) as (s1 & Hspec & _).
    rewrite H in Hspec. injection Hspec as Hr _.
    unfold basic_result in Hr.
    destruct (pil_pixels rt self path); [|done].
    destruct (model_row self _) as [row|]; [|done].
    destruct (Np.argmax row); [|done].
    destruct (labels_getitem _ _); [|done].
    destruct (Np.index row _); [|done].
    destruct (label_probabilities _ row) as [probs|] eqn:Hp; [|done].
    injection Hr as ->. exists (sort_probabilities probs).
    split; [reflexivity|]. by eapply Hkey.
  - destruct (predict_single_direct_spec rt self path s) as (s1 & Hspec & _).
    rewrite H in Hspec. injection Hspec as Hr _.
    unfold direct_result in Hr.
    destruct (normalised_image rt self path); [|done].
    destruct (model_row self _) as [row|]; [|done].
    destruct (prediction_result self row) as [r0|] eqn:Hr0; [|done].
    injection Hr as ->.
    apply prediction_result_inv in Hr0 as (? & ? & ? & probs & _ & _ & _ & Hp & ->).
    exists (sort_probabilities probs). split; [reflexivity|]. by eapply Hkey.
  - destruct (predict_with_tta_spec rt self path K s) as (s1 & Hspec & _).
    rewrite H in Hspec. injection Hspec as Hr _.
    unfold tta_result in Hr.
    destruct (normalised_image rt self path); [|done].
    destruct (rows_of self _) as [rows|]; [|done].
    destruct (Np.mean_axis0 rows) as [avg|]; [|done].
    destruct (prediction_result self avg) as [r0|] eqn:Hr0; [|done].
    injection Hr as ->.
    apply prediction_result_inv in Hr0 as (? & ? & ? & probs & _ & _ & _ & Hp & ->).
    exists (sort_probabilities probs). split; [reflexivity|]. by eapply Hkey.
Qed.

Lemma probabilities_mapping_is_sorted_over_the_labels_witness :
  ∃ d, dict_get "probabilities" Sample.tta_dict = Some (float_dict d)
       ∧ descending d.
Proof.
  assert (prediction_of Sample.rt_custom Sample.custom "leaf.jpg" Sample.tta_dict)
    as H.
  { right. right. exists 2%Z, Sample.s0, Sample.tta_run.2.
    vm_compute. reflexivity. }
  destruct (probabilities_mapping_is_sorted_over_the_labels _ _ _ _ H)
    as (d & Hd & _ & Hs & _).
  exists d. split; [exact Hd|exact Hs].
Defined.

(** The first entry of a stable descending sort is the first entry of
    largest value. *)
Lemma sorted_by_value_desc_head (items : list (string * Qc)) (i : nat)
    (x : string * Qc) :
  items !! i = Some x →
  (∀ j y, items !! j = Some y → (y.2 ≤ x.2)%Qc ∧ (j < i → (y.2 < x.2)%Qc)) →
  head (sorted_by_value_desc items) = Some x.
Proof.
  revert i. induction items as [|a rest IH]; intros i Hi Hmax; [done|].
  cbn [sorted_by_value_desc foldr].
  change (foldr insert_desc [] rest) with (sorted_by_value_desc rest).
  destruct i as [|i]; cbn in Hi.
  - injection Hi as ->.
    destruct (sorted_by_value_desc rest) as [|h t] eqn:Hs; [done|].
    cbn. unfold Qc_ltb. case_bool_decide as Hlt; [|done].
    assert (h ∈ rest) as Hin.
    { rewrite <- (sorted_by_value_desc_perm rest), Hs. apply elem_of_cons. by left. }
    apply list_elem_of_lookup in Hin as [j Hj].
    destruct (Hmax (S j) h Hj) as [Hle _].
    by apply Qcle_not_lt in Hle.
  - specialize (IH i Hi).
    rewrite (head_lookup (sorted_by_value_desc rest)) in IH.
    destruct (sorted_by_value_desc rest) as [|h t] eqn:Hs.
    + discriminate IH. intros j y Hj. destruct (Hmax (S j) y Hj) as [? Hlt].
      split; [done|]. intros ?. apply Hlt. lia.
    + cbn in IH. assert (h = x) as ->.
      { assert (Some h = Some x) as [= ->]; [|done]. apply IH.
        intros j y Hj. destruct (Hmax (S j) y Hj) as [? Hlt].
        split; [done|]. intros ?. apply Hlt. lia. }
      cbn. unfold Qc_ltb.
      destruct (Hmax 0 a eq_refl) as [_ Hlt].
      rewrite bool_decide_eq_true_2 by (apply Hlt; lia). done.
Qed.

Lemma first_entry_is_argmax (l : list string) (row : list Qc)
    (probs : list (string * Qc)) (idx : nat) (p : Qc) (label : string) :
  NoDup l →
  Np.argmax row = Ok idx → row !! idx = Some p → l !! idx = Some label →
  label_probabilities (LabelList l) row = Ok probs →
  head (sort_probabilities probs) = Some (label, p)
  ∧ ∀ kv, kv ∈ sort_probabilities probs → (kv.2 ≤ p)%Qc.
Proof.
  intros Hnd Hidx Hp Hlabel. unfold label_probabilities.
  destruct (label_items _ row _) as [items|] eqn:Hitems; [|done].
  intros [= <-].
  apply label_items_keys in Hitems as Hkeys. cbn in Hkeys.
  apply label_items_spec in Hitems.
  rewrite dict_of_items_nodup by (by rewrite Hkeys).
  rewrite sort_probabilities_nodup by (by rewrite Hkeys).
  apply argmax_spec in Hidx as (p' & Hp' & Hmax).
  rewrite Hp in Hp'. injection Hp' as <-.
  assert (∀ j y, items !! j = Some y → l !! j = Some y.1 ∧ row !! j = Some y.2)
    as Hat.
  { intros j y Hj.
    destruct (Forall2_lookup_r _ _ _ _ _ Hitems Hj) as (j' & Hj' & Hl & Hr).
    apply lookup_seq in Hj' as [Heq _]. cbn in Heq. by subst j'. }
  assert (items !! idx = Some (label, p)) as Hx.
  { assert (idx < length items) as Hlt.
    { apply Forall2_length in Hitems. rewrite length_seq in Hitems.
      rewrite <- Hitems. by eapply lookup_lt_Some. }
    apply lookup_lt_is_Some in Hlt as [[k v] Hkv].
    destruct (Hat _ _ Hkv) as [Hk Hv]. cbn in Hk, Hv. congruence. }
  split.
  - apply (sorted_by_value_desc_head items idx); [done|].
    intros j y Hj. destruct (Hat _ _ Hj) as [_ Hv]. by apply Hmax.
  - intros kv Hin. rewrite (sorted_by_value_desc_perm items) in Hin.
    apply list_elem_of_lookup in Hin as [j Hj].
    destruct (Hat _ _ Hj) as [_ Hv]. by apply (Hmax j).
Qed.

(** X4. With distinct labels, the first entry of the probabilities mapping
    of a result is the predicted class together with the winning value the
    result reports (its probability; for the basic [predict], which has no
    probability field, its confidence), and no entry has a larger value. *)
Theorem first_probabilities_entry_is_the_prediction
    (rt : Runtime) (self : manager) (path : string) (l : list string) (r : dict) :
  get_classes self = LabelList l → NoDup l →
  prediction_of rt self path r →
  ∃ label p d,
    dict_get "class" r = Some (VAtom (AStr label))
    ∧ dict_get "probabilities" r = Some (float_dict d)
    ∧ head d = Some (label, p)
    ∧ (∀ kv, kv ∈ d → (kv.2 ≤ p)%Qc)
    ∧ (dict_get "probability" r = Some (VAtom (AFloat p))
       ∨ (dict_get "probability" r = None
          ∧ dict_get "confidence" r = Some (VAtom (AFloat p)))).
Proof.
  unfold get_classes. intros Hl Hnd.
  intros [(s & s' & H)|[(s & s' & H)|(K & s & s' & H)]].
  - destruct (predict_spec rt self path s) as (s1 & Hspec & _).
    rewrite H in Hspec. injection Hspec as Hr _.
    unfold basic_result in Hr.
    destruct (pil_pixels rt self path); [|done].
    destruct (model_row self _) as [row|]; [|done].
    destruct (Np.argmax row) as [idx|] eqn:Hidx; [|done].
    destruct (labels_getitem _ _) as [label|] eqn:Hlabel; [|done].
    destruct (Np.index row _) as [p|] eqn:Hp; [|done].
    destruct (label_probabilities _ row) as [probs|] eqn:Hprobs; [|done].
    injection Hr as ->. rewrite Hl in Hlabel, Hprobs.
    unfold Np.index in Hp. destruct (row !! idx) eqn:Hrow; [|done].
    injection Hp as ->.
    cbn in Hlabel. destruct (l !! idx) eqn:Hli; [|done]. injection Hlabel as ->.
    destruct (first_entry_is_argmax l row probs idx p label) as [Hh Hle]; try done.
    exists label, p, (sort_probabilities probs).
    split; [reflexivity|]. split; [reflexivity|]. split; [done|].
    split; [done|]. right. by split.
  - destruct (predict_single_direct_spec rt self path s) as (s1 & Hspec & _).
    rewrite H in Hspec. injection Hspec as Hr _.
    unfold direct_result in Hr.
    destruct (normalised_image rt self path); [|done].
    destruct (model_row self _) as [row|]; [|done].
    destruct (prediction_result self row) as [r0|] eqn:Hr0; [|done].
    injection Hr as ->.
    apply prediction_result_inv in Hr0
      as (idx & p & label & probs & Hidx & Hp & Hlabel & Hprobs & ->).
    rewrite Hl in Hlabel, Hprobs.
    cbn in Hlabel. destruct (l !! idx) eqn:Hli; [|done]. injection Hlabel as ->.
    destruct (first_entry_is_argmax l row probs idx p label) as [Hh Hle]; try done.
    exists label, p, (sort_probabilities probs).
    split; [reflexivity|]. split; [reflexivity|]. split; [done|].
    split; [done|]. by left.
  - destruct (predict_with_tta_spec rt self path K s) as (s1 & Hspec & _).
    rewrite H in Hspec. injection Hspec as Hr _.
    unfold tta_result in Hr.
    destruct (normalised_image rt self path); [|done].
    destruct (rows_of self _) as [rows|]; [|done].
    destruct (Np.mean_axis0 rows) as [avg|]; [|done].
    destruct (prediction_result self avg) as [r0|] eqn:Hr0; [|done].
    injection Hr as ->.
    apply prediction_result_inv in Hr0
      as (idx & p & label & probs & Hidx & Hp & Hlabel & Hprobs & ->).
    rewrite Hl in Hlabel, Hprobs.
    cbn in Hlabel. destruct (l !! idx) eqn:Hli; [|done]. injection Hlabel as ->.
    destruct (first_entry_is_argmax l avg probs idx p label) as [Hh Hle]; try done.
    exists label, p, (sort_probabilities probs).
    split; [reflexivity|]. split; [reflexivity|]. split; [done|].
    split; [done|]. by left.
Qed.

Lemma first_probabilities_entry_is_the_prediction_witness :
  ∃ label p d,
    dict_get "class" Sample.tta_dict = Some (VAtom (AStr label))
    ∧ dict_get "probabilities" Sample.tta_dict = Some (float_dict d)
    ∧ head d = Some (label, p).
Proof.
  assert (prediction_of Sample.rt_custom Sample.custom "leaf.jpg" Sample.tta_dict)
    as H.
  { right. right. exists 2%Z, Sample.s0, Sample.tta_run.2.
    vm_compute. reflexivity. }
  assert (get_classes Sample.custom = LabelList Config.DEFAULT_CLASSES) as Hc
    by reflexivity.
  assert (NoDup Config.DEFAULT_CLASSES) as Hnd.
  { apply (bool_decide_unpack _). by vm_compute. }
  destruct (first_probabilities_entry_is_the_prediction _ _ _ _ _ Hc Hnd H)
    as (label & p & d & H1 & H2 & H3 & _).
  exists label, p, d. split; [exact H1|]. split; [exact H2|exact H3].
Defined.

(** ** The basic prediction and the batch *)

Lemma image_map_values (P Q : Qc → Prop) (f : Qc → Qc) (img : image) :
  (∀ x, P x → Q (f x)) → all_values P img → all_values Q (image_map f img).
Proof.
  intros Hf. unfold all_values, image_map. intros H.
  apply Forall_fmap. eapply Forall_impl; [exact H|]. intros row Hrow. cbn.
  apply Forall_fmap. eapply Forall_impl; [exact Hrow|].
  intros [[r g] b] (? & ? & ?). cbn in *. auto.
Qed.

Lemma unit_scale_range (x : Qc) :
  (Q2Qc 0 ≤ x)%Qc ∧ (x ≤ Qc_of_Z 255)%Qc →
  (Q2Qc 0 ≤ x / Qc_of_Z 255)%Qc ∧ (x / Qc_of_Z 255 ≤ Q2Qc 1)%Qc.
Proof. intros [H0 H1]. qc2q. split; lra. Qed.

(** X5. The basic [predict] shows the model the PIL image divided by 255,
    whatever the model family: it calls the model once, on the resized
    image with every value scaled from 0-255 into [0, 1], draws no random
    number, and its run does not depend on the preprocessing function the
    manager holds (the one [predict_single_direct] applies). *)
Theorem predict_feeds_pixels_scaled_to_unit_interval
    (rt : Runtime) (self : manager) (path : string) (s s' : state batch)
    (r : dict) :
  predict rt self path s = (Ok r, s') →
  (∃ opened resized,
     Image_resize rt opened (img_size self) = Ok resized
     ∧ fed s' = fed s ++ [Tf.expand_dims0
                            (image_map (λ x, x / Qc_of_Z 255)%Qc (data resized))]
     ∧ (all_values (λ x, (Q2Qc 0 ≤ x)%Qc ∧ (x ≤ Qc_of_Z 255)%Qc) (data resized) →
        all_values (λ x, (Q2Qc 0 ≤ x)%Qc ∧ (x ≤ Q2Qc 1)%Qc)
          (image_map (λ x, x / Qc_of_Z 255)%Qc (data resized))))
  ∧ rng s' = rng s
  ∧ ∀ f, predict rt (set_preprocess_fn self f) path s = (Ok r, s').
Proof.
  intros H.
  destruct (predict_spec rt self path s) as (s1 & Hspec & Hrng & Hfed & _).
  rewrite H in Hspec. injection Hspec as Hr <-.
  split; [|split; [done|by intros f]].
  unfold basic_result in Hr.
  destruct (pil_pixels rt self path) as [img|] eqn:Himg; [|done].
  assert (is_Some (model self)) as Hm.
  { unfold model_row in Hr. destruct (model self); [by eexists|done]. }
  specialize (Hfed img eq_refl Hm).
  unfold pil_pixels in Himg.
  destruct (Image_open rt path) as [img0|]; [|done].
  destruct (if bool_decide _ then _ else _) as [opened|]; [|done].
  destruct (Image_resize rt opened (img_size self)) as [resized|] eqn:Hres; [|done].
  injection Himg as <-.
  exists opened, resized. split; [done|]. split; [done|].
  apply image_map_values. apply unit_scale_range.
Qed.

Lemma predict_feeds_pixels_scaled_to_unit_interval_witness :
  Sample.predict_run = (Ok Sample.predict_dict, Sample.predict_run.2)
  ∧ (∃ resized,
       fed Sample.predict_run.2
       = fed Sample.s0
         ++ [Tf.expand_dims0
               (image_map (λ x, x / Qc_of_Z 255)%Qc (data resized))])
  ∧ rng Sample.predict_run.2 = rng Sample.s0.
Proof.
  assert (Sample.predict_run = (Ok Sample.predict_dict, Sample.predict_run.2)) as H
    by (vm_compute; reflexivity).
  split; [exact H|].
  destruct (predict_feeds_pixels_scaled_to_unit_interval
              Sample.rt_custom Sample.custom "leaf.jpg" Sample.s0
              Sample.predict_run.2 Sample.predict_dict H)
    as ((opened & resized & _ & Hfed & _) & Hrng & _).
  split; [exists resized; exact Hfed|exact Hrng].
Defined.

Lemma dict_get_set_eq {V} (k : string) (v : V) (d : list (string * V)) :
  dict_get k (dict_set k v d) = Some v.
Proof.
  induction d as [|[k' v'] d IH]; cbn.
  - by rewrite decide_True.
  - destruct (decide (k = k')) as [->|Hne]; cbn.
    + by rewrite decide_True.
    + by rewrite decide_False.
Qed.

Lemma dict_get_set_ne {V} (k k' : string) (v : V) (d : list (string * V)) :
  k' ≠ k → dict_get k' (dict_set k v d) = dict_get k' d.
Proof.
  intros Hne. induction d as [|[k0 v0] d IH]; cbn.
  - by rewrite decide_False.
  - destruct (decide (k = k0)) as [->|Hne0]; cbn.
    + by rewrite !decide_False.
    + by rewrite IH.
Qed.

Lemma predict_batch_loop_spec (rt : Runtime) (self : manager)
    (paths : list string) :
  ∀ (acc : list dict) (s : state batch),
    ∃ s', predict_batch_loop rt self paths acc s
          = (Ok (acc ++ ((λ p, batch_entry p (basic_result rt self p)) <$> paths)),
             s')
          ∧ rng s' = rng s.
Proof.
  induction paths as [|p paths IH]; intros acc s; cbn [predict_batch_loop fmap list_fmap].
  - exists s. by rewrite app_nil_r.
  - destruct (predict_spec rt self p s) as (s1 & Hp & Hrng & _).
    unfold mbind at 1, M_bind, bind at 1. unfold try_except at 1.
    unfold mbind at 1, M_bind, bind at 1. rewrite Hp.
    destruct (basic_result rt self p) as [r|e]; cbn.
    + destruct (IH (acc ++ [dict_set "image_path" (VAtom (AStr p)) r]) s1)
        as (s2 & -> & Hr2).
      exists s2. rewrite <- app_assoc. split; [done|congruence].
    + munfold. cbn.
      match goal with
      | |- context [predict_batch_loop rt self paths ?a ?st] =>
          destruct (IH a st) as (s2 & -> & Hr2)
      end.
      exists s2. rewrite <- app_assoc. split; [done|]. by rewrite Hr2.
Qed.

(** X6. [predict_batch] never raises and records every path, in order: the
    list it returns has one entry per path, the entry at position [i]
    carries the path at position [i] under ['image_path'], and it is
    either the result of [predict] on that path (all its fields, and no
    ['error']) or, when [predict] raises there, the two-field dictionary
    with the text of the exception. A failure on one path does not stop
    the paths after it. No random number is drawn. *)
Theorem predict_batch_records_every_path
    (rt : Runtime) (self : manager) (paths : list string) (s : state batch) :
  ∃ results s',
    predict_batch rt self paths s = (Ok results, s')
    ∧ rng s' = rng s
    ∧ length results = length paths
    ∧ ∀ i p, paths !! i = Some p →
        ∃ entry,
          results !! i = Some entry
          ∧ dict_get "image_path" entry = Some (VAtom (AStr p))
          ∧ ((∃ r, (∀ s1, ∃ s2, predict rt self p s1 = (Ok r, s2))
                   ∧ dict_get "error" entry = None
                   ∧ ∀ k, k ≠ "image_path" → dict_get k entry = dict_get k r)
             ∨ (∃ e, (∀ s1, ∃ s2, predict rt self p s1 = (Raise e, s2))
                     ∧ entry = [("image_path", VAtom (AStr p));
                                ("error", VAtom (AStr (str_exn e)))])).
Proof.
  destruct (predict_batch_loop_spec rt self paths [] s) as (s' & Hrun & Hrng).
  eexists _, s'. split; [exact Hrun|]. split; [done|].
  cbn [app]. split; [by rewrite length_fmap|].
  intros i p Hi. rewrite list_lookup_fmap, Hi. cbn.
  eexists. split; [reflexivity|].
  destruct (basic_result rt self p) as [r|e] eqn:Hres; cbn.
  - split; [apply dict_get_set_eq|]. left. exists r.
    split; [|split].
    + intros s1. destruct (predict_spec rt self p s1) as (s2 & Hp & _).
      exists s2. by rewrite Hp, Hres.
    + rewrite dict_get_set_ne by done.
      unfold basic_result in Hres.
      repeat match type of Hres with
      | match ?x with _ => _ end = _ => destruct x; [|done]
      end.
      by injection Hres as <-.
    + intros k Hk. by apply dict_get_set_ne.
  - split; [done|]. right. exists e. split; [|done].
    intros s1. destruct (predict_spec rt self p s1) as (s2 & Hp & _).
    exists s2. by rewrite Hp, Hres.
Qed.

(** ** Test-time augmentation at its edges *)

Lemma tta_result_nonpositive (rt : Runtime) (self : manager) (path : string)
    (K : Z) (pos : nat) :
  (K ≤ 0)%Z →
  tta_result rt self path K pos
  = (λ r, r ++ [("num_augmentations", VAtom (AInt K))])
      <$> direct_result rt self path.
Proof.
  intros HK. unfold tta_result, tta_inputs, direct_result.
  destruct (normalised_image rt self path) as [img|e]; [|done].
  replace (Z.to_nat K) with 0%nat by lia. cbn [variants rows_of].
  destruct (model_row self (Tf.expand_dims0 img)) as [row|e]; [|done].
  rewrite mean_axis0_singleton.
  by destruct (prediction_result self row).
Qed.

(** X7. A negative [num_augmentations] behaves as zero: the loop does not
    run, no random number is drawn, the model is shown the normalised
    image once, and the result is that of [predict_single_direct] with the
    field [num_augmentations] added, holding the negative number as it was
    given. *)
Theorem tta_with_a_negative_count_is_the_direct_prediction
    (rt : Runtime) (self : manager) (path : string) (K : Z) (s : state batch) :
  (K < 0)%Z →
  ∃ (direct : option dict) (s1 s2 : state batch),
    predict_single_direct rt self path s = (Ok direct, s1)
    ∧ predict_with_tta rt self path K s
      = (Ok ((λ r, r ++ [("num_augmentations", VAtom (AInt K))]) <$> direct), s2)
    ∧ (∀ r, direct = Some r →
         dict_get "num_augmentations"
           (r ++ [("num_augmentations", VAtom (AInt K))])
         = Some (VAtom (AInt K))
         ∧ Forall (λ k, is_Some (dict_get k r)
                        ∧ dict_get k (r ++ [("num_augmentations", VAtom (AInt K))])
                          = dict_get k r)
             ["class"; "confidence"; "probability"; "probabilities"])
    ∧ (is_Some direct → rng s2 = rng s ∧ fed s2 = fed s1).
Proof.
  intros HK.
  destruct (predict_single_direct_spec rt self path s) as (s1 & Hd & Hr1 & Hf1).
  destruct (predict_with_tta_spec rt self path K s) as (s2 & Ht & Hf2).
  rewrite tta_result_nonpositive in Ht, Hf2 by lia.
  exists (direct_result rt self path), s1, s2.
  split; [done|]. split; [done|]. split.
  - intros r Hr. unfold direct_result in Hr.
    destruct (normalised_image rt self path) as [img|]; [|done].
    destruct (model_row self _) as [row|]; [|done].
    destruct (prediction_result self row) as [r'|] eqn:Hp; [|done].
    injection Hr as ->. split; [|by eapply prediction_result_fields].
    apply prediction_result_inv in Hp as (? & ? & ? & ? & _ & _ & _ & _ & ->).
    reflexivity.
  - intros Hsome. destruct Hf1 as (img & Himg & ->); [done|].
    assert (is_Some ((λ r, r ++ [("num_augmentations", VAtom (AInt K))])
                       <$> direct_result rt self path)) as Hsome'
      by (destruct Hsome as [r ->]; by eexists).
    destruct (Hf2 Hsome') as [E1 E2]. rewrite E1, E2.
    unfold tta_inputs. rewrite Himg.
    replace (Z.to_nat K) with 0%nat by lia. done.
Qed.

Lemma tta_with_a_negative_count_is_the_direct_prediction_witness :
  ∃ (direct : option dict) (s2 : state batch),
    Sample.direct_run.1 = Ok direct
    ∧ predict_with_tta Sample.rt_custom Sample.custom "leaf.jpg" (-3) Sample.s0
      = (Ok ((λ r, r ++ [("num_augmentations", VAtom (AInt (-3)))]) <$> direct), s2).
Proof.
  destruct (tta_with_a_negative_count_is_the_direct_prediction
              Sample.rt_custom Sample.custom "leaf.jpg" (-3) Sample.s0
              ltac:(lia))
    as (direct & s1 & s2 & Hd & Ht & _).
  exists direct, s2. split; [|exact Ht].
  unfold Sample.direct_run. by rewrite Hd.
Defined.

(** ** The averaged vector stays a vector of probabilities *)

Lemma Qc_sum_unit_bounds (xs : list Qc) :
  unit_values xs →
  (Q2Qc 0 ≤ Qc_sum xs)%Qc ∧ (Qc_sum xs ≤ Qc_of_Z (Z.of_nat (length xs)))%Qc.
Proof.
  unfold unit_values. induction 1 as [|x xs [H0 H1] _ [IH0 IH1]].
  - cbn. split; apply (bool_decide_unpack _); by vm_compute.
  - cbn [Qc_sum foldr length]. fold (Qc_sum xs).
    replace (Qc_of_Z (Z.of_nat (S (length xs))))
      with (Q2Qc 1 + Qc_of_Z (Z.of_nat (length xs)))%Qc.
    2:{ apply Qc_is_canon. unfold Qc_of_Z. cbn [this Q2Qc Qcplus].
        rewrite !Qred_correct. unfold inject_Z, Qplus, Qeq. cbn. lia. }
    split.
    + replace (Q2Qc 0) with (Q2Qc 0 + Q2Qc 0)%Qc by (apply Qc_is_canon; reflexivity).
      by apply Qcplus_le_compat.
    + by apply Qcplus_le_compat.
Qed.

Lemma unit_mean (a : Qc) (n : nat) :
  0 < n →
  (Q2Qc 0 ≤ a)%Qc → (a ≤ Qc_of_Z (Z.of_nat n))%Qc →
  (Q2Qc 0 ≤ a / Qc_of_Z (Z.of_nat n))%Qc ∧ (a / Qc_of_Z (Z.of_nat n) ≤ Q2Qc 1)%Qc.
Proof.
  intros Hn H0 H1.
  assert (0 < inject_Z (Z.of_nat n))%Q as Hpos.
  { unfold Qlt, inject_Z. cbn. lia. }
  unfold Qcdiv, Qcle, Qc_of_Z in *. cbn [this Q2Qc Qcmult Qcinv] in *.
  rewrite ?Qred_correct in *. split.
  - apply Qle_shift_div_l; [done|]. by rewrite Qmult_0_l.
  - apply Qle_shift_div_r; [done|]. by rewrite Qmult_1_l.
Qed.

Lemma column_unit_values (j : nat) (rows : list (list Qc)) :
  Forall unit_values rows → unit_values (Np.column j rows).
Proof.
  unfold Np.column, unit_values. induction 1 as [|r rows Hr _ IH]; cbn; [constructor|].
  destruct (r !! j) as [x|] eqn:Hx; cbn; [|done].
  constructor; [|done]. eapply Forall_lookup_1 in Hr; [|exact Hx]. done.
Qed.

Lemma mean_axis0_unit_values (rows : list (list Qc)) (avg : list Qc) :
  Forall unit_values rows → Np.mean_axis0 rows = Ok avg → unit_values avg.
Proof.
  intros Hrows Havg.
  assert (rows ≠ []) as Hne by (by destruct rows).
  apply mean_axis0_spec in Havg as [_ Hmean].
  apply Forall_lookup_2. intros j q Hj.
  destruct (Hmean j) as [Hlen Hq]; [by eapply lookup_lt_Some|].
  rewrite Hj in Hq. injection Hq as ->.
  destruct (Qc_sum_unit_bounds _ (column_unit_values j rows Hrows)) as [H0 H1].
  rewrite Hlen in H1. apply unit_mean; [|done..].
  destruct rows; [done|cbn; lia].
Qed.

Lemma rows_of_unit_values (self : manager) (inputs : list batch)
    (rows : list (list Qc)) :
  (∀ x row, model_row self x = Ok row → unit_values row) →
  rows_of self inputs = Ok rows → Forall unit_values rows.
Proof.
  intros Hm H%rows_of_Forall2.
  induction H as [|x row inputs rows Hx _ IH]; constructor; [|done].
  by eapply Hm.
Qed.

Lemma dict_set_elem_of {V} (k : string) (v : V) (d : list (string * V))
    (x : string * V) :
  x ∈ dict_set k v d → x = (k, v) ∨ x ∈ d.
Proof.
  induction d as [|[k' v'] d IH]; cbn.
  - intros ->%list_elem_of_singleton. by left.
  - destruct (decide (k = k')) as [->|Hne].
    + intros [->|?]%elem_of_cons; [by left|]. right. apply elem_of_cons. by right.
    + intros [->|H]%elem_of_cons.
      * right. apply elem_of_cons. by left.
      * destruct (IH H) as [->|?]; [by left|]. right. apply elem_of_cons. by right.
Qed.

Lemma dict_of_items_elem_of {V} (l : list (string * V)) (x : string * V) :
  x ∈ dict_of_items l → x ∈ l.
Proof.
  unfold dict_of_items.
  assert (∀ acc, x ∈ foldl (λ d kv, dict_set kv.1 kv.2 d) acc l → x ∈ acc ∨ x ∈ l)
    as H.
  { induction l as [|[k v] l IH]; intros acc; cbn; [by left|].
    intros [Hin|?]%IH; [|right; apply elem_of_cons; by right].
    apply dict_set_elem_of in Hin as [->|?]; [|by left].
    right. apply elem_of_cons. by left. }
  intros [Hin|?]%H; [|done]. by apply elem_of_nil in Hin.
Qed.

Lemma label_items_values (c : labels) (row : list Qc) (idx : list nat)
    (items : list (string * Qc)) :
  label_items c row idx = Ok items → Forall (λ kv, kv.2 ∈ row) items.
Proof.
  revert items. induction idx as [|i idx IH]; intros items; cbn.
  - intros [= <-]. constructor.
  - destruct (labels_getitem c i) as [k|]; [|done].
    unfold Np.index. destruct (row !! i) as [v|] eqn:Hv; [|done].
    destruct (label_items c row idx) as [items'|]; [|done].
    intros [= <-]. constructor; [|by apply IH].
    cbn. by eapply list_elem_of_lookup_2.
Qed.

Lemma sort_probabilities_values (c : labels) (row : list Qc)
    (probs : list (string * Qc)) :
  label_probabilities c row = Ok probs →
  Forall (λ kv, kv.2 ∈ row) (sort_probabilities probs).
Proof.
  unfold label_probabilities.
  destruct (label_items c row _) as [items|] eqn:Hitems; [|done].
  intros [= <-]. apply label_items_values in Hitems.
  apply Forall_forall. intros x Hx.
  unfold sort_probabilities in Hx.
  apply dict_of_items_elem_of in Hx.
  rewrite (sorted_by_value_desc_perm (dict_of_items items)) in Hx.
  apply dict_of_items_elem_of in Hx.
  by eapply Forall_forall in Hitems.
Qed.

(** X8. Averaging keeps probabilities probabilities: when every answer of
    the model has all its values between 0 and 1, a TTA result has its
    probability between 0 and 1, its confidence between 0 and 100, and
    every value of its probabilities mapping between 0 and 1, for any
    number of augmentations. *)
Theorem tta_result_stays_in_the_unit_interval
    (rt : Runtime) (self : manager) (path : string) (K : Z)
    (s s' : state batch) (r : dict) :
  (∀ x row, model_row self x = Ok row → unit_values row) →
  predict_with_tta rt self path K s = (Ok (Some r), s') →
  ∃ p d,
    dict_get "probability" r = Some (VAtom (AFloat p))
    ∧ (Q2Qc 0 ≤ p)%Qc ∧ (p ≤ Q2Qc 1)%Qc
    ∧ dict_get "confidence" r = Some (VAtom (AFloat (p * Qc_of_Z 100)%Qc))
    ∧ (Q2Qc 0 ≤ p * Qc_of_Z 100)%Qc ∧ (p * Qc_of_Z 100 ≤ Qc_of_Z 100)%Qc
    ∧ dict_get "probabilities" r = Some (float_dict d)
    ∧ Forall (λ kv, (Q2Qc 0 ≤ kv.2)%Qc ∧ (kv.2 ≤ Q2Qc 1)%Qc) d.
Proof.
  intros Hm H.
  destruct (predict_with_tta_spec rt self path K s) as (s1 & Hspec & _).
  rewrite H in Hspec. injection Hspec as Hr _.
  unfold tta_result in Hr.
  destruct (normalised_image rt self path); [|done].
  destruct (rows_of self _) as [rows|] eqn:Hrows; [|done].
  destruct (Np.mean_axis0 rows) as [avg|] eqn:Havg; [|done].
  destruct (prediction_result self avg) as [r0|] eqn:Hr0; [|done].
  injection Hr as ->.
  apply prediction_result_inv in Hr0
    as (idx & p & label & probs & Hidx & Hp & Hlabel & Hprobs & ->).
  assert (unit_values avg) as Havg1.
  { eapply mean_axis0_unit_values; [|done]. by eapply rows_of_unit_values. }
  assert ((Q2Qc 0 ≤ p)%Qc ∧ (p ≤ Q2Qc 1)%Qc) as [H0 H1].
  { by eapply Forall_lookup_1 in Havg1. }
  exists p, (sort_probabilities probs).
  split; [reflexivity|]. split; [done|]. split; [done|].
  split; [reflexivity|].
  split; [|split].
  - clear -H0. qc2q. nra.
  - clear -H1. qc2q. nra.
  - split; [reflexivity|].
    eapply Forall_impl; [by eapply sort_probabilities_values|].
    intros kv Hin. cbn in Hin.
    by eapply Forall_forall in Havg1.
Qed.

Lemma sign_model_unit_values (x : batch) (row : list Qc) :
  model_row Sample.custom x = Ok row → unit_values row.
Proof.
  unfold model_row.
  change (model Sample.custom) with (Some Sample.sign_model).
  cbn [run Sample.sign_model Sample.model_of].
  destruct x as [|img x]; [done|]. cbn.
  intros [= <-].
  destruct img as [|[|[[r g] b] ?] ?]; [constructor..|].
  destruct (Qc_ltb r (Q2Qc 0));
    repeat constructor; apply (bool_decide_unpack _); by vm_compute.
Qed.

Lemma tta_result_stays_in_the_unit_interval_witness :
  ∃ p, dict_get "probability" Sample.tta_dict = Some (VAtom (AFloat p))
       ∧ (Q2Qc 0 ≤ p)%Qc ∧ (p ≤ Q2Qc 1)%Qc.
Proof.
  assert (Sample.tta_run = (Ok (Some Sample.tta_dict), Sample.tta_run.2)) as H
    by (vm_compute; reflexivity).
  destruct (tta_result_stays_in_the_unit_interval
              Sample.rt_custom Sample.custom "leaf.jpg" 2 Sample.s0
              Sample.tta_run.2 Sample.tta_dict sign_model_unit_values H)
    as (p & d & Hp & H0 & H1 & _).
  exists p. split; [exact Hp|]. split; [exact H0|exact H1].
Defined.

Lemma Qc_sum_app (xs ys : list Qc) :
  Qc_sum (xs ++ ys) = (Qc_sum xs + Qc_sum ys)%Qc.
Proof.
  induction xs as [|x xs IH]; cbn.
  - unfold Qc_sum. ring.
  - fold (Qc_sum (xs ++ ys)). fold (Qc_sum xs). rewrite IH. ring.
Qed.

Lemma Qc_sum_perm (xs ys : list Qc) : xs ≡ₚ ys → Qc_sum xs = Qc_sum ys.
Proof.
  induction 1 as [|x xs ys _ IH|x y xs|xs ys zs _ IH1 _ IH2]; cbn.
  - done.
  - fold (Qc_sum xs). fold (Qc_sum ys). by rewrite IH.
  - fold (Qc_sum xs). ring.
  - congruence.
Qed.

Lemma Qc_sum_fmap_plus {A} (f g : A → Qc) (l : list A) :
  Qc_sum ((λ a, f a + g a)%Qc <$> l) = (Qc_sum (f <$> l) + Qc_sum (g <$> l))%Qc.
Proof.
  induction l as [|a l IH]; cbn.
  - unfold Qc_sum. cbn. ring.
  - fold (Qc_sum ((λ a, f a + g a)%Qc <$> l)).
    fold (Qc_sum (f <$> l)). fold (Qc_sum (g <$> l)). rewrite IH. ring.
Qed.

Lemma Qc_sum_fmap_div {A} (f : A → Qc) (n : Qc) (l : list A) :
  Qc_sum ((λ a, f a / n)%Qc <$> l) = (Qc_sum (f <$> l) / n)%Qc.
Proof.
  induction l as [|a l IH]; cbn.
  - unfold Qc_sum, Qcdiv. cbn. ring.
  - fold (Qc_sum ((λ a, f a / n)%Qc <$> l)). fold (Qc_sum (f <$> l)).
    rewrite IH. unfold Qcdiv. ring.
Qed.

Lemma Qc_sum_fmap_zero {A} (l : list A) :
  Qc_sum ((λ _, Q2Qc 0) <$> l) = Q2Qc 0.
Proof.
  induction l as [|a l IH]; cbn; [done|].
  fold (Qc_sum ((λ _ : A, Q2Qc 0) <$> l)). rewrite IH. ring.
Qed.

(** The sum of a row, entry by entry. *)
Lemma Qc_sum_by_index (r : list Qc) :
  Qc_sum ((λ j, default (Q2Qc 0) (r !! j)) <$> seq 0 (length r)) = Qc_sum r.
Proof.
  f_equal. apply list_eq. intros i. rewrite list_lookup_fmap.
  destruct (decide (i < length r)) as [Hi|Hi].
  - rewrite lookup_seq_lt by done. cbn.
    destruct (lookup_lt_is_Some_2 r i Hi) as [x Hx]. by rewrite Hx.
  - rewrite lookup_seq_ge by lia. cbn. symmetry. apply lookup_ge_None. lia.
Qed.

(** The column sums add up to the row sums. *)
Lemma Qc_sum_columns (m : nat) (rows : list (list Qc)) :
  Forall (λ r, length r = m) rows →
  Qc_sum ((λ j, Qc_sum (Np.column j rows)) <$> seq 0 m)
  = Qc_sum (Qc_sum <$> rows).
Proof.
  induction 1 as [|r rows Hr _ IH].
  - cbn. apply Qc_sum_fmap_zero.
  - cbn [fmap list_fmap]. cbn [Qc_sum foldr]. fold (Qc_sum (Qc_sum <$> rows)).
    rewrite <- IH, <- (Qc_sum_by_index r), Hr, <- Qc_sum_fmap_plus.
    f_equal. apply list_fmap_ext. intros i j Hj.
    apply lookup_seq in Hj as [-> Hlt]. cbn [Nat.add].
    unfold Np.column. cbn [omap list_omap].
    destruct (lookup_lt_is_Some_2 r i) as [x ->]; [lia|]. done.
Qed.

Lemma mean_axis0_sum (rows : list (list Qc)) (avg : list Qc) :
  Forall (λ r, Qc_sum r = Q2Qc 1) rows →
  Np.mean_axis0 rows = Ok avg → Qc_sum avg = Q2Qc 1.
Proof.
  intros Hone Havg. unfold Np.mean_axis0 in Havg.
  destruct rows as [|r rows']; [done|]. set (rows := r :: rows') in *.
  destruct (forallb _ rows) eqn:Hall; [|done]. injection Havg as <-.
  assert (Forall (λ r' : list Qc, length r' = length r) rows) as Hlen.
  { apply Forall_forall. intros r' Hr'.
    rewrite forallb_forall in Hall.
    apply list_elem_of_In, Hall in Hr'. by apply bool_decide_eq_true_1 in Hr'. }
  change (map ?f ?l) with (f <$> l).
  rewrite (Qc_sum_fmap_div (λ j, Qc_sum (Np.column j rows))).
  rewrite (Qc_sum_columns _ _ Hlen).
  assert (Qc_sum (Qc_sum <$> rows) = Qc_of_Z (Z.of_nat (length rows))) as ->.
  { clear -Hone. induction Hone as [|x xs Hx _ IH]; [by apply Qc_is_canon|].
    cbn [fmap list_fmap Qc_sum foldr length]. fold (Qc_sum (Qc_sum <$> xs)).
    rewrite IH, Hx. apply Qc_is_canon. unfold Qc_of_Z. cbn [this Q2Qc Qcplus].
    rewrite !Qred_correct. unfold inject_Z, Qplus, Qeq. cbn. lia. }
  apply Qc_is_canon. unfold Qcdiv, Qc_of_Z. cbn [this Q2Qc Qcmult Qcinv].
  rewrite !Qred_correct. unfold rows. cbn [length].
  apply Qmult_inv_r. unfold inject_Z, Qeq. cbn. lia.
Qed.

Lemma label_items_all_values (l : list string) (row : list Qc)
    (items : list (string * Qc)) :
  length l = length row →
  label_items (LabelList l) row (seq 0 (length l)) = Ok items →
  items.*2 = row.
Proof.
  intros Hlen H%label_items_spec.
  apply list_eq. intros i. rewrite list_lookup_fmap.
  destruct (items !! i) as [kv|] eqn:Hi; cbn.
  - destruct (Forall2_lookup_r _ _ _ _ _ H Hi) as (j & Hj & _ & Hr).
    apply lookup_seq in Hj as [Heq _]. cbn in Heq. subst j. by rewrite Hr.
  - apply lookup_ge_None in Hi. symmetry. apply lookup_ge_None.
    apply Forall2_length in H. rewrite length_seq in H. lia.
Qed.

(** X9. Averaging keeps the total: with distinct labels, one per output
    of the model, and a model whose every answer sums to 1, the values of
    the probabilities mapping of a TTA result sum to 1, for any number of
    augmentations. *)
Theorem tta_probabilities_sum_to_one
    (rt : Runtime) (self : manager) (path : string) (K : Z)
    (s s' : state batch) (r : dict) (l : list string) :
  get_classes self = LabelList l → NoDup l →
  (∀ x row, model_row self x = Ok row →
     length row = length l ∧ Qc_sum row = Q2Qc 1) →
  predict_with_tta rt self path K s = (Ok (Some r), s') →
  ∃ d, dict_get "probabilities" r = Some (float_dict d)
       ∧ d.*1 ≡ₚ l
       ∧ Qc_sum d.*2 = Q2Qc 1.
Proof.
  unfold get_classes. intros Hl Hnd Hm H.
  destruct (predict_with_tta_spec rt self path K s) as (s1 & Hspec & _).
  rewrite H in Hspec. injection Hspec as Hr _.
  unfold tta_result in Hr.
  destruct (normalised_image rt self path); [|done].
  destruct (rows_of self _) as [rows|] eqn:Hrows; [|done].
  destruct (Np.mean_axis0 rows) as [avg|] eqn:Havg; [|done].
  destruct (prediction_result self avg) as [r0|] eqn:Hr0; [|done].
  injection Hr as ->.
  apply prediction_result_inv in Hr0
    as (idx & p & label & probs & Hidx & Hp & Hlabel & Hprobs & ->).
  apply rows_of_Forall2 in Hrows.
  assert (Forall (λ row, length row = length l ∧ Qc_sum row = Q2Qc 1) rows) as Hall.
  { clear -Hrows Hm. induction Hrows; constructor; [by eapply Hm|done]. }
  assert (Qc_sum avg = Q2Qc 1) as Hsum.
  { eapply mean_axis0_sum; [|done]. eapply Forall_impl; [exact Hall|]. by intros ? [? ?]. }
  assert (length avg = length l) as Hlen.
  { destruct rows as [|row rows]; [done|].
    apply mean_axis0_spec in Havg as [Hlens _].
    apply Forall_cons in Hlens as [<- _]. by apply Forall_cons in Hall as [[? _] _]. }
  rewrite Hl in Hprobs. unfold label_probabilities in Hprobs.
  destruct (label_items _ avg _) as [items|] eqn:Hitems; [|done].
  injection Hprobs as <-.
  apply label_items_keys in Hitems as Hkeys. cbn in Hkeys.
  apply label_items_all_values in Hitems; [|done].
  rewrite dict_of_items_nodup by (by rewrite Hkeys).
  rewrite sort_probabilities_nodup by (by rewrite Hkeys).
  exists (sorted_by_value_desc items).
  split; [reflexivity|].
  pose proof (sorted_by_value_desc_perm items) as Hperm.
  split.
  - rewrite <- Hkeys. by apply fmap_Permutation.
  - rewrite <- Hsum, <- Hitems. apply Qc_sum_perm. by apply fmap_Permutation.
Qed.

Lemma constant_model_sums_to_one (x : batch) (row : list Qc) :
  model_row Sample.ties x = Ok row →
  length row = length Config.DEFAULT_CLASSES ∧ Qc_sum row = Q2Qc 1.
Proof.
  unfold model_row.
  change (model Sample.ties)
    with (Some (Sample.constant_model
                  [mkQc 1 2; mkQc 1 2; Q2Qc 0; Q2Qc 0; Q2Qc 0])).
  cbn [run Sample.constant_model Sample.model_of].
  destruct x as [|img x]; [done|]. cbn.
  intros [= <-]. split; [done|]. apply (bool_decide_unpack _). by vm_compute.
Qed.

Lemma tta_probabilities_sum_to_one_witness :
  ∃ d, dict_get "probabilities" Scenario.ties_tta_dict = Some (float_dict d)
       ∧ Qc_sum d.*2 = Q2Qc 1.
Proof.
  assert (Scenario.ties_tta_run
          = (Ok (Some Scenario.ties_tta_dict), Scenario.ties_tta_run.2)) as H
    by (vm_compute; reflexivity).
  assert (NoDup Config.DEFAULT_CLASSES) as Hnd.
  { apply (bool_decide_unpack _). by vm_compute. }
  destruct (tta_probabilities_sum_to_one
              Sample.rt_ties Sample.ties "leaf.jpg" 2 Sample.s0
              Scenario.ties_tta_run.2 Scenario.ties_tta_dict
              Config.DEFAULT_CLASSES eq_refl Hnd constant_model_sums_to_one H)
    as (d & Hd & _ & Hsum).
  exists d. split; [exact Hd|exact Hsum].
Defined.

(** ** How often the model is run *)

Lemma get_top_3_predictions_runs_the_model
    (rt : Runtime) (self : manager) (path : string) (s : state batch)
    (img : image) :
  normalised_image rt self path = Ok img → is_Some (model self) →
  ∃ s', get_top_3_predictions rt self path s
        = (Ok (top_3_result rt self path), s')
        ∧ rng s' = rng s
        ∧ fed s' = fed s ++ [Tf.expand_dims0 img].
Proof.
  intros Himg [m Hm].
  unfold get_top_3_predictions, top_3_result.
  unfold try_except at 1. unfold mbind at 1, M_bind, bind at 1.
  rewrite load_and_preprocess_image_tf_spec, Himg.
  unfold model_predict, model_row. munfold. rewrite Hm. cbn.
  destruct (run m (Tf.expand_dims0 img)) as [rows|e]; cbn; [|by eexists].
  destruct (Np.index rows 0) as [row|e]; cbn; [|by eexists].
  destruct (top_entries (classes self) row _) as [entries|e]; cbn; by eexists.
Qed.

Lemma improved_predict_final_state
    (rt : Runtime) (self : manager) (path : string) (use_tta : bool)
    (threshold : atom) (K : Z) (s : state batch) (r : dict) (p : Qc) (low : bool) :
  (if use_tta then tta_result rt self path K (rng s)
   else direct_result rt self path) = Some r →
  dict_get "probability" r = Some (VAtom (AFloat p)) →
  less_than (AFloat p) threshold = Ok low →
  ∃ out s' img,
    improved_predict rt self path use_tta threshold K s = (Ok out, s')
    ∧ normalised_image rt self path = Ok img
    ∧ fed s' = fed s ++ [Tf.expand_dims0 img]
               ++ (if use_tta then variants rt img (rng s) (Z.to_nat K) else [])
               ++ [Tf.expand_dims0 img]
    ∧ rng s' = (if use_tta then 6 * Z.to_nat K else 0) + rng s.
Proof.
  intros Hres Hprob Hlow.
  assert (∃ img, normalised_image rt self path = Ok img ∧ is_Some (model self))
    as (img & Himg & Hm).
  { destruct use_tta.
    - unfold tta_result, tta_inputs in Hres.
      destruct (normalised_image rt self path) as [img|]; [|done].
      exists img. split; [done|]. cbn in Hres. unfold model_row in Hres.
      destruct (model self); [by eexists|done].
    - unfold direct_result in Hres.
      destruct (normalised_image rt self path) as [img|]; [|done].
      exists img. split; [done|]. unfold model_row in Hres.
      destruct (model self); [by eexists|done]. }
  assert (∃ s1, (if use_tta then predict_with_tta rt self path K s
                 else predict_single_direct rt self path s) = (Ok (Some r), s1)
                ∧ fed s1 = fed s ++ [Tf.expand_dims0 img]
                           ++ (if use_tta then variants rt img (rng s) (Z.to_nat K)
                               else [])
                ∧ rng s1 = (if use_tta then 6 * Z.to_nat K else 0) + rng s)
    as (s1 & Hs1 & Hfed1 & Hrng1).
  { destruct use_tta.
    - destruct (predict_with_tta_spec rt self path K s) as (s1 & Hrun & Hst).
      rewrite Hres in Hrun, Hst. destruct Hst as [Hr Hf]; [by eexists|].
      exists s1. split; [done|]. split; [|done].
      rewrite Hf. unfold tta_inputs. by rewrite Himg.
    - destruct (predict_single_direct_spec rt self path s) as (s1 & Hrun & Hr & Hf).
      rewrite Hres in Hrun, Hf. destruct Hf as (img' & Himg' & Hf); [by eexists|].
      rewrite Himg in Himg'. injection Himg' as <-.
      exists s1. split; [done|]. split; [|done]. by rewrite Hf, app_nil_r. }
  destruct (get_top_3_predictions_runs_the_model rt self path s1 img Himg Hm)
    as (s2 & Htop & Hrng2 & Hfed2).
  assert (∃ (v : Qc) (label : string) probs extra,
            r = [("class", VAtom (AStr label));
                 ("confidence", VAtom (AFloat (v * Qc_of_Z 100)%Qc));
                 ("probability", VAtom (AFloat v));
                 ("probabilities", float_dict (sort_probabilities probs))] ++ extra)
    as (v & label & probs & extra & Hr).
  { apply underlying_result_shape in Hres
      as (? & idx & v & label & probs & extra & _ & _ & _ & Hr).
    by exists v, label, probs, extra. }
  assert (v = p) as -> by (rewrite Hr in Hprob; by injection Hprob).
  assert (getitem r "probability" = Ok (VAtom (AFloat p))) as Gp
    by (rewrite Hr; reflexivity).
  assert (getitem r "confidence" = Ok (VAtom (AFloat (p * Qc_of_Z 100)%Qc))) as Gc
    by (rewrite Hr; reflexivity).
  assert (getitem r "class" = Ok (VAtom (AStr label))) as Gl
    by (rewrite Hr; reflexivity).
  clear Hr Hprob.
  unfold improved_predict.
  unfold try_except at 1. unfold mbind at 1, M_bind, bind at 1.
  replace ((if use_tta then predict_with_tta rt self path K
            else predict_single_direct rt self path) s)
    with (if use_tta then predict_with_tta rt self path K s
          else predict_single_direct rt self path s)
    by (by destruct use_tta).
  rewrite Hs1. munfold. rewrite Gp, Htop. cbn [val_lt]. rewrite Hlow.
  assert (fed s2 = fed s ++ [Tf.expand_dims0 img]
                   ++ (if use_tta then variants rt img (rng s) (Z.to_nat K) else [])
                   ++ [Tf.expand_dims0 img]) as Hfed.
  { rewrite Hfed2, Hfed1. by rewrite <- !app_assoc. }
  destruct threshold as [|n|x|t]; try done;
    destruct low; rewrite Gl, Gc; cbn;
    (eexists _, s2, img; split; [reflexivity|]; split; [done|];
     split; [done|exact (eq_trans Hrng2 Hrng1)]).
Qed.

(** X10. A successful [improved_predict] shows the model the same
    normalised image twice: once for the prediction (followed, with TTA,
    by one batch per augmentation) and once more for the top-3 list. The
    model is thus run twice without TTA and K + 2 times with K
    augmentations, and 6 K random numbers are drawn. *)
Theorem improved_predict_runs_the_model_twice_on_the_image
    (rt : Runtime) (self : manager) (path : string) (use_tta : bool)
    (threshold : atom) (K : Z) (s s' : state batch) (out : dict) :
  improved_predict rt self path use_tta threshold K s = (Ok out, s') →
  str_field "status" out = Some "success"
  ∨ str_field "status" out = Some "warning" →
  ∃ img,
    normalised_image rt self path = Ok img
    ∧ fed s' = fed s ++ [Tf.expand_dims0 img]
               ++ (if use_tta then variants rt img (rng s) (Z.to_nat K) else [])
               ++ [Tf.expand_dims0 img]
    ∧ length (fed s')
      = length (fed s) + 2 + (if use_tta then Z.to_nat K else 0)
    ∧ rng s' = (if use_tta then 6 * Z.to_nat K else 0) + rng s.
Proof.
  intros Hrun Hstatus.
  destruct (improved_predict_cases rt self path use_tta threshold K s)
    as (out0 & s0 & s1 & Hrun0 & _ & Hcases).
  rewrite Hrun in Hrun0. injection Hrun0 as <- <-.
  destruct (if use_tta then tta_result rt self path K (rng s)
            else direct_result rt self path) as [r|] eqn:Hres.
  2:{ rewrite Hcases in Hstatus. by destruct Hstatus. }
  destruct Hcases as (p & s2 & Hp & _ & _ & Hcases).
  destruct (less_than (AFloat p) threshold) as [low|e] eqn:Hlow.
  2:{ rewrite Hcases in Hstatus. by destruct Hstatus. }
  destruct (improved_predict_final_state rt self path use_tta threshold K s
              r p low Hres Hp Hlow)
    as (out1 & s1' & img & Hrun1 & Himg & Hfed & Hrng).
  rewrite Hrun in Hrun1. injection Hrun1 as <- <-.
  exists img. split; [done|]. split; [done|]. split; [|done].
  rewrite Hfed, !length_app. cbn. destruct use_tta; [|cbn; lia].
  rewrite length_variants. lia.
Qed.

Lemma improved_predict_runs_the_model_twice_on_the_image_witness :
  length (fed Sample.tta_improved_run.2) = 4.
Proof.
  assert (Sample.tta_improved_run
          = (Ok Sample.tta_improved_dict, Sample.tta_improved_run.2)) as H
    by (vm_compute; reflexivity).
  assert (str_field "status" Sample.tta_improved_dict = Some "success"
          ∨ str_field "status" Sample.tta_improved_dict = Some "warning") as Hst
    by (vm_compute; auto).
  destruct (improved_predict_runs_the_model_twice_on_the_image
              Sample.rt_custom Sample.custom "leaf.jpg" true (AFloat (mkQc 1 2)) 2
              Sample.s0 Sample.tta_improved_run.2 Sample.tta_improved_dict H Hst)
    as (img & _ & _ & Hlen & _).
  exact Hlen.
Defined.

(** ** When the top-3 list is there *)

Lemma top_3_idx_in_range (row : list Qc) (i : nat) :
  i ∈ Np.reversed (Np.last3 (Np.argsort row)) → i < length row.
Proof.
  unfold Np.reversed, Np.last3. rewrite elem_of_reverse.
  intros Hin%list_elem_of_lookup. destruct Hin as [k Hk].
  rewrite lookup_drop in Hk. apply list_elem_of_lookup_2 in Hk.
  unfold Np.argsort in Hk. fold (sorted_pairs row) in Hk.
  rewrite fst_sorted_pairs_perm in Hk. apply elem_of_seq in Hk. lia.
Qed.

Lemma top_entries_total (l : list string) (row : list Qc) (idxs : list nat) :
  Forall (λ i, i < length l ∧ i < length row) idxs →
  ∃ top, top_entries (LabelList l) row idxs = Ok top ∧ length top = length idxs.
Proof.
  induction 1 as [|i idxs [Hl Hr] _ (top & IH & Hlen)]; cbn; [by eexists|].
  unfold top_entry. cbn.
  destruct (lookup_lt_is_Some_2 l i Hl) as [label ->].
  unfold Np.index. destruct (lookup_lt_is_Some_2 row i Hr) as [p ->].
  rewrite IH. eexists. split; [reflexivity|]. cbn. by rewrite Hlen.
Qed.

(** X11. With a list of labels at least as long as the model's answers,
    the top-3 entry of a result is never [None]: whenever
    [improved_predict] returns 'success' or 'warning', its [top_3] is a
    list of one to three entries. (With fewer labels than outputs it can
    be [None].) *)
Theorem top_3_is_a_list_when_every_output_has_a_label
    (rt : Runtime) (self : manager) (path : string) (use_tta : bool)
    (threshold : atom) (K : Z) (s s' : state batch) (out : dict)
    (l : list string) :
  get_classes self = LabelList l →
  (∀ x row, model_row self x = Ok row → length row ≤ length l) →
  improved_predict rt self path use_tta threshold K s = (Ok out, s') →
  str_field "status" out = Some "success"
  ∨ str_field "status" out = Some "warning" →
  ∃ top, dict_get "top_3" out = Some (VList top)
         ∧ 1 ≤ length top ≤ 3
         ∧ top_3_result rt self path = Some top.
Proof.
  unfold get_classes. intros Hl Hm Hrun Hstatus.
  destruct (improved_predict_cases rt self path use_tta threshold K s)
    as (out0 & s0 & s1 & Hrun0 & _ & Hcases).
  rewrite Hrun in Hrun0. injection Hrun0 as <- <-.
  destruct (if use_tta then tta_result rt self path K (rng s)
            else direct_result rt self path) as [r|] eqn:Hres.
  2:{ rewrite Hcases in Hstatus. by destruct Hstatus. }
  destruct Hcases as (p & s2 & Hp & _ & _ & Hcases).
  destruct (less_than (AFloat p) threshold) as [low|e] eqn:Hlow.
  2:{ rewrite Hcases in Hstatus. by destruct Hstatus. }
  destruct Hcases as (_ & _ & Htop & _).
  assert (∃ img row, normalised_image rt self path = Ok img
                     ∧ model_row self (Tf.expand_dims0 img) = Ok row
                     ∧ row ≠ []) as (img & row & Himg & Hrow & Hne).
  { destruct use_tta.
    - unfold tta_result, tta_inputs in Hres.
      destruct (normalised_image rt self path) as [img|]; [|done].
      cbn in Hres.
      destruct (model_row self (Tf.expand_dims0 img)) as [row|] eqn:Hrow; [|done].
      exists img, row. split; [done|]. split; [done|].
      destruct (rows_of self _) as [rows|]; [|done].
      destruct (Np.mean_axis0 (row :: rows)) as [avg|] eqn:Havg; [|done].
      destruct (prediction_result self avg) as [r0|] eqn:Hr0; [|done].
      apply prediction_result_inv in Hr0 as (idx & ? & _ & _ & _ & Hidx & _).
      apply mean_axis0_spec in Havg as [Hlen _].
      apply Forall_cons in Hlen as [Hlen _].
      intros ->. cbn in Hlen. apply lookup_lt_Some in Hidx. lia.
    - unfold direct_result in Hres.
      destruct (normalised_image rt self path) as [img|]; [|done].
      destruct (model_row self (Tf.expand_dims0 img)) as [row|] eqn:Hrow; [|done].
      exists img, row. split; [done|]. split; [done|].
      destruct (prediction_result self row) as [r0|] eqn:Hr0; [|done].
      apply prediction_result_inv in Hr0 as (idx & ? & _ & _ & _ & Hidx & _).
      intros ->. done. }
  destruct (top_entries_total l row (Np.reversed (Np.last3 (Np.argsort row))))
    as (top & Htop' & Hlen).
  { apply Forall_forall. intros i Hi%top_3_idx_in_range.
    specialize (Hm _ _ Hrow). lia. }
  assert (top_3_result rt self path = Some top) as Hres3.
  { unfold top_3_result. by rewrite Himg, Hrow, Hl, Htop'. }
  exists top. rewrite Htop, Hres3. split; [done|]. split; [|done].
  rewrite Hlen. destruct (top_3_idx_spec row) as (-> & _).
  destruct row; [done|]. cbn [length]. lia.
Qed.

Lemma top_3_is_a_list_when_every_output_has_a_label_witness :
  ∃ top, dict_get "top_3" Sample.tta_improved_dict = Some (VList top)
         ∧ 1 ≤ length top ≤ 3.
Proof.
  assert (Sample.tta_improved_run
          = (Ok Sample.tta_improved_dict, Sample.tta_improved_run.2)) as H
    by (vm_compute; reflexivity).
  assert (str_field "status" Sample.tta_improved_dict = Some "success"
          ∨ str_field "status" Sample.tta_improved_dict = Some "warning") as Hst
    by (vm_compute; auto).
  assert (∀ x row, model_row Sample.custom x = Ok row →
                   length row ≤ length Config.DEFAULT_CLASSES) as Hm.
  { intros x row. unfold model_row.
    change (model Sample.custom) with (Some Sample.sign_model).
    cbn [run Sample.sign_model Sample.model_of].
    destruct x as [|img x]; [done|]. cbn. intros [= <-].
    destruct img as [|[|[[r g] b] ?] ?]; cbn; [lia..|].
    destruct (Qc_ltb r (Q2Qc 0)); cbn; lia. }
  destruct (top_3_is_a_list_when_every_output_has_a_label
              Sample.rt_custom Sample.custom "leaf.jpg" true (AFloat (mkQc 1 2)) 2
              Sample.s0 Sample.tta_improved_run.2 Sample.tta_improved_dict
              Config.DEFAULT_CLASSES eq_refl Hm H Hst)
    as (top & Htop & Hlen & _).
  exists top. split; [exact Htop|exact Hlen].
Defined.

(** ** The application: the extension check *)

Lemma contains_dot_cons (c : Ascii.ascii) (s : string) :
  contains "." (String c s)
  = bool_decide (String c EmptyString = ".") || contains "." s.
Proof.
  cbn [contains String.prefix].
  destruct (Ascii.ascii_dec _ c) as [<-|Hne].
  - by destruct s.
  - rewrite bool_decide_eq_false_2; [done|]. intros [= ->]. done.
Qed.

Lemma rsplit1_none (s : string) :
  App.rsplit1 "." s = None ↔ contains "." s = false.
Proof.
  induction s as [|c s IH]; [done|].
  rewrite contains_dot_cons. cbn [App.rsplit1].
  destruct (App.rsplit1 "." s) as [[a b]|].
  - split; [done|]. intros [_ H]%orb_false_iff. apply IH in H. done.
  - case_decide as Hc.
    + rewrite bool_decide_eq_true_2 by done. done.
    + rewrite bool_decide_eq_false_2 by done. cbn. by rewrite <- IH.
Qed.

Lemma rsplit1_split (s a b : string) :
  App.rsplit1 "." s = Some (a, b) →
  s = a +:+ "." +:+ b ∧ contains "." b = false.
Proof.
  revert a b. induction s as [|c s IH]; intros a b; [done|].
  cbn [App.rsplit1].
  destruct (App.rsplit1 "." s) as [[a' b']|] eqn:Hs.
  - intros [= <- <-]. destruct (IH a' b' eq_refl) as [-> Hb]. done.
  - apply rsplit1_none in Hs. case_decide as Hc; [|done].
    intros [= <- <-]. by injection Hc as ->.
Qed.

Lemma rsplit1_join (a b : string) :
  contains "." b = false → App.rsplit1 "." (a +:+ "." +:+ b) = Some (a, b).
Proof.
  intros Hb. induction a as [|c a IH].
  - apply rsplit1_none in Hb.
    cbv [String.append]. cbn [App.rsplit1]. rewrite Hb. by rewrite decide_True.
  - change (String c a +:+ "." +:+ b) with (String c (a +:+ "." +:+ b)).
    cbn [App.rsplit1]. by rewrite IH.
Qed.

Lemma rsplit1_some (s a b : string) :
  App.rsplit1 "." s = Some (a, b)
  ↔ s = a +:+ "." +:+ b ∧ contains "." b = false.
Proof.
  split; [apply rsplit1_split|]. intros [-> Hb]. by apply rsplit1_join.
Qed.

Lemma contains_dot_join (stem ext : string) :
  contains "." (stem +:+ "." +:+ ext) = true.
Proof.
  induction stem as [|c stem IH].
  - cbv [String.append]. by rewrite contains_dot_cons.
  - change (String c stem +:+ "." +:+ ext) with (String c (stem +:+ "." +:+ ext)).
    rewrite contains_dot_cons, IH. apply orb_true_r.
Qed.

(** X12. [allowed_file] never raises, and accepts a file name exactly
    when the name has a dot and the text after its last dot, in lower
    case, is one of png, jpg, jpeg, gif, bmp, webp. A name without a dot
    and a name that ends with a dot are refused; only the last extension
    of a name counts. *)
Theorem allowed_file_checks_the_text_after_the_last_dot (filename : string) :
  ∃ b, App.allowed_file filename = Ok b
       ∧ (b = true ↔
          ∃ stem ext, filename = stem +:+ "." +:+ ext
                      ∧ contains "." ext = false
                      ∧ lower ext ∈ App.ALLOWED_EXTENSIONS)
       ∧ (contains "." filename = false → b = false)
       ∧ (∀ stem, filename = stem +:+ "." → b = false).
Proof.
  unfold App.allowed_file, App.rsplit.
  destruct (contains "." filename) eqn:Hdot.
  - destruct (App.rsplit1 "." filename) as [[a ext]|] eqn:Hs.
    2:{ apply rsplit1_none in Hs. congruence. }
    cbn. eexists. split; [reflexivity|].
    apply rsplit1_some in Hs as Hs'. destruct Hs' as [Hf Hext].
    split; [|split; [done|]].
    + rewrite bool_decide_eq_true. split.
      * intros Hin. by exists a, ext.
      * intros (stem & ext' & Hf' & Hext' & Hin).
        assert (App.rsplit1 "." filename = Some (stem, ext')) as Hs2
          by (by apply rsplit1_some).
        rewrite Hs in Hs2. by injection Hs2 as -> ->.
    + intros stem Hstem.
      assert (App.rsplit1 "." filename = Some (stem, "")) as Hs2.
      { apply rsplit1_some. split; [|done]. by rewrite Hstem. }
      rewrite Hs in Hs2. injection Hs2 as -> ->.
      apply bool_decide_eq_false. vm_compute.
      intros H. repeat (apply elem_of_cons in H as [H|H]; [done|]).
      by apply elem_of_nil in H.
  - exists false. split; [done|]. split; [|done].
    split; [done|]. intros (stem & ext & -> & _ & _).
    by rewrite contains_dot_join in Hdot.
Qed.

(** ** The application: the cache of managers *)

(** Unfolding the monad of the handlers. *)
Ltac aunfold :=
  unfold mbind, mret, App.Mapp_bind, App.Mapp_ret, App.app_bind, App.app_ret,
    App.app_try, App.of_outcome, App.in_world, App.app_logger,
    App.get_loaded_models, App.set_loaded_model, logger in *.

Lemma resolved_configured (model_name : string) :
  is_Some (dict_get (resolved model_name) App.MODELS_CONFIG)
  ∧ resolved (resolved model_name) = resolved model_name.
Proof.
  unfold resolved.
  destruct (dict_get model_name App.MODELS_CONFIG) as [cfg|] eqn:Hc.
  - by rewrite Hc.
  - split; [by eexists|done].
Qed.


Lemma set_preprocess_function_state
    (rt : Runtime) (self : manager) (s s1 : state batch) (o : outcome manager) :
  _set_preprocess_function rt self s = (o, s1) →
  rng s1 = rng s ∧ fed s1 = fed s.
Proof.
  unfold _set_preprocess_function. munfold.
  repeat match goal with
  | |- context [if contains ?a ?b then _ else _] => destruct (contains a b)
  | |- context [import_preprocess_input rt ?m] =>
      destruct (import_preprocess_input rt m); cbn
  end; by intros [= <- <-].
Qed.

(** Construction touches neither the random stream nor the model, however
    it ends; when it succeeds the manager holds its arguments and is
    loaded. *)
Lemma init_state (rt : Runtime) (mp cp : string) (sz : Z * Z) (mt : string)
    (s s' : state batch) (o : outcome manager) :
  __init__ rt mp cp sz mt s = (o, s') →
  rng s' = rng s ∧ fed s' = fed s
  ∧ ∀ self, o = Ok self →
      model_path self = mp ∧ classes_path self = cp
      ∧ img_size self = sz ∧ model_type self = mt
      ∧ is_Some (model self) ∧ is_Some (preprocess_fn self)
      ∧ os_path_exists rt mp = true.
Proof.
  unfold __init__.
  unfold mbind at 1, M_bind, bind at 1.
  destruct (_set_preprocess_function rt _ s) as [[self1|e] s1] eqn:H1.
  2:{ apply set_preprocess_function_state in H1 as [? ?].
      intros [= <- <-]. by repeat split. }
  apply set_preprocess_function_state in H1 as Hst. destruct Hst as [Hr1 Hf1].
  apply set_preprocess_function_inv in H1 as ([f ->] & _ & _).
  unfold mbind at 1, bind at 1.
  destruct (load_model_cases rt
              (set_preprocess_fn (Manager mp cp sz mt None (LabelList []) None) f) s1)
    as (s2 & Hr2 & Hf2 & H2 & _).
  rewrite H2. cbn [model_path set_preprocess_fn].
  destruct (os_path_exists rt mp) eqn:Hex.
  2:{ intros [= <- <-]. split; [congruence|]. split; [congruence|done]. }
  destruct (keras_load_model rt mp) as [m|e].
  2:{ intros [= <- <-]. split; [congruence|]. split; [congruence|done]. }
  match goal with
  | |- _load_classes rt ?x s2 = _ → _ =>
      destruct (load_classes_total rt x s2) as (c & s3 & H3 & Hr3 & Hf3)
  end.
  rewrite H3. intros [= <- <-]. split; [congruence|]. split; [congruence|].
  intros self [= <-]. cbn. repeat split; by eexists.
Qed.

(** What [get_model_manager] does, case by case. *)
Lemma get_model_manager_cases
    (rt : Runtime) (web : App.Web) (model_name : string) (a : App.app_state) :
  ∃ r a',
    App.get_model_manager rt web model_name a = (Ok r, a')
    ∧ rng (App.world a') = rng (App.world a)
    ∧ fed (App.world a') = fed (App.world a)
    ∧ match dict_get (resolved model_name) (App.loaded_models a) with
      | Some cached =>
          r = Some cached ∧ App.loaded_models a' = App.loaded_models a
          ∧ log (App.world a')
            = log (App.world a)
              ++ match dict_get model_name App.MODELS_CONFIG with
                 | Some _ => []
                 | None => [(WARNING, "Modelo " +:+ model_name
                                      +:+ " no existe. Usando ResNet50 por defecto.")]
                 end
              ++ [(INFO, "♻️ Usando modelo " +:+ resolved model_name
                         +:+ " desde caché")]
      | None =>
          match r with
          | Some m =>
              App.loaded_models a'
              = dict_set (resolved model_name) m (App.loaded_models a)
              ∧ App.MODEL_AVAILABLE web = true
              ∧ ∃ cfg s1 s2,
                  dict_get (resolved model_name) App.MODELS_CONFIG = Some cfg
                  ∧ __init__ rt (App.cfg_path cfg) (App.cfg_classes cfg)
                      (App.cfg_size cfg) (resolved model_name) s1 = (Ok m, s2)
          | None =>
              App.loaded_models a' = App.loaded_models a
              ∧ ∃ lv msg, last (log (App.world a')) = Some (lv, msg) ∧ lv = ERROR
          end
      end.
Proof.
  unfold App.get_model_manager.
  match goal with
  | |- context [mbind ?k _] => set (K := k)
  end.
  assert (∀ name cfg a1,
            dict_get name App.MODELS_CONFIG = Some cfg →
            ∃ r a',
              K name a1 = (Ok r, a')
              ∧ rng (App.world a') = rng (App.world a1)
              ∧ fed (App.world a') = fed (App.world a1)
              ∧ match dict_get name (App.loaded_models a1) with
                | Some cached =>
                    r = Some cached ∧ App.loaded_models a' = App.loaded_models a1
                    ∧ log (App.world a')
                      = log (App.world a1)
                        ++ [(INFO, "♻️ Usando modelo " +:+ name +:+ " desde caché")]
                | None =>
                    match r with
                    | Some m =>
                        App.loaded_models a' = dict_set name m (App.loaded_models a1)
                        ∧ App.MODEL_AVAILABLE web = true
                        ∧ ∃ cfg s1 s2,
                            dict_get name App.MODELS_CONFIG = Some cfg
                            ∧ __init__ rt (App.cfg_path cfg) (App.cfg_classes cfg)
                                (App.cfg_size cfg) name s1 = (Ok m, s2)
                    | None =>
                        App.loaded_models a' = App.loaded_models a1
                        ∧ ∃ lv msg, last (log (App.world a')) = Some (lv, msg)
                                    ∧ lv = ERROR
                    end
                end) as HK.
  { intros name cfg a1 Hcfg. unfold K.
    unfold mbind at 1, App.Mapp_bind, App.app_bind at 1.
    unfold App.get_loaded_models at 1.
    destruct (dict_get name (App.loaded_models a1)) as [cached|].
    { aunfold. cbn. eexists _, _. split; [reflexivity|]. by cbn. }
    rewrite Hcfg. aunfold. cbn.
    unfold App.new_ModelManager. destruct (App.MODEL_AVAILABLE web); aunfold; cbn.
    2:{ eexists _, _. split; [reflexivity|]. cbn.
        split; [done|]. split; [done|]. split; [done|].
        eexists _, _. by rewrite last_snoc. }
    match goal with
    | |- context [__init__ rt ?p ?c ?z ?t ?st] =>
        destruct (__init__ rt p c z t st) as [[m|e] s2] eqn:Hinit
    end; cbn.
    - eexists _, _. split; [reflexivity|]. cbn.
      apply init_state in Hinit as Hst.
      destruct Hst as (Hr & Hf & _). cbn in Hr, Hf.
      split; [done|]. split; [done|].
      split; [done|]. split; [done|]. by eauto.
    - eexists _, _. split; [reflexivity|]. cbn.
      apply init_state in Hinit as (Hr & Hf & _). cbn in Hr, Hf.
      split; [done|]. split; [done|]. split; [done|].
      eexists _, _. by rewrite last_snoc. }
  unfold resolved.
  destruct (dict_get model_name App.MODELS_CONFIG) as [cfg|] eqn:Hname.
  - destruct (HK model_name cfg a Hname) as (r & a' & Hrun & Hrest).
    exists r, a'. split; [|done]. aunfold. exact Hrun.
  - destruct (HK "ResNet50" _
                (App.AppState (App.loaded_models a)
                   (State (log (App.world a)
                           ++ [(WARNING, "Modelo " +:+ model_name
                                +:+ " no existe. Usando ResNet50 por defecto.")])
                          (rng (App.world a)) (fed (App.world a)))) eq_refl)
      as (r & a' & Hrun & Hrest).
    exists r, a'. split; [aunfold; cbn; exact Hrun|].
    cbn in Hrest. destruct Hrest as (? & ? & Hrest). split; [done|]. split; [done|].
    destruct (dict_get "ResNet50" (App.loaded_models a)); [|done].
    destruct Hrest as (? & ? & ->). by rewrite <- app_assoc.
Qed.

(** A cache of loaded managers stays one. *)
Lemma get_model_manager_cache_ok
    (rt : Runtime) (web : App.Web) (model_name : string) (a a' : App.app_state)
    (r : option manager) :
  App.get_model_manager rt web model_name a = (Ok r, a') →
  cache_ok (App.loaded_models a) → cache_ok (App.loaded_models a').
Proof.
  intros Hrun Hok.
  destruct (get_model_manager_cases rt web model_name a)
    as (r1 & a1 & Hrun1 & _ & _ & Hcases).
  rewrite Hrun in Hrun1. injection Hrun1 as <- <-.
  destruct (dict_get (resolved model_name) (App.loaded_models a))
    as [cached|] eqn:Hc.
  - destruct Hcases as (_ & -> & _). done.
  - destruct r as [m|].
    + destruct Hcases as (-> & _ & cfg & s1 & s2 & Hcfg & Hinit).
      apply init_state in Hinit as (_ & _ & Hself).
      destruct (Hself m eq_refl) as (Hp & Hcp & Hsz & Hmt & Hm & Hf & _).
      intros k m' Hk. destruct (decide (k = resolved model_name)) as [->|Hne].
      { rewrite dict_get_set_eq in Hk. injection Hk as <-. by exists cfg. }
      rewrite dict_get_set_ne in Hk by done. by apply Hok.
    + destruct Hcases as (-> & _). done.
Qed.

(** X13. [get_model_manager] never raises, draws no random number and
    runs no inference. Starting from a cache in which every manager sits
    under a configured name and is loaded, it leaves such a cache; a
    manager it returns is afterwards in the cache under the resolved name
    (the name asked for, or ResNet50 for a name that is not configured),
    was built for that name and is loaded; when it returns [None] the
    cache is as it was, so a failed load is not remembered; and the
    entries of the other names are never touched. *)
Theorem get_model_manager_keeps_a_cache_of_loaded_managers
    (rt : Runtime) (web : App.Web) (model_name : string) (a : App.app_state) :
  cache_ok (App.loaded_models a) →
  ∃ r a',
    App.get_model_manager rt web model_name a = (Ok r, a')
    ∧ cache_ok (App.loaded_models a')
    ∧ rng (App.world a') = rng (App.world a)
    ∧ fed (App.world a') = fed (App.world a)
    ∧ (∀ m, r = Some m →
         dict_get (resolved model_name) (App.loaded_models a') = Some m
         ∧ model_type m = resolved model_name
         ∧ is_Some (model m) ∧ is_Some (preprocess_fn m))
    ∧ (r = None →
         App.loaded_models a' = App.loaded_models a
         ∧ dict_get (resolved model_name) (App.loaded_models a) = None)
    ∧ (∀ k, k ≠ resolved model_name →
         dict_get k (App.loaded_models a') = dict_get k (App.loaded_models a)).
Proof.
  intros Hok.
  destruct (get_model_manager_cases rt web model_name a)
    as (r & a' & Hrun & Hrng & Hfed & Hcases).
  exists r, a'. split; [done|].
  destruct (dict_get (resolved model_name) (App.loaded_models a))
    as [cached|] eqn:Hc.
  - destruct Hcases as (-> & Hl & _). rewrite Hl.
    split; [done|]. split; [done|]. split; [done|].
    split; [|split; [done|done]].
    intros m [= <-]. split; [done|].
    destruct (Hok _ _ Hc) as (cfg & _ & ? & _ & _ & _ & ? & ?). done.
  - destruct r as [m|].
    + destruct Hcases as (Hl & _ & cfg & s1 & s2 & Hcfg & Hinit).
      apply init_state in Hinit as (_ & _ & Hself).
      destruct (Hself m eq_refl) as (Hp & Hcp & Hsz & Hmt & Hm & Hf & _).
      rewrite Hl. split; [|split; [done|split; [done|split; [|split; [done|]]]]].
      * intros k m' Hk. destruct (decide (k = resolved model_name)) as [->|Hne].
        { rewrite dict_get_set_eq in Hk. injection Hk as <-. by exists cfg. }
        rewrite dict_get_set_ne in Hk by done. by apply Hok.
      * intros m' [= <-]. by rewrite dict_get_set_eq.
      * intros k Hk. by apply dict_get_set_ne.
    + destruct Hcases as (Hl & _). rewrite Hl.
      split; [done|]. split; [done|]. split; [done|]. split; [done|].
      split; [done|done].
Qed.

Lemma get_model_manager_keeps_a_cache_of_loaded_managers_witness :
  ∃ r a',
    Scenario.first_load = (Ok r, a')
    ∧ cache_ok (App.loaded_models a').
Proof.
  assert (cache_ok (App.loaded_models Scenario.a0)) as H0 by (by intros k m).
  destruct (get_model_manager_keeps_a_cache_of_loaded_managers
              Scenario.rt_app Scenario.web "ResNet50" Scenario.a0 H0)
    as (r & a' & Hrun & Hok & _).
  exists r, a'. split; [exact Hrun|exact Hok].
Defined.

(** X14. A model is loaded once: after [get_model_manager] has returned
    a manager, asking again for the same name, or for any name that
    resolves to it, returns the same manager from the cache, leaves the
    cache as it is, and constructs nothing: the only new log records are
    the warning for a name that is not configured and the line that
    announces the cache hit. *)
Theorem get_model_manager_loads_a_model_once
    (rt : Runtime) (web : App.Web) (model_name again : string)
    (a a' : App.app_state) (m : manager) :
  App.get_model_manager rt web model_name a = (Ok (Some m), a') →
  resolved again = resolved model_name →
  ∃ a'',
    App.get_model_manager rt web again a' = (Ok (Some m), a'')
    ∧ App.loaded_models a'' = App.loaded_models a'
    ∧ rng (App.world a'') = rng (App.world a')
    ∧ fed (App.world a'') = fed (App.world a')
    ∧ log (App.world a'')
      = log (App.world a')
        ++ match dict_get again App.MODELS_CONFIG with
           | Some _ => []
           | None => [(WARNING, "Modelo " +:+ again
                                +:+ " no existe. Usando ResNet50 por defecto.")]
           end
        ++ [(INFO, "♻️ Usando modelo " +:+ resolved model_name +:+ " desde caché")].
Proof.
  intros Hrun Hagain.
  assert (dict_get (resolved model_name) (App.loaded_models a') = Some m) as Hin.
  { destruct (get_model_manager_cases rt web model_name a)
      as (r & a1 & Hrun1 & _ & _ & Hcases).
    rewrite Hrun in Hrun1. injection Hrun1 as <- <-.
    destruct (dict_get (resolved model_name) (App.loaded_models a))
      as [cached|] eqn:Hc.
    - destruct Hcases as ([= <-] & -> & _). done.
    - destruct Hcases as (-> & _). by rewrite dict_get_set_eq. }
  destruct (get_model_manager_cases rt web again a')
    as (r & a'' & Hrun2 & Hrng & Hfed & Hcases).
  rewrite Hagain, Hin in Hcases. destruct Hcases as (-> & Hl & Hlog).
  exists a''. by repeat split.
Qed.


Lemma get_model_manager_loads_a_model_once_witness :
  ∃ a'',
    App.get_model_manager Scenario.rt_app Scenario.web "NoSuchModel"
      Scenario.first_load.2
    = (Ok (Some Scenario.loaded_manager), a'')
    ∧ App.loaded_models a'' = App.loaded_models Scenario.first_load.2.
Proof.
  assert (Scenario.first_load
          = (Ok (Some Scenario.loaded_manager), Scenario.first_load.2)) as H
    by (vm_compute; reflexivity).
  destruct (get_model_manager_loads_a_model_once
              Scenario.rt_app Scenario.web "ResNet50" "NoSuchModel"
              Scenario.a0 Scenario.first_load.2 Scenario.loaded_manager H eq_refl)
    as (a'' & Hrun & Hl & _).
  exists a''. split; [exact Hrun|exact Hl].
Defined.

(** ** The application: the prediction endpoint *)

(** What the endpoint finds in a result of [improved_predict] with a
    numeric threshold. *)
Lemma improved_predict_answer
    (rt : Runtime) (m : manager) (path : string) (use_tta : bool) (τ : Qc)
    (K : Z) (s s' : state batch) (out : dict) :
  improved_predict rt m path use_tta (AFloat τ) K s = (Ok out, s') →
  if match out with [] => false | _ => true end
     && App.in_success_warning (dict_get "status" out)
  then ∃ label p st,
         dict_get "class" out = Some (VAtom (AStr label))
         ∧ dict_get "confidence" out = Some (VAtom (AFloat (p * Qc_of_Z 100)%Qc))
         ∧ dict_get "probability" out = Some (VAtom (AFloat p))
         ∧ dict_get "status" out = Some (VAtom (AStr st))
         ∧ st = (if Qc_ltb p τ then "warning" else "success")
         ∧ dict_get "top_3" out = Some (top_3_val (top_3_result rt m path))
         ∧ is_Some (dict_get "method" out)
         ∧ is_Some (dict_get "probabilities" out)
  else str_field "status" out = Some "error"
       ∧ dict_get "message" out = Some (VAtom (AStr "Error en la predicción")).
Proof.
  intros Hrun.
  destruct (improved_predict_cases rt m path use_tta (AFloat τ) K s)
    as (out0 & s0 & s1 & Hrun0 & _ & Hcases).
  rewrite Hrun in Hrun0. injection Hrun0 as <- <-.
  destruct (if use_tta then tta_result rt m path K (rng s)
            else direct_result rt m path) as [r|] eqn:Hres.
  2:{ by rewrite Hcases. }
  assert (∃ label, dict_get "class" r = Some (VAtom (AStr label))) as [label Hl].
  { apply underlying_result_shape in Hres
      as (? & ? & ? & label & ? & ? & _ & _ & _ & ->).
    by exists label. }
  destruct Hcases as (p & s2 & Hp & Hc & _ & Hcases).
  cbn [less_than] in Hcases.
  destruct Hcases as (Hst & Hall & Htop & Hmeth & Hmsg).
  apply Forall_cons in Hall as [[_ H1] Hall].
  apply Forall_cons in Hall as [[_ H2] Hall].
  apply Forall_cons in Hall as [[_ H3] Hall].
  apply Forall_cons in Hall as [[[probs H4'] H4] _].
  rewrite Hc in H2. rewrite Hp in H3.
  rewrite Hl in H1.
  unfold str_field in Hst, Hmeth.
  destruct (dict_get "status" out) as [[[| | |st]| |]|] eqn:Hstatus; try done.
  injection Hst as ->.
  assert (match out with [] => false | _ :: _ => true end = true) as ->
    by (by destruct out).
  assert (App.in_success_warning
            (Some (VAtom (AStr (if Qc_ltb p τ then "warning" else "success"))))
          = true) as -> by (by destruct (Qc_ltb p τ)).
  cbn [andb]. eexists label, p, _.
  split; [done|]. split; [done|]. split; [done|]. split; [done|]. split; [done|].
  split; [done|]. split.
  - destruct (dict_get "method" out) as [[[| | |?]| |]|]; by destruct Hmeth.
  - rewrite H4, H4'. by eexists.
Qed.

(** The endpoint on an upload that passes the checks and is saved. *)
Lemma predict_endpoint_valid
    (rt : Runtime) (web : App.Web) (request : App.Request) (a : App.app_state)
    (uploads : list (string * App.FileStorage)) (f : App.FileStorage)
    (fields : list (string * string)) :
  App.files request = Ok uploads →
  chosen_file uploads = Some f →
  App.filename f ≠ "" →
  App.allowed_file (App.filename f) = Ok true →
  App.save f (saved_path web f) = Ok () →
  App.form request = Ok fields →
  ∃ resp a' current a2,
    App.predict rt web request a = (Ok resp, a')
    ∧ App.get_model_manager rt web (selected_model_of fields)
        (App.AppState (App.loaded_models a)
           (State (log (App.world a)
                   ++ [(INFO, "📸 Imagen guardada: " +:+ saved_name web f)])
                  (rng (App.world a)) (fed (App.world a))))
      = (Ok current, a2)
    ∧ App.loaded_models a' = App.loaded_models a2
    ∧ match current with
      | None =>
          a' = a2
          ∧ resp = ([("success", App.RBool true);
                     ("filename", App.rstr (saved_name web f));
                     ("prediction", App.RObj App.mock_prediction);
                     ("status", App.rstr "success");
                     ("message",
                      App.rstr "Simulación realizada (modelo no cargado)")], 200)
      | Some m =>
          ∃ s1 out,
            rng s1 = rng (App.world a2) ∧ fed s1 = fed (App.world a2)
            ∧ improved_predict rt m (saved_path web f) (use_tta_of fields)
                (AFloat (mkQc 50 100)) (if use_tta_of fields then 8 else 0)%Z s1
              = (Ok out, App.world a')
            ∧ if match out with [] => false | _ => true end
                 && App.in_success_warning (dict_get "status" out)
              then ∃ class confidence probability status top_3 method probs,
                     dict_get "class" out = Some class
                     ∧ dict_get "confidence" out = Some confidence
                     ∧ dict_get "probability" out = Some probability
                     ∧ dict_get "status" out = Some status
                     ∧ dict_get "top_3" out = Some top_3
                     ∧ dict_get "method" out = Some method
                     ∧ dict_get "probabilities" out = Some probs
                     ∧ resp = ([("success", App.RBool true);
                                ("filename", App.rstr (saved_name web f));
                                ("timestamp",
                                 App.rstr (App.now_strftime web "%Y%m%d_%H%M%S"));
                                ("prediction",
                                 App.RObj [("class", class);
                                           ("confidence", confidence);
                                           ("probability", probability);
                                           ("method", method);
                                           ("top_3", top_3);
                                           ("all_probabilities", probs)]);
                                ("status", App.RVal status);
                                ("tta_used", App.RBool (use_tta_of fields));
                                ("model_used",
                                 App.rstr (selected_model_of fields))], 200)
              else resp = App.server_error
                            (App.RVal (get_default out "message" (VAtom ANone)))
      end.
Proof.
  intros Hfiles Hchosen Hname Hallowed Hsave Hform.
  unfold App.predict. unfold App.app_try at 1.
  unfold mbind at 1, App.Mapp_bind, App.app_bind at 1.
  unfold App.of_outcome at 1. rewrite Hfiles.
  unfold chosen_file in Hchosen. rewrite Hchosen.
  rewrite (bool_decide_eq_true_2 _ Hname), (bool_decide_eq_false_2 _ Hname).
  cbn [negb orb].
  unfold mbind at 1, App.app_bind at 1. unfold App.of_outcome at 1.
  rewrite Hallowed. cbn [negb].
  unfold mbind at 1, App.app_bind at 1. unfold App.of_outcome at 1.
  unfold saved_path, saved_name in Hsave. rewrite Hsave.
  unfold mbind at 1, App.app_bind at 1. unfold App.app_logger at 1.
  unfold App.in_world at 1. unfold logger at 1. cbn [App.world App.loaded_models].
  unfold mbind at 1, App.app_bind at 1. unfold App.of_outcome at 1.
  rewrite Hform.
  unfold mbind at 1, App.app_bind at 1.
  fold (selected_model_of fields). fold (use_tta_of fields).
  fold (saved_name web f). fold (saved_path web f).
  match goal with
  | |- context [App.get_model_manager rt web ?n ?st] =>
      destruct (get_model_manager_cases rt web n st)
        as (current & a2 & Hgm & Hrng2 & Hfed2 & _)
  end.
  rewrite Hgm. destruct current as [m|].
  2:{ eexists _, _, None, a2. split; [reflexivity|]. split; [done|].
      split; [done|]. by split. }
  unfold App.app_try at 1.
  unfold mbind at 1, App.app_bind at 1. unfold App.app_logger at 1.
  unfold App.in_world at 1. unfold logger at 1. cbn [App.world App.loaded_models].
  unfold mbind at 1, App.app_bind at 1. unfold App.in_world at 1.
  cbn [App.world App.loaded_models].
  match goal with
  | |- context [improved_predict rt m ?p ?u ?t ?k ?st] =>
      destruct (improved_predict rt m p u t k st) as [o s2] eqn:Hip;
      destruct (improved_predict_cases rt m p u t k st)
        as (out & s2' & _ & Hip' & _)
  end.
  rewrite Hip in Hip'. injection Hip' as -> <-.
  pose proof (improved_predict_answer _ _ _ _ _ _ _ _ _ Hip) as Hans.
  destruct (match out with [] => false | _ => true end
            && App.in_success_warning (dict_get "status" out)) eqn:Hok.
  - destruct Hans as (label & p & st & Hc & Hconf & Hp & Hst & _ & Htop & [meth Hmeth]
                      & [probs Hprobs]).
    unfold mbind, App.Mapp_bind, App.app_bind, App.of_outcome, mret, App.Mapp_ret,
      App.app_ret, getitem, get_default.
    rewrite Hc, Hconf, Hp, Hst, Htop, Hmeth, Hprobs. cbn [App.div100].
    eexists _, _, (Some m), a2. split; [reflexivity|]. split; [done|].
    split; [done|]. eexists _, out. split; [|split; [|split; [exact Hip|]]];
      [done..|].
    rewrite Hok. by eexists _, _, _, _, _, _, _.
  - unfold mret, App.Mapp_ret, App.app_ret.
    eexists _, _, (Some m), a2. split; [reflexivity|]. split; [done|].
    split; [done|]. eexists _, out. split; [|split; [|split; [exact Hip|]]];
      [done..|].
    by rewrite Hok.
Qed.

Lemma allowed_file_total (filename : string) :
  ∃ b, App.allowed_file filename = Ok b.
Proof.
  unfold App.allowed_file, App.rsplit.
  destruct (contains "." filename) eqn:Hdot; [|by eexists].
  destruct (App.rsplit1 "." filename) as [[a ext]|] eqn:Hs; [by eexists|].
  apply rsplit1_none in Hs. congruence.
Qed.

(** X15. The endpoint always answers: [predict] never raises and returns
    a response with status 200, 400 or 500, whose [success] field is true
    exactly when the status is 200. It answers 400 exactly when the request
    carries no upload with a file name under 'image' or 'file', or when
    [allowed_file] refuses the name; a request refused with 400 leaves no
    trace at all: nothing is logged, the cache is as it was and no model
    is run. A cache of loaded managers stays one. *)
Theorem predict_endpoint_always_answers
    (rt : Runtime) (web : App.Web) (request : App.Request) (a : App.app_state) :
  ∃ resp a',
    App.predict rt web request a = (Ok resp, a')
    ∧ (resp.2 = 200 ∨ resp.2 = 400 ∨ resp.2 = 500)
    ∧ body_field "success" resp = Some (App.RBool (bool_decide (resp.2 = 200)))
    ∧ (resp.2 = 400 ↔
       ∃ uploads, App.files request = Ok uploads
                  ∧ match chosen_file uploads with
                    | None => True
                    | Some f => App.filename f = ""
                                ∨ App.allowed_file (App.filename f) = Ok false
                    end)
    ∧ (resp.2 = 400 → a' = a)
    ∧ (cache_ok (App.loaded_models a) → cache_ok (App.loaded_models a')).
Proof.
  destruct (App.files request) as [uploads|e] eqn:Hfiles.
  2:{ unfold App.predict. aunfold. rewrite Hfiles. cbn.
      eexists _, _. split; [reflexivity|]. cbn.
      split; [auto|]. split; [done|]. split; [|done].
      split; [done|]. by intros (? & ? & _). }
  destruct (chosen_file uploads) as [f|] eqn:Hchosen.
  2:{ unfold App.predict. aunfold. rewrite Hfiles.
      unfold chosen_file in Hchosen. rewrite Hchosen. cbn.
      eexists _, _. split; [reflexivity|]. cbn.
      split; [auto|]. split; [done|]. split; [|done].
      split; [|done]. intros _. exists uploads. split; [done|].
      unfold chosen_file. by rewrite Hchosen. }
  destruct (decide (App.filename f = "")) as [Hname|Hname].
  { unfold App.predict. aunfold. rewrite Hfiles.
    unfold chosen_file in Hchosen. rewrite Hchosen.
    rewrite (bool_decide_eq_true_2 _ Hname). rewrite orb_true_r. cbn.
    eexists _, _. split; [reflexivity|]. cbn.
    split; [auto|]. split; [done|]. split; [|done].
    split; [|done]. intros _. exists uploads. split; [done|].
    unfold chosen_file. rewrite Hchosen. by left. }
  destruct (allowed_file_total (App.filename f)) as [[|] Hallowed].
  2:{ unfold App.predict. aunfold. rewrite Hfiles.
      unfold chosen_file in Hchosen. rewrite Hchosen.
      rewrite (bool_decide_eq_true_2 _ Hname), (bool_decide_eq_false_2 _ Hname).
      cbn [negb orb]. rewrite Hallowed. cbn.
      eexists _, _. split; [reflexivity|]. cbn.
      split; [auto|]. split; [done|]. split; [|done].
      split; [|done]. intros _. exists uploads. split; [done|].
      unfold chosen_file. rewrite Hchosen. by right. }
  assert (¬ (∃ uploads0, Ok uploads = Ok uploads0
               ∧ match chosen_file uploads0 with
                 | None => True
                 | Some f0 => App.filename f0 = ""
                              ∨ App.allowed_file (App.filename f0) = Ok false
                 end)) as Hnot.
  { intros (uploads0 & [= <-] & H). rewrite Hchosen in H.
    destruct H as [?|H]; [done|]. rewrite Hallowed in H. done. }
  destruct (App.save f (saved_path web f)) as [[]|e] eqn:Hsave.
  2:{ unfold App.predict. aunfold. rewrite Hfiles.
      unfold chosen_file in Hchosen. rewrite Hchosen.
      rewrite (bool_decide_eq_true_2 _ Hname), (bool_decide_eq_false_2 _ Hname).
      cbn [negb orb]. rewrite Hallowed. cbn [negb].
      unfold saved_path, saved_name in Hsave. rewrite Hsave. cbn.
      eexists _, _. split; [reflexivity|]. cbn.
      split; [auto|]. split; [done|]. split; [|done].
      split; [done|]. intros H. by destruct Hnot. }
  destruct (App.form request) as [fields|e] eqn:Hform.
  2:{ unfold App.predict. aunfold. rewrite Hfiles.
      unfold chosen_file in Hchosen. rewrite Hchosen.
      rewrite (bool_decide_eq_true_2 _ Hname), (bool_decide_eq_false_2 _ Hname).
      cbn [negb orb]. rewrite Hallowed. cbn [negb].
      unfold saved_path, saved_name in Hsave. rewrite Hsave. rewrite Hform. cbn.
      eexists _, _. split; [reflexivity|]. cbn.
      split; [auto|]. split; [done|]. split; [|done].
      split; [done|]. intros H. by destruct Hnot. }
  destruct (predict_endpoint_valid rt web request a uploads f fields
              Hfiles Hchosen Hname Hallowed Hsave Hform)
    as (resp & a' & current & a2 & Hrun & Hgm & Hl & Hcur).
  exists resp, a'. split; [done|].
  assert (resp.2 ≠ 400
          ∧ (resp.2 = 200 ∨ resp.2 = 400 ∨ resp.2 = 500)
          ∧ body_field "success" resp
            = Some (App.RBool (bool_decide (resp.2 = 200)))) as (Hne & Hcode & Hsucc).
  { destruct current as [m|].
    - destruct Hcur as (s1 & out & _ & _ & _ & Hresp).
      destruct (_ && _).
      + destruct Hresp as (? & ? & ? & ? & ? & ? & ? & _ & _ & _ & _ & _ & _ & _ & ->).
        cbn. split; [done|]. split; [auto|done].
      + rewrite Hresp. cbn. split; [done|]. split; [auto|done].
    - destruct Hcur as [_ ->]. cbn. split; [done|]. split; [auto|done]. }
  split; [done|]. split; [done|].
  split; [split; [done|]; intros H; by destruct Hnot|].
  split; [done|].
  intros Hok. rewrite Hl. by eapply get_model_manager_cache_ok.
Qed.

(** X16. When the manager cannot be had, the endpoint simulates: for an
    upload that passes the checks and is saved, if the model asked for is
    not in the cache and cannot be loaded (the import of the manager
    failed, or the model file is not there), the answer is not an error
    but status 200 with [success] true, [status] 'success' and the fixed
    prediction Healthy, confidence 85.5, probability 0.855. No model is
    run and the cache stays as it was. *)
Theorem endpoint_simulates_when_the_model_cannot_be_loaded
    (rt : Runtime) (web : App.Web) (request : App.Request) (a : App.app_state)
    (uploads : list (string * App.FileStorage)) (f : App.FileStorage)
    (fields : list (string * string)) (cfg : App.model_config) :
  App.files request = Ok uploads →
  chosen_file uploads = Some f →
  App.filename f ≠ "" →
  App.allowed_file (App.filename f) = Ok true →
  App.save f (saved_path web f) = Ok () →
  App.form request = Ok fields →
  dict_get (resolved (selected_model_of fields)) (App.loaded_models a) = None →
  dict_get (resolved (selected_model_of fields)) App.MODELS_CONFIG = Some cfg →
  App.MODEL_AVAILABLE web = false ∨ os_path_exists rt (App.cfg_path cfg) = false →
  ∃ resp a',
    App.predict rt web request a = (Ok resp, a')
    ∧ resp.2 = 200
    ∧ body_field "success" resp = Some (App.RBool true)
    ∧ body_field "status" resp = Some (App.rstr "success")
    ∧ body_field "message" resp
      = Some (App.rstr "Simulación realizada (modelo no cargado)")
    ∧ prediction_field "class" resp = Some (VAtom (AStr "Healthy"))
    ∧ prediction_field "confidence" resp = Some (VAtom (AFloat (mkQc 855 10)))
    ∧ prediction_field "probability" resp = Some (VAtom (AFloat (mkQc 855 1000)))
    ∧ fed (App.world a') = fed (App.world a)
    ∧ rng (App.world a') = rng (App.world a)
    ∧ App.loaded_models a' = App.loaded_models a.
Proof.
  intros Hfiles Hchosen Hname Hallowed Hsave Hform Hcache Hcfg Hmissing.
  destruct (predict_endpoint_valid rt web request a uploads f fields
              Hfiles Hchosen Hname Hallowed Hsave Hform)
    as (resp & a' & current & a2 & Hrun & Hgm & Hl & Hcur).
  match type of Hgm with
  | App.get_model_manager rt web ?n ?st = _ =>
      destruct (get_model_manager_cases rt web n st)
        as (r & a3 & Hgm' & Hrng & Hfed & Hcases)
  end.
  rewrite Hgm in Hgm'. injection Hgm' as <- <-.
  cbn [App.loaded_models App.world rng fed] in Hcases, Hrng, Hfed.
  rewrite Hcache in Hcases.
  destruct current as [m|].
  { destruct Hcases as (_ & Hav & cfg' & s1 & s2 & Hcfg' & Hinit). exfalso.
    rewrite Hcfg in Hcfg'. injection Hcfg' as <-.
    apply init_state in Hinit as (_ & _ & Hself).
    destruct (Hself m eq_refl) as (_ & _ & _ & _ & _ & _ & Hex).
    destruct Hmissing; congruence. }
  destruct Hcur as [-> ->]. destruct Hcases as [Hl2 _].
  eexists _, a2. split; [exact Hrun|]. by repeat split.
Qed.

Lemma endpoint_simulates_when_the_model_cannot_be_loaded_witness :
  ∃ resp a',
    Scenario.served_without_model = (Ok resp, a')
    ∧ resp.2 = 200
    ∧ prediction_field "class" resp = Some (VAtom (AStr "Healthy")).
Proof.
  assert (App.allowed_file "leaf.jpg" = Ok true) as Hallowed
    by (vm_compute; reflexivity).
  destruct (endpoint_simulates_when_the_model_cannot_be_loaded
              Scenario.rt_app Scenario.web
              (Scenario.request "leaf.jpg" [("model", "MobileNetV2")]) Scenario.a0
              [("image", Scenario.upload "leaf.jpg")] (Scenario.upload "leaf.jpg")
              [("model", "MobileNetV2")]
              (App.ModelConfig "models/MobileNetV2/MobileNetV2_latest.keras"
                 "models/MobileNetV2/classes_classes.json" (256, 256)%Z
                 "Rápido y ligero")
              eq_refl eq_refl ltac:(done) Hallowed eq_refl eq_refl eq_refl eq_refl
              (or_intror eq_refl))
    as (resp & a' & Hrun & Hcode & _ & _ & _ & Hclass & _).
  exists resp, a'. split; [exact Hrun|]. split; [exact Hcode|exact Hclass].
Defined.

(** X17. With a manager in the cache, the endpoint reports what
    [improved_predict] returns on the saved upload, called with threshold
    0.50 and with TTA on 8 augmentations when the form field [use_tta] is
    'true' in any letter case, without TTA otherwise. The answer is 500
    with the fixed text 'Error en la predicción' when that result has
    status 'error'; otherwise it is 200, also for a 'warning': the class,
    confidence, probability, method, top-3 and probabilities of the result
    are passed on, [status] is 'warning' when the probability is below
    0.5 and 'success' otherwise, [tta_used] is the parsed flag and
    [model_used] is the model name as the client sent it, also when
    ResNet50 was used in its place. The cache is left as it was. *)
Theorem endpoint_reports_the_improved_prediction
    (rt : Runtime) (web : App.Web) (request : App.Request) (a : App.app_state)
    (uploads : list (string * App.FileStorage)) (f : App.FileStorage)
    (fields : list (string * string)) (m : manager) :
  App.files request = Ok uploads →
  chosen_file uploads = Some f →
  App.filename f ≠ "" →
  App.allowed_file (App.filename f) = Ok true →
  App.save f (saved_path web f) = Ok () →
  App.form request = Ok fields →
  dict_get (resolved (selected_model_of fields)) (App.loaded_models a) = Some m →
  ∃ resp a' s1 out,
    App.predict rt web request a = (Ok resp, a')
    ∧ rng s1 = rng (App.world a) ∧ fed s1 = fed (App.world a)
    ∧ improved_predict rt m (saved_path web f) (use_tta_of fields)
        (AFloat (mkQc 50 100)) (if use_tta_of fields then 8 else 0)%Z s1
      = (Ok out, App.world a')
    ∧ App.loaded_models a' = App.loaded_models a
    ∧ ((str_field "status" out = Some "error"
        ∧ resp = App.server_error (App.rstr "Error en la predicción"))
       ∨ (∃ p, dict_get "probability" out = Some (VAtom (AFloat p))
               ∧ str_field "status" out
                 = Some (if Qc_ltb p (mkQc 50 100) then "warning" else "success")
               ∧ resp.2 = 200
               ∧ body_field "success" resp = Some (App.RBool true)
               ∧ body_field "status" resp = App.RVal <$> dict_get "status" out
               ∧ body_field "tta_used" resp = Some (App.RBool (use_tta_of fields))
               ∧ body_field "model_used" resp
                 = Some (App.rstr (selected_model_of fields))
               ∧ body_field "filename" resp = Some (App.rstr (saved_name web f))
               ∧ prediction_field "class" resp = dict_get "class" out
               ∧ prediction_field "confidence" resp = dict_get "confidence" out
               ∧ prediction_field "probability" resp = dict_get "probability" out
               ∧ prediction_field "method" resp = dict_get "method" out
               ∧ prediction_field "top_3" resp = dict_get "top_3" out
               ∧ prediction_field "all_probabilities" resp
                 = dict_get "probabilities" out)).
Proof.
  intros Hfiles Hchosen Hname Hallowed Hsave Hform Hcache.
  destruct (predict_endpoint_valid rt web request a uploads f fields
              Hfiles Hchosen Hname Hallowed Hsave Hform)
    as (resp & a' & current & a2 & Hrun & Hgm & Hl & Hcur).
  match type of Hgm with
  | App.get_model_manager rt web ?n ?st = _ =>
      destruct (get_model_manager_cases rt web n st)
        as (r & a3 & Hgm' & Hrng & Hfed & Hcases)
  end.
  rewrite Hgm in Hgm'. injection Hgm' as <- <-.
  cbn [App.loaded_models App.world rng fed] in Hcases, Hrng, Hfed.
  rewrite Hcache in Hcases. destruct Hcases as (-> & Hl2 & _).
  destruct Hcur as (s1 & out & Hr1 & Hf1 & Hip & Hresp).
  exists resp, a', s1, out. split; [done|].
  split; [congruence|]. split; [congruence|]. split; [done|].
  split; [congruence|].
  pose proof (improved_predict_answer _ _ _ _ _ _ _ _ _ Hip) as Hans.
  destruct (_ && _).
  - right.
    destruct Hans as (label & p & st & Hc & Hconf & Hp & Hst & -> & Htop & _).
    destruct Hresp as (class & confidence & probability & status & top_3 & method
                       & probs & Gc & Gconf & Gp & Gst & Gtop & Gm & Gprobs & ->).
    exists p. split; [done|]. split; [unfold str_field; by rewrite Hst|].
    rewrite Gc, Gconf, Gp, Gst, Gtop, Gm, Gprobs. by repeat split.
  - left. destruct Hans as [Hst Hmsg]. split; [done|].
    rewrite Hresp. unfold get_default. by rewrite Hmsg.
Qed.

Lemma endpoint_reports_the_improved_prediction_witness :
  ∃ resp a',
    Scenario.served = (Ok resp, a')
    ∧ App.loaded_models a' = App.loaded_models Scenario.first_load.2
    ∧ (resp = App.server_error (App.rstr "Error en la predicción")
       ∨ (resp.2 = 200
          ∧ body_field "tta_used" resp = Some (App.RBool true)
          ∧ body_field "model_used" resp = Some (App.rstr "ResNet50"))).
Proof.
  assert (App.allowed_file "leaf.JPG" = Ok true) as Hallowed
    by (vm_compute; reflexivity).
  assert (dict_get "ResNet50" (App.loaded_models Scenario.first_load.2)
          = Some Scenario.loaded_manager) as Hcache
    by (vm_compute; reflexivity).
  destruct (endpoint_reports_the_improved_prediction
              Scenario.rt_app Scenario.web
              (Scenario.request "leaf.JPG" [("use_tta", "True")])
              Scenario.first_load.2
              [("image", Scenario.upload "leaf.JPG")] (Scenario.upload "leaf.JPG")
              [("use_tta", "True")] Scenario.loaded_manager
              eq_refl eq_refl ltac:(done) Hallowed eq_refl eq_refl Hcache)
    as (resp & a' & s1 & out & Hrun & _ & _ & _ & Hl & Hcases).
  exists resp, a'. split; [exact Hrun|]. split; [exact Hl|].
  destruct Hcases as [[_ Herr]|(p & _ & _ & Hcode & _ & _ & Htta & Hmodel & _)].
  - left. exact Herr.
  - right. split; [exact Hcode|]. split; [exact Htta|exact Hmodel].
Defined.

(** X18. [/api/models] lists the three configured models, in the order
    of [MODELS_CONFIG], and changes nothing. A model is reported as loaded
    exactly when the cache holds a manager under its name, so that after
    [get_model_manager] has returned a manager the model it resolved to is
    reported as loaded; and as available exactly when its model file
    exists. *)
Theorem available_models_reflects_the_cache
    (rt : Runtime) (web : App.Web) (a : App.app_state) :
  ∃ body,
    App.available_models rt a = (Ok body, a)
    ∧ App.models_success body = true
    ∧ App.models_default body = "ResNet50"
    ∧ (App.models body).*1 = ["ResNet50"; "EfficientNetB0"; "MobileNetV2"]
    ∧ (∀ k e, dict_get k (App.models body) = Some e →
         App.entry_name e = k
         ∧ (App.entry_loaded e = true
            ↔ is_Some (dict_get k (App.loaded_models a)))
         ∧ ∃ cfg, dict_get k App.MODELS_CONFIG = Some cfg
                  ∧ App.entry_description e = App.cfg_description cfg
                  ∧ App.entry_available e = os_path_exists rt (App.cfg_path cfg))
    ∧ (∀ model_name a0 m,
         App.get_model_manager rt web model_name a0 = (Ok (Some m), a) →
         ∃ e, dict_get (resolved model_name) (App.models body) = Some e
              ∧ App.entry_loaded e = true).
Proof.
  eexists. split; [reflexivity|]. cbn [App.models_success App.models_default App.models].
  split; [done|]. split; [done|]. split; [done|].
  assert (∀ k e,
            dict_get k
              ((λ '(name, cfg),
                  (name,
                   App.ModelEntry name (App.cfg_description cfg)
                     (bool_decide (is_Some (dict_get name (App.loaded_models a))))
                     (os_path_exists rt (App.cfg_path cfg))))
               <$> App.MODELS_CONFIG) = Some e →
            App.entry_name e = k
            ∧ (App.entry_loaded e = true
               ↔ is_Some (dict_get k (App.loaded_models a)))
            ∧ ∃ cfg, dict_get k App.MODELS_CONFIG = Some cfg
                     ∧ App.entry_description e = App.cfg_description cfg
                     ∧ App.entry_available e = os_path_exists rt (App.cfg_path cfg))
    as Hentries.
  { intros k e. unfold App.MODELS_CONFIG. cbn [fmap list_fmap dict_get].
    repeat case_decide; subst; intros [= <-]; cbn;
      (split; [done|]; split; [apply bool_decide_eq_true|]; by eexists). }
  split; [exact Hentries|].
  intros model_name a0 m Hrun.
  assert (dict_get (resolved model_name) (App.loaded_models a) = Some m) as Hin.
  { destruct (get_model_manager_cases rt web model_name a0)
      as (r & a1 & Hrun1 & _ & _ & Hcases).
    rewrite Hrun in Hrun1. injection Hrun1 as <- <-.
    destruct (dict_get (resolved model_name) (App.loaded_models a0))
      as [cached|] eqn:Hc.
    - destruct Hcases as ([= <-] & -> & _). done.
    - destruct Hcases as (-> & _). by rewrite dict_get_set_eq. }
  destruct (resolved_configured model_name) as [[cfg Hcfg] _].
  assert (∃ e, dict_get (resolved model_name)
                 ((λ '(name, cfg),
                     (name,
                      App.ModelEntry name (App.cfg_description cfg)
                        (bool_decide (is_Some (dict_get name (App.loaded_models a))))
                        (os_path_exists rt (App.cfg_path cfg))))
                  <$> App.MODELS_CONFIG) = Some e) as [e He].
  { revert Hcfg. generalize (resolved model_name). intros k.
    unfold App.MODELS_CONFIG. cbn [fmap list_fmap dict_get].
    repeat case_decide; subst; intros [= <-] || intros [=]; by eexists. }
  exists e. split; [done|].
  apply Hentries in He as (_ & Hloaded & _). apply Hloaded. by eexists.
Qed.
